(** * Enterprise Resource Management System: authorization, invitations, audit

    A shallow embedding of the Django back end (apps/projects, apps/audit,
    apps/users) and the properties of its visibility rules, invitation
    workflow and audit recorder.

    Tables are lists of rows.  Python compares text exactly; the store
    compares text columns under its collation, which is part of the store:
    exact on PostgreSQL (core/services/database_config.py) and SQLite,
    case-insensitive under the default collations of MySQL
    (config/settings.py).  [uuid.uuid4()] is a supply of values never
    handed out before; [timezone.now()] is an input of each request. *)

From Stdlib Require Import ZArith Ascii String List Lia.
From stdpp Require Import base decidable option list strings gmap pretty.
From stdpp Require Import sorting.

Local Open Scope string_scope.
Local Open Scope Z_scope.

(** ** Python outcomes *)

(** Exceptions that leave the modelled functions. *)
Inductive Exception :=
| ObjectDoesNotExist
| MultipleObjectsReturned
| IntegrityError.

(** A call either returns a value or raises. *)
Inductive Outcome (A : Type) :=
| Returns (a : A)
| Raises (e : Exception).
Arguments Returns {A} a.
Arguments Raises {A} e.

(** [Model.objects.get(...)]: the single matching row, [DoesNotExist] when
    there is none, [MultipleObjectsReturned] when there are several. *)
Inductive GetResult (A : Type) :=
| Found (a : A)
| DoesNotExist
| Multiple.
Arguments Found {A} a.
Arguments DoesNotExist {A}.
Arguments Multiple {A}.

Definition objects_get {A} (cond : A → bool) (rows : list A) : GetResult A :=
  match List.filter cond rows with
  | [] => DoesNotExist
  | [a] => Found a
  | _ => Multiple
  end.

(** [queryset.filter(...).first()] *)
Definition objects_first {A} (cond : A → bool) (rows : list A) : option A :=
  head (List.filter cond rows).

(** [queryset.filter(...).exists()] *)
Definition objects_exists {A} (cond : A → bool) (rows : list A) : bool :=
  existsb cond rows.

(** ** Text helpers *)

(** [str.lower()] and [str.upper()].  Texts are strings of bytes; on
    ASCII text, which [is_ascii] below tells, these are Python's case
    mappings. *)
Definition ascii_lower (c : ascii) : ascii :=
  let n := nat_of_ascii c in
  if ((65 <=? n) && (n <=? 90))%nat then ascii_of_nat (n + 32) else c.

Definition ascii_upper (c : ascii) : ascii :=
  let n := nat_of_ascii c in
  if ((97 <=? n) && (n <=? 122))%nat then ascii_of_nat (n - 32) else c.

Fixpoint lower (s : string) : string :=
  match s with
  | EmptyString => EmptyString
  | String c r => String (ascii_lower c) (lower r)
  end.

Fixpoint upper (s : string) : string :=
  match s with
  | EmptyString => EmptyString
  | String c r => String (ascii_upper c) (upper r)
  end.

(** [str.isascii()] *)
Fixpoint is_ascii (s : string) : bool :=
  match s with
  | EmptyString => true
  | String c r => (nat_of_ascii c <? 128)%nat && is_ascii r
  end.

(** The one-character text holding a double quote. *)
Definition dquote : string := String (ascii_of_nat 34) EmptyString.

(** The collation of the store's text columns: PostgreSQL and SQLite
    compare text exactly, the [*_ci] collations of MySQL ignore case.  Two
    texts are equal for the store when their keys are. *)
Inductive Collation := CaseSensitive | CaseInsensitive.

Definition text_key (c : Collation) (s : string) : string :=
  match c with
  | CaseSensitive => s
  | CaseInsensitive => lower s
  end.

(** [column = value] on a text column *)
Definition text_eq (c : Collation) (column value : string) : bool :=
  bool_decide (text_key c column = text_key c value).

(** [column IN values] on a text column *)
Definition text_in (c : Collation) (column : string) (values : list string)
    : bool :=
  existsb (text_eq c column) values.

(** ** Data model (apps/users/models.py, apps/projects/models.py) *)

Abbreviation UUID := N.
Abbreviation datetime := Z.

(** The names of users.User.ROLE_CHOICES.  [role] is a text column that the
    store does not hold to these two: the seed scripts write MANAGER. *)
Abbreviation ADMIN := "ADMIN".
Abbreviation EMPLOYEE := "EMPLOYEE".

Record User := {
  user_id : UUID;
  user_email : string;
  user_role : string;
}.

Record Project := {
  project_id : UUID;
  project_name : string;
  project_code : string;
  project_department : UUID;
  project_manager : option UUID;
  project_start_date : Z;
  project_end_date : Z;
  project_status : string;
  project_is_active : bool;
}.

(** The through table of [Project.members].  [role] is a plain text column:
    [objects.create] does not check it against ROLE_CHOICES. *)
Record ProjectMember := {
  pm_id : UUID;
  pm_project : UUID;
  pm_user : UUID;
  pm_role : string;
  pm_is_active : bool;
}.

(** ProjectInvitation.STATUS_CHOICES *)
Inductive InvitationStatus := PENDING | ACCEPTED | REJECTED | EXPIRED.

#[global] Instance InvitationStatus_eq_dec : EqDecision InvitationStatus.
Proof. solve_decision. Defined.

Record ProjectInvitation := {
  inv_id : UUID;
  inv_project : UUID;
  inv_invited_by : UUID;
  inv_email : string;
  inv_role : string;
  inv_token : UUID;
  inv_status : InvitationStatus;
  inv_message : string;
  inv_created_at : datetime;
  inv_expires_at : datetime;
  inv_accepted_at : option datetime;
}.

Record Task := {
  task_id : UUID;
  task_project : UUID;
  task_assigned_to : option UUID;
}.

#[global] Instance User_eq_dec : EqDecision User.
Proof. solve_decision. Defined.
#[global] Instance Project_eq_dec : EqDecision Project.
Proof. solve_decision. Defined.
#[global] Instance ProjectMember_eq_dec : EqDecision ProjectMember.
Proof. solve_decision. Defined.
#[global] Instance ProjectInvitation_eq_dec : EqDecision ProjectInvitation.
Proof. solve_decision. Defined.
#[global] Instance Task_eq_dec : EqDecision Task.
Proof. solve_decision. Defined.

(** The relational store: one list per table, the uuid4 supply and the
    collation of the text columns. *)
Record DB := {
  collation : Collation;
  users : list User;
  projects : list Project;
  project_members : list ProjectMember;
  invitations : list ProjectInvitation;
  tasks : list Task;
  uuid_supply : UUID;
}.

(** ** HTTP requests *)

Inductive Method := GET | HEAD | OPTIONS | POST | PUT | PATCH | DELETE.

#[global] Instance Method_eq_dec : EqDecision Method.
Proof. solve_decision. Defined.

(** rest_framework.permissions.SAFE_METHODS *)
Definition SAFE_METHODS : list Method := [GET; HEAD; OPTIONS].

(** The actions of ProjectViewSet: the ModelViewSet ones and its [@action]s. *)
Inductive Action :=
| act_list | act_create | act_retrieve | act_update | act_partial_update
| act_destroy | act_members | act_add_member | act_remove_member
| act_tasks | act_my_projects | act_invite_members | act_list_invitations
| act_accept_invitation | act_reject_invitation | act_resend_invitation
| act_delete_invitation | act_update_invitation.

#[global] Instance Action_eq_dec : EqDecision Action.
Proof. solve_decision. Defined.

(** The query parameters read by [ProjectViewSet.get_queryset].  A text
    parameter is [None] when absent; [department] and [manager] are present
    only as well-formed, non-empty ids. *)
Record QueryParams := {
  qp_status : option string;
  qp_department : option UUID;
  qp_manager : option UUID;
  qp_is_active : option string;
}.

Definition no_params : QueryParams :=
  {| qp_status := None; qp_department := None;
     qp_manager := None; qp_is_active := None |}.

(** An authenticated request. *)
Record Request := {
  req_user : User;
  req_method : Method;
  req_query : QueryParams;
}.

(** ** Project permissions (apps/projects/permissions.py) *)

Module Permissions.

(** The lookup [project=project, user=user, is_active=True]. *)
Definition active_membership (project : Project) (user : User)
    (m : ProjectMember) : bool :=
  (pm_project m =? project_id project)%N
  && (pm_user m =? user_id user)%N
  && pm_is_active m.

Definition has_object_permission (db : DB) (request : Request)
    (action : Action) (obj : Project) : Outcome bool :=
  let user := req_user request in
  if bool_decide (user_role user = ADMIN) then Returns true
  else
    match objects_get (active_membership obj user) (project_members db) with
    | DoesNotExist => Returns false
    | Multiple => Raises MultipleObjectsReturned
    | Found membership =>
        if bool_decide (req_method request ∈ SAFE_METHODS) then Returns true
        else if bool_decide
                  (action ∈ [act_update; act_partial_update; act_destroy])
        then Returns (bool_decide (pm_role membership = "LEAD"))
        else if bool_decide
                  (action ∈ [act_add_member; act_remove_member;
                             act_members; act_invite_members;
                             act_list_invitations; act_resend_invitation;
                             act_delete_invitation; act_update_invitation])
        then Returns (bool_decide (pm_role membership = "LEAD")
                      || bool_decide (user_role user = ADMIN))
        else Returns false
    end.

Definition get_user_project_role (db : DB) (user : User)
    (project : Project) : Outcome (option string) :=
  match objects_get (active_membership project user) (project_members db) with
  | Found membership => Returns (Some (pm_role membership))
  | DoesNotExist => Returns None
  | Multiple => Raises MultipleObjectsReturned
  end.

Definition can_user_access_project (db : DB) (user : User)
    (project : Project) : bool :=
  if bool_decide (user_role user = ADMIN) then true
  else objects_exists (active_membership project user) (project_members db).

Definition can_user_manage_project (db : DB) (user : User)
    (project : Project) : Outcome bool :=
  if bool_decide (user_role user = ADMIN) then Returns true
  else
    match objects_get (active_membership project user) (project_members db) with
    | Found membership => Returns (bool_decide (pm_role membership = "LEAD"))
    | DoesNotExist => Returns false
    | Multiple => Raises MultipleObjectsReturned
    end.

End Permissions.

(** ** Task permissions (apps/projects/permissions.py) *)

Module TaskPermissions.

(** The lookup [project=task.project, user=user, is_active=True], on the
    task's foreign key. *)
Definition active_membership (project : UUID) (user : User)
    (m : ProjectMember) : bool :=
  (pm_project m =? project)%N
  && (pm_user m =? user_id user)%N
  && pm_is_active m.

(** [TaskPermission.has_object_permission]; [action] is [view.action]. *)
Definition has_object_permission (db : DB) (request : Request)
    (action : string) (obj : Task) : Outcome bool :=
  let user := req_user request in
  let project := task_project obj in
  if bool_decide (user_role user = ADMIN) then Returns true
  else
    match objects_get (active_membership project user)
                      (project_members db) with
    | DoesNotExist => Returns false
    | Multiple => Raises MultipleObjectsReturned
    | Found membership =>
        if bool_decide (pm_role membership = "VIEWER")
        then Returns (bool_decide (req_method request ∈ SAFE_METHODS))
        else if bool_decide (req_method request ∈ SAFE_METHODS)
        then Returns true
        else if bool_decide (action = "create")
        then Returns (bool_decide
                        (pm_role membership ∈ ["LEAD"; "DEVELOPER"]))
        else if bool_decide (action ∈ ["update"; "partial_update"])
        then Returns (bool_decide
                        (pm_role membership ∈ ["LEAD"; "DEVELOPER"])
                      || bool_decide
                           (task_assigned_to obj = Some (user_id user)))
        else if bool_decide (action = "destroy")
        then Returns (bool_decide (pm_role membership = "LEAD"))
        else Returns false
    end.

Definition can_user_create_task (db : DB) (user : User)
    (project : Project) : Outcome bool :=
  if bool_decide (user_role user = ADMIN) then Returns true
  else
    match objects_get (active_membership (project_id project) user)
                      (project_members db) with
    | Found membership =>
        Returns (bool_decide (pm_role membership ∈ ["LEAD"; "DEVELOPER"]))
    | DoesNotExist => Returns false
    | Multiple => Raises MultipleObjectsReturned
    end.

Definition can_user_edit_task (db : DB) (user : User) (task : Task)
    : Outcome bool :=
  let project := task_project task in
  if bool_decide (user_role user = ADMIN) then Returns true
  else if bool_decide (task_assigned_to task = Some (user_id user))
  then Returns true
  else
    match objects_get (active_membership project user)
                      (project_members db) with
    | Found membership =>
        Returns (bool_decide (pm_role membership ∈ ["LEAD"; "DEVELOPER"]))
    | DoesNotExist => Returns false
    | Multiple => Raises MultipleObjectsReturned
    end.

End TaskPermissions.

(** ** System roles (apps/users/models.py, apps/users/permissions.py) *)

Module Users.

(** [User.is_admin] *)
Definition is_admin (self : User) : bool :=
  bool_decide (user_role self = ADMIN).

(** The [permission_map] of [User.has_permission]: a dict with the two
    keys ADMIN and EMPLOYEE. *)
Definition permission_map (role : string) : option (list string) :=
  if bool_decide (role = ADMIN)
  then Some
      ["manage_users"; "manage_departments"; "manage_projects";
       "manage_tasks"; "view_all_timesheets"; "approve_all_timesheets";
       "generate_all_reports"; "view_audit_logs"; "system_config";
       "view_own_data"; "submit_timesheets"; "view_assigned_projects"]
  else if bool_decide (role = EMPLOYEE)
  then Some
      ["view_own_data"; "submit_timesheets"; "view_assigned_projects";
       "manage_projects"; "manage_tasks"]
  else None.

(** [User.has_permission]:
    [permission in permission_map.get(self.role, [])] *)
Definition has_permission (self : User) (permission : string) : bool :=
  bool_decide (permission ∈ default [] (permission_map (user_role self))).

End Users.

(** The permission classes of apps/users/permissions.py, on an
    authenticated request. *)
Module UserPermissions.

Definition IsAdmin (request : Request) : bool :=
  Users.is_admin (req_user request).

Definition CanManageUsers (request : Request) : bool :=
  Users.has_permission (req_user request) "manage_users".

Definition CanManageDepartments (request : Request) : bool :=
  Users.has_permission (req_user request) "manage_departments".

Definition CanManageProjects (request : Request) : bool :=
  Users.has_permission (req_user request) "manage_projects".

Definition CanApproveTimesheets (request : Request) : bool :=
  Users.has_permission (req_user request) "approve_timesheets".

(** [Project.objects.filter(manager=request.user).exists()] *)
Definition manages_a_project (db : DB) (user : User) : bool :=
  objects_exists (λ p, bool_decide (project_manager p = Some (user_id user)))
                 (projects db).

Definition CanGenerateReports (db : DB) (request : Request) : bool :=
  if Users.is_admin (req_user request) then true
  else manages_a_project db (req_user request).

Definition CanViewAuditLogs (db : DB) (request : Request) : bool :=
  if Users.is_admin (req_user request) then true
  else manages_a_project db (req_user request).

End UserPermissions.

(** ** Responses and view handlers *)

Inductive Status :=
| HTTP_200_OK | HTTP_201_CREATED | HTTP_204_NO_CONTENT
| HTTP_400_BAD_REQUEST | HTTP_403_FORBIDDEN | HTTP_404_NOT_FOUND
| HTTP_500_INTERNAL_SERVER_ERROR.

#[global] Instance Status_eq_dec : EqDecision Status.
Proof. solve_decision. Defined.

(** The response envelope of core/exceptions.py: [success], [message] and,
    for [APIResponse.error], an optional [code]. *)
Record Response := {
  resp_status : Status;
  resp_success : bool;
  resp_message : string;
  resp_code : option string;
}.

#[global] Instance Response_eq_dec : EqDecision Response.
Proof. solve_decision. Defined.

Definition api_success (st : Status) (message : string) : Response :=
  {| resp_status := st; resp_success := true;
     resp_message := message; resp_code := None |}.

Definition api_error (st : Status) (message : string)
    (code : option string) : Response :=
  {| resp_status := st; resp_success := false;
     resp_message := message; resp_code := code |}.

(** What [custom_exception_handler] makes of the framework's exceptions. *)
Definition validation_error (message : string) : Response :=
  api_error HTTP_400_BAD_REQUEST message None.
Definition permission_denied : Response :=
  api_error HTTP_403_FORBIDDEN
    "You do not have permission to perform this action." None.
(** [Http404] of [get_object]: the handler answers with [str(exc)]. *)
Definition not_found : Response :=
  api_error HTTP_404_NOT_FOUND "No Project matches the given query." None.

(** An exception no handler catches. *)
Definition server_error (e : Exception) : Response :=
  api_error HTTP_500_INTERNAL_SERVER_ERROR
    match e with
    | ObjectDoesNotExist => "DoesNotExist"
    | MultipleObjectsReturned => "MultipleObjectsReturned"
    | IntegrityError => "IntegrityError"
    end None.

(** A handler threads the store and either goes on with a value or stops
    with a response (an early [return Response(...)] or a raised
    exception).  Saves made before the stop stay: requests are not wrapped
    in a transaction. *)
Definition View (A : Type) : Type := DB → DB * (Response + A).

Definition ret {A} (a : A) : View A := λ db, (db, inr a).
Definition stop {A} (r : Response) : View A := λ db, (db, inl r).
Definition bind {A B} (m : View A) (k : A → View B) : View B :=
  λ db, match m db with
        | (db', inl r) => (db', inl r)
        | (db', inr a) => k a db'
        end.
Definition read {A} (f : DB → A) : View A := λ db, (db, inr (f db)).
Definition write (f : DB → DB) : View unit := λ db, (f db, inr tt).

Notation "'let*' x ':=' m 'in' k" := (bind m (λ x, k))
  (at level 10, x name, m at level 100, k at level 200).

Definition respond (v : View Response) (db : DB) : DB * Response :=
  match v db with
  | (db', inl r) => (db', r)
  | (db', inr r) => (db', r)
  end.

(** [uuid.uuid4()] *)
Definition uuid4 : View UUID :=
  λ db, ({| collation := collation db;
            users := users db; projects := projects db;
            project_members := project_members db;
            invitations := invitations db; tasks := tasks db;
            uuid_supply := N.succ (uuid_supply db) |},
         inr (uuid_supply db)).

(** ** Table updates *)

Definition set_projects (l : list Project) (db : DB) : DB :=
  {| collation := collation db;
     users := users db; projects := l;
     project_members := project_members db;
     invitations := invitations db; tasks := tasks db;
     uuid_supply := uuid_supply db |}.

Definition set_project_members (l : list ProjectMember) (db : DB) : DB :=
  {| collation := collation db;
     users := users db; projects := projects db;
     project_members := l;
     invitations := invitations db; tasks := tasks db;
     uuid_supply := uuid_supply db |}.

Definition set_invitations (l : list ProjectInvitation) (db : DB) : DB :=
  {| collation := collation db;
     users := users db; projects := projects db;
     project_members := project_members db;
     invitations := l; tasks := tasks db;
     uuid_supply := uuid_supply db |}.

(** ** Model methods (apps/projects/models.py) *)

Module Models.

(** [timedelta(days=7)], in seconds. *)
Definition seven_days : Z := 7 * 86400.

(** ProjectInvitation.is_expired *)
Definition is_expired (now : datetime) (self : ProjectInvitation) : bool :=
  now >? inv_expires_at self.

(** ProjectInvitation.can_accept *)
Definition can_accept (now : datetime) (self : ProjectInvitation) : bool :=
  bool_decide (inv_status self = PENDING) && negb (is_expired now self).

Definition with_status (st : InvitationStatus) (i : ProjectInvitation)
    : ProjectInvitation :=
  {| inv_id := inv_id i; inv_project := inv_project i;
     inv_invited_by := inv_invited_by i; inv_email := inv_email i;
     inv_role := inv_role i; inv_token := inv_token i;
     inv_status := st; inv_message := inv_message i;
     inv_created_at := inv_created_at i;
     inv_expires_at := inv_expires_at i;
     inv_accepted_at := inv_accepted_at i |}.

Definition with_accepted_at (t : datetime) (i : ProjectInvitation)
    : ProjectInvitation :=
  {| inv_id := inv_id i; inv_project := inv_project i;
     inv_invited_by := inv_invited_by i; inv_email := inv_email i;
     inv_role := inv_role i; inv_token := inv_token i;
     inv_status := inv_status i; inv_message := inv_message i;
     inv_created_at := inv_created_at i;
     inv_expires_at := inv_expires_at i;
     inv_accepted_at := Some t |}.

Definition with_expires_at (t : datetime) (i : ProjectInvitation)
    : ProjectInvitation :=
  {| inv_id := inv_id i; inv_project := inv_project i;
     inv_invited_by := inv_invited_by i; inv_email := inv_email i;
     inv_role := inv_role i; inv_token := inv_token i;
     inv_status := inv_status i; inv_message := inv_message i;
     inv_created_at := inv_created_at i;
     inv_expires_at := t;
     inv_accepted_at := inv_accepted_at i |}.

Definition with_role_message (role : option string)
    (message : option string) (i : ProjectInvitation) : ProjectInvitation :=
  {| inv_id := inv_id i; inv_project := inv_project i;
     inv_invited_by := inv_invited_by i; inv_email := inv_email i;
     inv_role := default (inv_role i) role; inv_token := inv_token i;
     inv_status := inv_status i;
     inv_message := default (inv_message i) message;
     inv_created_at := inv_created_at i;
     inv_expires_at := inv_expires_at i;
     inv_accepted_at := inv_accepted_at i |}.

(** [invitation.save()] of a loaded row: every row with the instance's
    primary key is overwritten; an instance whose key is not in the
    table is inserted.  A saved row always has [expires_at], so the
    default in [save] does not fire here. *)
Definition save_rows (self : ProjectInvitation)
    (rows : list ProjectInvitation) : list ProjectInvitation :=
  if existsb (λ r, inv_id r =? inv_id self)%N rows
  then map (λ r, if (inv_id r =? inv_id self)%N then self else r) rows
  else rows ++ [self].

Definition save (self : ProjectInvitation) : View unit :=
  write (λ db, set_invitations (save_rows self (invitations db)) db).

(** [ProjectInvitation.objects.create(project=, invited_by=, email=,
    role=, message=)]: fresh [id] and [token], status PENDING, and
    [save] fills [expires_at] with now + 7 days.  The lengths of the
    columns are left out: a store that enforces them refuses an address of
    more than 255 characters, so the properties that rest on the insert
    bound the addresses. *)
Definition invitation_create (now : datetime) (project invited_by : UUID)
    (email role message : string) : View ProjectInvitation :=
  let* id := uuid4 in
  let* token := uuid4 in
  let self :=
    {| inv_id := id; inv_project := project;
       inv_invited_by := invited_by; inv_email := email;
       inv_role := role; inv_token := token;
       inv_status := PENDING; inv_message := message;
       inv_created_at := now;
       inv_expires_at := now + seven_days;
       inv_accepted_at := None |} in
  let* _ := save self in
  ret self.

(** [invitation.delete()] *)
Definition invitation_delete (self : ProjectInvitation) : View unit :=
  write (λ db,
    set_invitations
      (List.filter (λ r, negb (inv_id r =? inv_id self)%N) (invitations db))
      db).

(** [ProjectMember.objects.create(project=, user=, role=, is_active=)].
    [unique_together = ('project', 'user')] makes the insert fail when the
    pair already has a row, active or not. *)
Definition member_create (project user : UUID) (role : string)
    (is_active : bool) : View ProjectMember :=
  let* id := uuid4 in
  let* taken := read (λ db,
    existsb (λ m, (pm_project m =? project)%N && (pm_user m =? user)%N)
            (project_members db)) in
  if taken : bool then stop (server_error IntegrityError)
  else
    let self := {| pm_id := id; pm_project := project; pm_user := user;
                   pm_role := role; pm_is_active := is_active |} in
    let* _ := write (λ db,
      set_project_members (project_members db ++ [self]) db) in
    ret self.

(** [member.delete()] *)
Definition member_delete (self : ProjectMember) : View unit :=
  write (λ db,
    set_project_members
      (List.filter (λ r, negb (pm_id r =? pm_id self)%N) (project_members db))
      db).

(** [project.delete()]: the rows that reference the project with
    [on_delete=CASCADE] go with it. *)
Definition project_delete (self : Project) : View unit :=
  write (λ db,
    {| collation := collation db;
       users := users db;
       projects :=
         List.filter (λ p, negb (project_id p =? project_id self)%N)
                     (projects db);
       project_members :=
         List.filter (λ m, negb (pm_project m =? project_id self)%N)
                     (project_members db);
       invitations :=
         List.filter (λ i, negb (inv_project i =? project_id self)%N)
                     (invitations db);
       tasks :=
         List.filter (λ t, negb (task_project t =? project_id self)%N)
                     (tasks db);
       uuid_supply := uuid_supply db |}).

End Models.

(** ** Model properties of Project (apps/projects/models.py) *)

Module ProjectMethods.

(** Project.STATUS_CHOICES *)
Definition STATUS_CHOICES : list string :=
  ["PLANNING"; "ACTIVE"; "ON_HOLD"; "COMPLETED"; "CANCELLED"].

(** [Project.duration_days] *)
Definition duration_days (self : Project) : Z :=
  project_end_date self - project_start_date self.

End ProjectMethods.

(** ** Serializers (apps/projects/serializers.py) *)

(** ProjectMember.ROLE_CHOICES *)
Definition ROLE_CHOICES : list string :=
  ["LEAD"; "DEVELOPER"; "TESTER"; "ANALYST"; "DESIGNER"].

Definition status_name (st : InvitationStatus) : string :=
  match st with
  | PENDING => "PENDING"
  | ACCEPTED => "ACCEPTED"
  | REJECTED => "REJECTED"
  | EXPIRED => "EXPIRED"
  end.

(** [ChoiceField(choices=ProjectMember.ROLE_CHOICES, default=...)] *)
Definition role_field (default_role : option string)
    (role : option string) : View string :=
  match role, default_role with
  | Some r, _ =>
      if bool_decide (r ∈ ROLE_CHOICES) then ret r
      else stop (validation_error
                   (dquote ++ r ++ dquote ++ " is not a valid choice."))
  | None, Some d => ret d
  | None, None => stop (validation_error "This field is required.")
  end.

Module AcceptInvitationSerializer.

Definition validate_token (now : datetime) (token : UUID) : View UUID :=
  let* found := read (λ db,
    objects_get (λ i, inv_token i =? token)%N (invitations db)) in
  match found with
  | DoesNotExist => stop (validation_error "Invalid invitation token.")
  | Multiple => stop (server_error MultipleObjectsReturned)
  | Found invitation =>
      if bool_decide (inv_status invitation ≠ PENDING)
      then stop (validation_error
                   ("Invitation is "
                    ++ lower (status_name (inv_status invitation)) ++ "."))
      else if Models.is_expired now invitation
      then
        let* _ := Models.save (Models.with_status EXPIRED invitation) in
        stop (validation_error "Invitation has expired.")
      else ret token
  end.

End AcceptInvitationSerializer.

Module InviteMembersSerializer.

Record InviteMembersData := {
  data_emails : list string;
  data_role : option string;
  data_message : option string;
}.

(** The loop of [validate_emails]: [seen] holds the lower-cased emails met
    so far, the emails kept are the ones as typed. *)
Fixpoint unique_emails (seen : list string) (emails : list string)
    : list string :=
  match emails with
  | [] => []
  | email :: rest =>
      let email_lower := lower email in
      if bool_decide (email_lower ∈ seen) then unique_emails seen rest
      else email :: unique_emails (email_lower :: seen) rest
  end.

Definition validate_emails (emails : list string) : View (list string) :=
  match unique_emails [] emails with
  | [] => stop (validation_error "At least one email is required.")
  | unique => ret unique
  end.

(** [", ".join(...)] *)
Definition join (l : list string) : string := String.concat ", " l.

(** [ProjectMember.objects.filter(project=, user__email__in=emails,
    is_active=True).values_list('user__email', flat=True)] *)
Definition existing_members (db : DB) (project : Project)
    (emails : list string) : list string :=
  flat_map (λ m,
    if (pm_project m =? project_id project)%N && pm_is_active m
    then
      map user_email
        (List.filter (λ u, (user_id u =? pm_user m)%N
                           && text_in (collation db) (user_email u) emails)
                     (users db))
    else [])
    (project_members db).

(** [ProjectInvitation.objects.filter(project=, email__in=emails,
    status='PENDING').values_list('email', flat=True)] *)
Definition pending_invitations (db : DB) (project : Project)
    (emails : list string) : list string :=
  map inv_email
    (List.filter (λ i, (inv_project i =? project_id project)%N
                       && text_in (collation db) (inv_email i) emails
                       && bool_decide (inv_status i = PENDING))
                 (invitations db)).

Definition validate (project : Project) (emails : list string)
    : View unit :=
  let* members := read (λ db, existing_members db project emails) in
  match members with
  | _ :: _ =>
      stop (validation_error
              ("Following emails are already project members: "
               ++ join members))
  | [] =>
      let* pending := read (λ db, pending_invitations db project emails) in
      match pending with
      | _ :: _ =>
          stop (validation_error
                  ("Following emails already have pending invitations: "
                   ++ join pending))
      | [] => ret tt
      end
  end.

(** [serializer.is_valid(raise_exception=True)] for InviteMembersSerializer:
    the declared fields in order, then [validate].  The emails are taken
    to be well-formed addresses. *)
Definition is_valid (project : Project)
    (data : InviteMembersData) : View (list string * string * string) :=
  match data_emails data with
  | [] => stop (validation_error "This list may not be empty.")
  | emails =>
      let* emails := validate_emails emails in
      let* role := role_field (Some "DEVELOPER") (data_role data) in
      if (500 <? String.length (default EmptyString (data_message data)))%nat
      then stop (validation_error
                   "Ensure this field has no more than 500 characters.")
      else
        let* _ := validate project emails in
        ret (emails, role, default EmptyString (data_message data))
  end.

End InviteMembersSerializer.

Module ProjectCreateSerializer.

(** The request body after field conversion.  Columns that no modelled
    operation reads (description, budget) are left out. *)
Record ProjectData := {
  data_name : string;
  data_code : option string;
  data_department : UUID;
  data_manager : option UUID;
  data_start_date : Z;
  data_end_date : Z;
  data_status : option string;
  data_is_active : option bool;
}.

(** [Project.objects.filter(code=code).exists()] *)
Definition code_exists (db : DB) (code : string) : bool :=
  objects_exists (λ p, text_eq (collation db) (project_code p) code)
                 (projects db).

Definition validate_code (value : string) : View string :=
  let value := upper value in
  let* taken := read (λ db, code_exists db value) in
  if taken : bool
  then stop (validation_error "Project code must be unique.")
  else ret value.

Definition validate (data : ProjectData) : View unit :=
  if data_start_date data >? data_end_date data
  then stop (validation_error "End date must be after start date.")
  else ret tt.

(** [\w] on ASCII text: letters, digits and the underscore. *)
Definition is_word_char (c : ascii) : bool :=
  let n := nat_of_ascii c in
  ((48 <=? n) && (n <=? 57) || (65 <=? n) && (n <=? 90)
   || (97 <=? n) && (n <=? 122) || (n =? 95))%nat.

(** [''.join(re.findall(r'\b\w', s))]: the first character of every run
    of word characters. *)
Fixpoint word_starts (prev_is_word : bool) (s : string) : string :=
  match s with
  | EmptyString => EmptyString
  | String c rest =>
      let w := is_word_char c in
      if w && negb prev_is_word
      then String c (word_starts w rest)
      else word_starts w rest
  end.

Definition base_code (name : string) : string :=
  match substring 0 10 (word_starts false (upper name)) with
  | EmptyString => "PROJ"
  | s => s
  end.

(** The [while Project.objects.filter(code=code).exists()] loop.  At most
    [fuel] candidates are tested; [generate_code] gives it one unit per
    stored project, after which the candidate in hand cannot be taken
    ([generate_code_unique] below), so the loop would stop there too. *)
Fixpoint next_code (fuel : nat) (db : DB) (base : string)
    (code : string) (counter : nat) : string :=
  match fuel with
  | O => code
  | S fuel' =>
      if code_exists db code
      then next_code fuel' db base (base ++ pretty counter) (S counter)
      else code
  end.

Definition generate_code (db : DB) (name : string) : string :=
  let base := base_code name in
  next_code (length (projects db)) db base base 1.

(** [ProjectCreateSerializer.create] *)
Definition create (user : option User) (validated_data : ProjectData)
    : View Project :=
  let manager :=
    match data_manager validated_data, user with
    | None, Some u => Some (user_id u)
    | m, _ => m
    end in
  let* code :=
    match data_code validated_data with
    | Some (String _ _ as code) => ret (upper code)
    | _ =>
        read (λ db, generate_code db (data_name validated_data))
    end in
  let* id := uuid4 in
  let project :=
    {| project_id := id;
       project_name := data_name validated_data;
       project_code := code;
       project_department := data_department validated_data;
       project_manager := manager;
       project_start_date := data_start_date validated_data;
       project_end_date := data_end_date validated_data;
       project_status := default "PLANNING" (data_status validated_data);
       project_is_active := default true (data_is_active validated_data) |} in
  let* _ := write (λ db, set_projects (projects db ++ [project]) db) in
  match user with
  | Some u =>
      let* _ := Models.member_create (project_id project) (user_id u)
                                     "LEAD" true in
      ret project
  | None => ret project
  end.

(** [serializer.is_valid(raise_exception=True)]: [validate_code] when the
    body carries a code, then [validate]. *)
Definition is_valid (data : ProjectData) : View ProjectData :=
  let* code :=
    match data_code data with
    | Some c => let* c := validate_code c in ret (Some c)
    | None => ret None
    end in
  let* _ := validate data in
  ret {| data_name := data_name data; data_code := code;
         data_department := data_department data;
         data_manager := data_manager data;
         data_start_date := data_start_date data;
         data_end_date := data_end_date data;
         data_status := data_status data;
         data_is_active := data_is_active data |}.

End ProjectCreateSerializer.

Module AddProjectMemberSerializer.

Definition validate_user_id (value : UUID) : View UUID :=
  let* known := read (λ db,
    objects_exists (λ u, user_id u =? value)%N (users db)) in
  if known : bool then ret value
  else stop (validation_error "User not found.").

End AddProjectMemberSerializer.

(** ** Updating a project (apps/projects/serializers.py) *)

Module ProjectUpdateSerializer.

(** [validate_code]; [instance] is the project being updated. *)
Definition validate_code (instance : Project) (value : string)
    : View string :=
  let value := upper value in
  let* taken := read (λ db,
    objects_exists
      (λ p, text_eq (collation db) (project_code p) value)
      (List.filter (λ p, negb (project_id p =? project_id instance)%N)
                   (projects db))) in
  if taken : bool
  then stop (validation_error "Project code must be unique.")
  else ret value.

End ProjectUpdateSerializer.

(** ** Project views (apps/projects/views.py, ProjectViewSet) *)

Module ProjectViewSet.

(** The request the router hands to an action bound to [method]. *)
Definition request_for (method : Method) (user : User)
    (query : QueryParams) : Request :=
  {| req_user := user; req_method := method; req_query := query |}.

(** [Q(manager=user) | Q(members=user)]: the join through the
    project_members table has no condition on [is_active]. *)
Definition manager_or_member (db : DB) (user : User) (p : Project) : bool :=
  bool_decide (project_manager p = Some (user_id user))
  || existsb (λ m, (pm_project m =? project_id p)%N
                   && (pm_user m =? user_id user)%N)
             (project_members db).

(** [ProjectViewSet.get_queryset].  [.distinct()] has nothing to remove:
    each project row is kept or dropped once. *)
Definition get_queryset (db : DB) (request : Request) (action : Action)
    : list Project :=
  let q := req_query request in
  let queryset := projects db in
  let queryset :=
    match qp_status q with
    | Some (String _ _ as status_param) =>
        List.filter
          (λ p, text_eq (collation db) (project_status p)
                        (upper status_param))
          queryset
    | _ => queryset
    end in
  let queryset :=
    match qp_department q with
    | Some department =>
        List.filter (λ p, project_department p =? department)%N queryset
    | None => queryset
    end in
  let queryset :=
    match qp_manager q with
    | Some manager =>
        List.filter (λ p, bool_decide (project_manager p = Some manager))
                    queryset
    | None => queryset
    end in
  let queryset :=
    match qp_is_active q with
    | Some is_active =>
        List.filter
          (λ p, bool_decide
                  (project_is_active p
                   = bool_decide (lower is_active = "true")))
          queryset
    | None => queryset
    end in
  let user := req_user request in
  if bool_decide (action = act_list)
  then List.filter (manager_or_member db user) queryset
  else queryset.

(** The project listing of a user: [GET /projects/] with no filter. *)
Definition listVisibleProjects (db : DB) (u : User) : list Project :=
  get_queryset db (request_for GET u no_params) act_list.

(** [self.get_object()] of the framework's GenericAPIView: the row with
    this [pk] in [get_queryset()], else 404; then the object permission
    of ProjectPermission, else 403. *)
Definition get_object (request : Request) (action : Action) (pk : UUID)
    : View Project :=
  let* found := read (λ db,
    objects_get (λ p, project_id p =? pk)%N
                (get_queryset db request action)) in
  match found with
  | DoesNotExist => stop not_found
  | Multiple => stop (server_error MultipleObjectsReturned)
  | Found obj =>
      let* allowed := read (λ db,
        Permissions.has_object_permission db request action obj) in
      match allowed with
      | Returns true => ret obj
      | Returns false => stop permission_denied
      | Raises e => stop (server_error e)
      end
  end.

(** [create]: POST /projects/ *)
Definition create (user : User) (data : ProjectCreateSerializer.ProjectData)
    : View Response :=
  let* validated_data := ProjectCreateSerializer.is_valid data in
  let* project := ProjectCreateSerializer.create (Some user) validated_data in
  ret (api_success HTTP_201_CREATED "Project created successfully").

(** [destroy]: DELETE /projects/{pk}/ *)
Definition destroy (user : User) (query : QueryParams) (pk : UUID)
    : View Response :=
  let* instance := get_object (request_for DELETE user query) act_destroy pk in
  let* has_tasks := read (λ db,
    objects_exists (λ t, task_project t =? project_id instance)%N
                   (tasks db)) in
  if has_tasks : bool
  then ret (api_error HTTP_400_BAD_REQUEST
              "Cannot delete project with existing tasks"
              (Some "project_has_tasks"))
  else
    let* _ := Models.project_delete instance in
    ret (api_success HTTP_204_NO_CONTENT "Project deleted successfully").

(** [add_member]: POST /projects/{pk}/add_member/ *)
Definition add_member (user : User) (query : QueryParams) (pk : UUID)
    (user_id' : UUID) (role : option string) : View Response :=
  let* project := get_object (request_for POST user query) act_add_member pk in
  let* user_id' := AddProjectMemberSerializer.validate_user_id user_id' in
  let* role := role_field None role in
  let* already := read (λ db,
    objects_exists (λ m, (pm_project m =? project_id project)%N
                         && (pm_user m =? user_id')%N)
                   (project_members db)) in
  if already : bool
  then ret (api_error HTTP_400_BAD_REQUEST
              "User is already a member of this project"
              (Some "user_already_member"))
  else
    let* member := Models.member_create (project_id project) user_id'
                                        role true in
    ret (api_success HTTP_201_CREATED
           "Member added to project successfully").

(** [remove_member]: DELETE /projects/{pk}/members/{member_id}/ *)
Definition remove_member (user : User) (query : QueryParams) (pk : UUID)
    (member_id : UUID) : View Response :=
  let* project :=
    get_object (request_for DELETE user query) act_remove_member pk in
  let* found := read (λ db,
    objects_get (λ m, (pm_project m =? project_id project)%N
                      && (pm_user m =? member_id)%N)
                (project_members db)) in
  match found with
  | Found member =>
      let* _ := Models.member_delete member in
      ret (api_success HTTP_204_NO_CONTENT
             "Member removed from project successfully")
  | DoesNotExist =>
      ret (api_error HTTP_404_NOT_FOUND "Member not found in this project"
             (Some "member_not_found"))
  | Multiple => stop (server_error MultipleObjectsReturned)
  end.

(** [_send_invitation_email]: builds the message and hands it to the mail
    sender, whose failures are caught and printed.  The store is not
    touched. *)
Definition send_invitation_email (invitation : ProjectInvitation)
    : View unit :=
  ret tt.

(** The [for email in emails] loop of [invite_members]. *)
Fixpoint create_invitations (now : datetime) (project : Project)
    (invited_by : User) (role message : string) (emails : list string)
    : View (list ProjectInvitation) :=
  match emails with
  | [] => ret []
  | email :: rest =>
      let* invitation :=
        Models.invitation_create now (project_id project)
          (user_id invited_by) (lower email) role message in
      let* _ := send_invitation_email invitation in
      let* others :=
        create_invitations now project invited_by role message rest in
      ret (invitation :: others)
  end.

(** [invite_members]: POST /projects/{pk}/invite-members/ *)
Definition invite_members (now : datetime) (user : User)
    (query : QueryParams) (pk : UUID)
    (data : InviteMembersSerializer.InviteMembersData) : View Response :=
  let* project :=
    get_object (request_for POST user query) act_invite_members pk in
  let* validated_data := InviteMembersSerializer.is_valid project data in
  let '(emails, role, message) := validated_data in
  let* invitations :=
    create_invitations now project user role message emails in
  ret (api_success HTTP_201_CREATED
         ("Successfully invited " ++ pretty (length invitations)
          ++ " member(s)")).

(** [accept_invitation]: POST /projects/accept-invitation/.  The acting
    user is [request.user]; the handler does not read it. *)
Definition accept_invitation (now : datetime) (user : User)
    (token : UUID) : View Response :=
  let* token := AcceptInvitationSerializer.validate_token now token in
  let* found := read (λ db,
    objects_get (λ i, inv_token i =? token)%N (invitations db)) in
  match found with
  | DoesNotExist => stop (server_error ObjectDoesNotExist)
  | Multiple => stop (server_error MultipleObjectsReturned)
  | Found invitation =>
      let* invited := read (λ db,
        objects_first
          (λ u, text_eq (collation db) (user_email u)
                        (inv_email invitation))
          (users db)) in
      match invited with
      | None =>
          ret (api_error HTTP_400_BAD_REQUEST
                 "No user account found with this email. Please register first."
                 None)
      | Some invited_user =>
          let* project := read (λ db,
            objects_first (λ p, project_id p =? inv_project invitation)%N
                          (projects db)) in
          match project with
          | None => stop (server_error ObjectDoesNotExist)
          | Some project =>
              let* existing_member := read (λ db,
                objects_first
                  (Permissions.active_membership project invited_user)
                  (project_members db)) in
              match existing_member with
              | Some _ =>
                  let* _ :=
                    Models.save (Models.with_status ACCEPTED invitation) in
                  ret (api_success HTTP_200_OK
                         "You are already a member of this project.")
              | None =>
                  let* _ :=
                    Models.member_create (project_id project)
                      (user_id invited_user) (inv_role invitation) true in
                  let* _ :=
                    Models.save
                      (Models.with_accepted_at now
                         (Models.with_status ACCEPTED invitation)) in
                  ret (api_success HTTP_200_OK
                         ("Successfully joined " ++ project_name project
                          ++ " as " ++ inv_role invitation))
              end
          end
      end
  end.

(** [reject_invitation]: POST /projects/reject-invitation/ *)
Definition reject_invitation (now : datetime) (user : User)
    (token : UUID) : View Response :=
  let* token := AcceptInvitationSerializer.validate_token now token in
  let* found := read (λ db,
    objects_get (λ i, inv_token i =? token)%N (invitations db)) in
  match found with
  | DoesNotExist => stop (server_error ObjectDoesNotExist)
  | Multiple => stop (server_error MultipleObjectsReturned)
  | Found invitation =>
      let* _ := Models.save (Models.with_status REJECTED invitation) in
      ret (api_success HTTP_200_OK "Invitation rejected")
  end.

(** The lookup shared by the per-invitation actions. *)
Definition invitation_of (project : Project) (invitation_id : UUID)
    (pending_only : bool) (i : ProjectInvitation) : bool :=
  (inv_id i =? invitation_id)%N
  && (inv_project i =? project_id project)%N
  && (negb pending_only || bool_decide (inv_status i = PENDING)).

(** [resend_invitation]:
    POST /projects/{pk}/invitations/{invitation_id}/resend/ *)
Definition resend_invitation (now : datetime) (user : User)
    (query : QueryParams) (pk invitation_id : UUID) : View Response :=
  let* project :=
    get_object (request_for POST user query) act_resend_invitation pk in
  let* found := read (λ db,
    objects_get (invitation_of project invitation_id true)
                (invitations db)) in
  match found with
  | Found invitation =>
      let* invitation :=
        if Models.is_expired now invitation
        then
          let renewed :=
            Models.with_expires_at (now + Models.seven_days) invitation in
          let* _ := Models.save renewed in
          ret renewed
        else ret invitation in
      let* _ := send_invitation_email invitation in
      ret (api_success HTTP_200_OK "Invitation resent successfully")
  | DoesNotExist =>
      ret (api_error HTTP_404_NOT_FOUND
             "Invitation not found or already accepted"
             (Some "invitation_not_found"))
  | Multiple => stop (server_error MultipleObjectsReturned)
  end.

(** [delete_invitation]:
    DELETE /projects/{pk}/invitations/{invitation_id}/ *)
Definition delete_invitation (user : User) (query : QueryParams)
    (pk invitation_id : UUID) : View Response :=
  let* project :=
    get_object (request_for DELETE user query) act_delete_invitation pk in
  let* found := read (λ db,
    objects_get (invitation_of project invitation_id false)
                (invitations db)) in
  match found with
  | Found invitation =>
      let* _ := Models.invitation_delete invitation in
      ret (api_success HTTP_204_NO_CONTENT
             "Invitation deleted successfully")
  | DoesNotExist =>
      ret (api_error HTTP_404_NOT_FOUND "Invitation not found"
             (Some "invitation_not_found"))
  | Multiple => stop (server_error MultipleObjectsReturned)
  end.

(** [update_invitation]:
    PATCH /projects/{pk}/invitations/{invitation_id}/ with the [role] and
    [message] keys the body carries. *)
Definition update_invitation (user : User) (query : QueryParams)
    (pk invitation_id : UUID) (role message : option string)
    : View Response :=
  let* project :=
    get_object (request_for PATCH user query) act_update_invitation pk in
  let* found := read (λ db,
    objects_get (invitation_of project invitation_id true)
                (invitations db)) in
  match found with
  | Found invitation =>
      let* _ :=
        Models.save (Models.with_role_message role message invitation) in
      ret (api_success HTTP_200_OK "Invitation updated successfully")
  | DoesNotExist =>
      ret (api_error HTTP_404_NOT_FOUND
             "Invitation not found or already accepted"
             (Some "invitation_not_found"))
  | Multiple => stop (server_error MultipleObjectsReturned)
  end.

(** *** Requests that change the store

    The requests are taken after routing and field conversion: the ids of
    the path and of the body are well-formed UUIDs, and [role] and
    [message] are texts where the body carries them.  A malformed member or
    invitation id, or a null role, raises past the [except] clauses of the
    handlers; such requests are not among the calls. *)

Inductive Call :=
| CreateProject (user : User) (data : ProjectCreateSerializer.ProjectData)
| DestroyProject (user : User) (query : QueryParams) (pk : UUID)
| AddMember (user : User) (query : QueryParams) (pk user_id' : UUID)
    (role : option string)
| RemoveMember (user : User) (query : QueryParams) (pk member_id : UUID)
| InviteMembers (now : datetime) (user : User) (query : QueryParams)
    (pk : UUID) (data : InviteMembersSerializer.InviteMembersData)
| AcceptInvitation (now : datetime) (user : User) (token : UUID)
| RejectInvitation (now : datetime) (user : User) (token : UUID)
| ResendInvitation (now : datetime) (user : User) (query : QueryParams)
    (pk invitation_id : UUID)
| DeleteInvitation (user : User) (query : QueryParams)
    (pk invitation_id : UUID)
| UpdateInvitation (user : User) (query : QueryParams)
    (pk invitation_id : UUID) (role message : option string).

Definition view_of (c : Call) : View Response :=
  match c with
  | CreateProject user data => create user data
  | DestroyProject user query pk => destroy user query pk
  | AddMember user query pk uid role => add_member user query pk uid role
  | RemoveMember user query pk mid => remove_member user query pk mid
  | InviteMembers now user query pk data =>
      invite_members now user query pk data
  | AcceptInvitation now user token => accept_invitation now user token
  | RejectInvitation now user token => reject_invitation now user token
  | ResendInvitation now user query pk iid =>
      resend_invitation now user query pk iid
  | DeleteInvitation user query pk iid => delete_invitation user query pk iid
  | UpdateInvitation user query pk iid role message =>
      update_invitation user query pk iid role message
  end.

(** One request: the store afterwards and the response sent. *)
Definition handle (c : Call) (db : DB) : DB * Response :=
  respond (view_of c) db.

(** A sequence of requests, served one after the other. *)
Definition serve (calls : list Call) (db : DB) : DB :=
  fold_left (λ db c, fst (handle c db)) calls db.

End ProjectViewSet.

(** ** The read-only actions of ProjectViewSet (apps/projects/views.py) *)

Module ProjectReads.

(** [order_by('-created_at')]: newest first.  Rows created at the same
    instant come in an order the store chooses; here in the order the sort
    leaves them. *)
Definition newest_first (a b : ProjectInvitation) : Prop :=
  inv_created_at b ≤ inv_created_at a.

#[global] Instance newest_first_dec : RelDecision newest_first.
Proof. intros a b. unfold newest_first. apply _. Defined.

#[global] Instance newest_first_total : Total newest_first.
Proof. intros a b. unfold newest_first. lia. Qed.

#[global] Instance newest_first_trans : Transitive newest_first.
Proof. intros a b c. unfold newest_first. lia. Qed.

Definition order_by_created_at_desc (rows : list ProjectInvitation)
    : list ProjectInvitation :=
  merge_sort newest_first rows.

(** [list_invitations]: GET /projects/{pk}/invitations/.  The [status]
    parameter it reads is the one [get_queryset] reads. *)
Definition list_invitations (user : User) (query : QueryParams) (pk : UUID)
    : View (Response * list ProjectInvitation) :=
  let* project :=
    ProjectViewSet.get_object (ProjectViewSet.request_for GET user query)
      act_list_invitations pk in
  let invitation_status := qp_status query in
  let* invitations := read (λ db,
    let invitations :=
      List.filter (λ i, inv_project i =? project_id project)%N
                  (invitations db) in
    let invitations :=
      match invitation_status with
      | Some (String _ _ as invitation_status) =>
          List.filter
            (λ i, text_eq (collation db) (status_name (inv_status i))
                          (upper invitation_status))
            invitations
      | _ => invitations
      end in
    order_by_created_at_desc invitations) in
  ret (api_success HTTP_200_OK ("Invitations for " ++ project_name project),
       invitations).

End ProjectReads.

(** ** The stand-alone invitation model and view set
    (apps/projects/invitation_models.py, invitation_views.py)

    A second [ProjectInvitation] class for the project_invitations table,
    with its own view set.  ProjectViewSet does not use it. *)

Module InvitationModels.

(** ProjectInvitation.is_expired *)
Definition is_expired (now : datetime) (self : ProjectInvitation) : bool :=
  (now >? inv_expires_at self) && bool_decide (inv_status self = PENDING).

(** [self.save()] of a loaded row.  [unique_together = [['project',
    'email', 'status']]] makes the update fail when another row holds the
    same project, email and status. *)
Definition save (self : ProjectInvitation) : View unit :=
  let* taken := read (λ db,
    existsb (λ r, negb (inv_id r =? inv_id self)%N
                  && (inv_project r =? inv_project self)%N
                  && text_eq (collation db) (inv_email r) (inv_email self)
                  && bool_decide (inv_status r = inv_status self))
            (invitations db)) in
  if taken : bool then stop (server_error IntegrityError)
  else Models.save self.

(** ProjectInvitation.accept *)
Definition accept (now : datetime) (self : ProjectInvitation)
    (user : User) : View bool :=
  if is_expired now self
  then
    let* _ := save (Models.with_status EXPIRED self) in
    ret false
  else
    let* _ :=
      save (Models.with_accepted_at now (Models.with_status ACCEPTED self)) in
    ret true.

End InvitationModels.

Module ProjectInvitationViewSet.

(** [accept_invitation].  The token is a text column there, matched as the
    same identifier. *)
Definition accept_invitation (now : datetime) (user : User)
    (token : UUID) : View Response :=
  let* found := read (λ db,
    objects_get (λ i, inv_token i =? token)%N (invitations db)) in
  match found with
  | DoesNotExist =>
      ret (api_error HTTP_404_NOT_FOUND "Invalid invitation token" None)
  | Multiple => stop (server_error MultipleObjectsReturned)
  | Found invitation =>
      if bool_decide (lower (inv_email invitation) ≠ lower (user_email user))
      then ret (api_error HTTP_403_FORBIDDEN
                  "This invitation is not for you" None)
      else
        let* accepted := InvitationModels.accept now invitation user in
        if accepted : bool
        then ret (api_success HTTP_200_OK "Invitation accepted successfully")
        else ret (api_error HTTP_400_BAD_REQUEST
                    "Invitation has expired" None)
  end.

End ProjectInvitationViewSet.

(** ** Audit recorder (apps/audit/models.py, apps/audit/signals.py) *)

Module Audit.

(** The model classes that send [post_save]. *)
Inductive Model :=
| UserModel | DepartmentModel | ProjectModel | ProjectMemberModel
| TaskModel | TimesheetModel | TimesheetApprovalModel
| OtherModel (name : string).

#[global] Instance Model_eq_dec : EqDecision Model.
Proof. solve_decision. Defined.

Definition AUDITED_MODELS : list Model :=
  [UserModel; DepartmentModel; ProjectModel; ProjectMemberModel;
   TaskModel; TimesheetModel; TimesheetApprovalModel].

Definition class_name (m : Model) : string :=
  match m with
  | UserModel => "User"
  | DepartmentModel => "Department"
  | ProjectModel => "Project"
  | ProjectMemberModel => "ProjectMember"
  | TaskModel => "Task"
  | TimesheetModel => "Timesheet"
  | TimesheetApprovalModel => "TimesheetApproval"
  | OtherModel name => name
  end.

(** Field values, as far as the recorder looks at them: through [==] and
    [str()].  [VDecimal d p] is the Decimal with coefficient [d] and
    exponent [-p], the number d * 10^-p; [VObject c k s] is an object of
    another class (a related row, a UUID, a date), with the name [c] of its
    class, the key [k] that [==] compares within the class (the primary
    key, the value) and its [str()].  Signed zeros, NaN and infinities are
    left out. *)
Inductive Value :=
| VNone
| VBool (b : bool)
| VInt (z : Z)
| VDecimal (digits : Z) (places : nat)
| VStr (s : string)
| VObject (class_name key text : string).

#[global] Instance Value_eq_dec : EqDecision Value.
Proof. solve_decision. Defined.

(** The number that a bool, an int or a Decimal stands for, as a
    coefficient and a count of decimal places. *)
Definition number (v : Value) : option (Z * nat) :=
  match v with
  | VBool b => Some (if b then 1 else 0, O)
  | VInt z => Some (z, O)
  | VDecimal d p => Some (d, p)
  | _ => None
  end.

(** Python's [==]: numbers are compared by value across bool, int and
    Decimal, texts by their characters, objects of a class by their key;
    [None] equals itself only. *)
Definition py_eq (a b : Value) : bool :=
  match number a, number b with
  | Some (x, p), Some (y, q) => x * 10 ^ Z.of_nat q =? y * 10 ^ Z.of_nat p
  | None, None =>
      match a, b with
      | VNone, VNone => true
      | VStr s, VStr t => bool_decide (s = t)
      | VObject c k _, VObject c' k' _ => bool_decide (c = c' ∧ k = k')
      | _, _ => false
      end
  | _, _ => false
  end.

Fixpoint zeros (n : nat) : string :=
  match n with
  | O => EmptyString
  | S n' => String "0" (zeros n')
  end.

(** [Decimal.__str__]: plain notation while the exponent is at most 0 and
    more than six digits do not lie behind the point before the first
    digit of the coefficient; scientific notation otherwise. *)
Definition decimal_str (d : Z) (places : nat) : string :=
  let sign := if d <? 0 then "-" else EmptyString in
  let int_ := pretty (Z.abs d) in
  let leftdigits := Z.of_nat (String.length int_) - Z.of_nat places in
  if -6 <? leftdigits
  then
    if leftdigits <=? 0
    then sign ++ "0." ++ zeros (Z.to_nat (- leftdigits)) ++ int_
    else if Z.of_nat (String.length int_) <=? leftdigits
    then sign ++ int_
    else sign ++ substring 0 (Z.to_nat leftdigits) int_ ++ "."
         ++ substring (Z.to_nat leftdigits) places int_
  else
    let mantissa :=
      match int_ with
      | String c (String _ _ as rest) => String c ("." ++ rest)
      | _ => int_
      end in
    sign ++ mantissa ++ "E" ++ pretty (leftdigits - 1).

Definition str (v : Value) : string :=
  match v with
  | VNone => "None"
  | VBool true => "True"
  | VBool false => "False"
  | VInt z => pretty z
  | VDecimal d p => decimal_str d p
  | VStr s => s
  | VObject _ _ text => text
  end.

(** [request.META] as far as [AuditLog.log] reads it. *)
Record Meta := {
  HTTP_X_FORWARDED_FOR : option string;
  REMOTE_ADDR : option string;
  HTTP_USER_AGENT : option string;
}.

(** A model instance: its class, primary key, the values of
    [_meta.fields] in order, its [str()], and the attributes the
    middleware may have attached. *)
Record Instance := {
  class : Model;
  pk : option string;
  fields : list (string * Value);
  repr : string;
  current_user : option UUID;
  current_request : option Meta;
}.

(** An entry of the [changes] dict: a marker text, or the old and new
    text of a field. *)
Inductive Change :=
| Marker (s : string)
| Diff (old new : string).

#[global] Instance Change_eq_dec : EqDecision Change.
Proof. solve_decision. Defined.

Inductive AuditAction := CREATE | UPDATE | DELETE_ | LOGIN | LOGOUT.

Record AuditLog := {
  log_user : option UUID;
  log_action : AuditAction;
  log_model_name : string;
  log_object_id : string;
  log_object_repr : string;
  log_changes : gmap string Change;
  log_ip_address : option string;
  log_user_agent : string;
}.

(** [{'action': 'created'}] *)
Definition created_marker : gmap string Change :=
  {[ "action" := Marker "created" ]}.

(** [getattr(instance, field_name)] *)
Definition getattr (i : Instance) (field_name : string) : Value :=
  match List.find (λ f, bool_decide (fst f = field_name)) (fields i) with
  | Some f => snd f
  | None => VNone
  end.

(** The rows of the audited tables, as [objects.get(pk=...)] sees them. *)
Definition stored_row (stored : list Instance) (i : Instance)
    : option Instance :=
  List.find (λ r, bool_decide (class r = class i ∧ pk r = pk i)) stored.

Definition get_model_changes (stored : list Instance) (instance : Instance)
    : gmap string Change :=
  match pk instance with
  | None | Some EmptyString => created_marker
  | Some _ =>
      match stored_row stored instance with
      | Some old_instance =>
          fold_left
            (λ changes f,
               let field_name := fst f in
               let old_value := getattr old_instance field_name in
               let new_value := getattr instance field_name in
               if negb (py_eq old_value new_value)
               then <[field_name := Diff (str old_value) (str new_value)]>
                      changes
               else changes)
            (fields instance) ∅
      | None => created_marker
      end
  end.

(** [x_forwarded_for.split(',')[0]] *)
Fixpoint first_piece (s : string) : string :=
  match s with
  | EmptyString => EmptyString
  | String c rest =>
      if bool_decide (c = ","%char) then EmptyString
      else String c (first_piece rest)
  end.

(** [AuditLog.log]: appends one row. *)
Definition log (user : option UUID) (action : AuditAction)
    (obj : Instance) (changes : gmap string Change)
    (request : option Meta) (logs : list AuditLog) : list AuditLog :=
  let ip_address :=
    match request with
    | Some meta =>
        match HTTP_X_FORWARDED_FOR meta with
        | Some (String _ _ as x_forwarded_for) =>
            Some (first_piece x_forwarded_for)
        | _ => REMOTE_ADDR meta
        end
    | None => None
    end in
  let user_agent :=
    match request with
    | Some meta => default EmptyString (HTTP_USER_AGENT meta)
    | None => EmptyString
    end in
  logs ++ [{| log_user := user; log_action := action;
              log_model_name := class_name (class obj);
              log_object_id := default "None" (pk obj);
              log_object_repr := repr obj;
              log_changes := changes;
              log_ip_address := ip_address;
              log_user_agent := user_agent |}].

(** The [post_save] receiver. *)
Definition log_model_save (stored : list Instance) (sender : Model)
    (instance : Instance) (created : bool) (logs : list AuditLog)
    : list AuditLog :=
  if bool_decide (sender ∉ AUDITED_MODELS) then logs
  else
    let user := current_user instance in
    let action := if created then CREATE else UPDATE in
    let changes :=
      if created then created_marker
      else get_model_changes stored instance in
    if bool_decide (changes ≠ ∅) && bool_decide (changes ≠ created_marker)
    then log user action instance changes (current_request instance) logs
    else logs.

(** The [post_delete] receiver. *)
Definition log_model_delete (sender : Model) (instance : Instance)
    (logs : list AuditLog) : list AuditLog :=
  if bool_decide (sender ∉ AUDITED_MODELS) then logs
  else
    log (current_user instance) DELETE_ instance
        {[ "action" := Marker "deleted" ]}
        (current_request instance) logs.

End Audit.

(** ** A small deployment used in the examples below *)

Module Scenario.

Definition alice : User :=
  {| user_id := 1; user_email := "a@x.com"; user_role := EMPLOYEE |}.
Definition bob : User :=
  {| user_id := 2; user_email := "b@x.com"; user_role := EMPLOYEE |}.
Definition root : User :=
  {| user_id := 3; user_email := "root@x.com"; user_role := ADMIN |}.
Definition carol : User :=
  {| user_id := 4; user_email := "c@x.com"; user_role := EMPLOYEE |}.

(** Project X, created and managed by alice. *)
Definition project_x : Project :=
  {| project_id := 10; project_name := "Project X"; project_code := "PX";
     project_department := 7; project_manager := Some 1%N;
     project_start_date := 100; project_end_date := 200;
     project_status := "ACTIVE"; project_is_active := true |}.

(** Project Y, led by alice; carol holds the manager column without a
    membership row. *)
Definition project_y : Project :=
  {| project_id := 11; project_name := "Project Y"; project_code := "PY";
     project_department := 7; project_manager := Some 4%N;
     project_start_date := 100; project_end_date := 200;
     project_status := "PLANNING"; project_is_active := true |}.

Definition alice_leads_x : ProjectMember :=
  {| pm_id := 20; pm_project := 10; pm_user := 1;
     pm_role := "LEAD"; pm_is_active := true |}.

(** bob's membership of X has been switched off. *)
Definition bob_left_x : ProjectMember :=
  {| pm_id := 21; pm_project := 10; pm_user := 2;
     pm_role := "DEVELOPER"; pm_is_active := false |}.

Definition alice_leads_y : ProjectMember :=
  {| pm_id := 22; pm_project := 11; pm_user := 1;
     pm_role := "LEAD"; pm_is_active := true |}.

Definition task_in_x : Task :=
  {| task_id := 30; task_project := 10; task_assigned_to := Some 1%N |}.

Definition db0 : DB :=
  {| collation := CaseSensitive;
     users := [alice; bob; root; carol];
     projects := [project_x; project_y];
     project_members := [alice_leads_x; bob_left_x; alice_leads_y];
     invitations := [];
     tasks := [task_in_x];
     uuid_supply := 100 |}.

(** An invitation of bob to project Y, sent at time 1000. *)
Definition invite_bob (st : InvitationStatus) : ProjectInvitation :=
  {| inv_id := 40; inv_project := 11; inv_invited_by := 1;
     inv_email := "b@x.com"; inv_role := "DEVELOPER"; inv_token := 41;
     inv_status := st; inv_message := EmptyString;
     inv_created_at := 1000;
     inv_expires_at := 1000 + Models.seven_days;
     inv_accepted_at := None |}.

Definition db_invited (st : InvitationStatus) : DB :=
  set_invitations [invite_bob st] db0.

(** The same rows on a store whose collation ignores case. *)
Definition ignoring_case (db : DB) : DB :=
  {| collation := CaseInsensitive;
     users := users db; projects := projects db;
     project_members := project_members db;
     invitations := invitations db; tasks := tasks db;
     uuid_supply := uuid_supply db |}.

(** A time after the invitation has run out. *)
Definition later : datetime := 1000 + Models.seven_days + 1.

Definition project_instance : Audit.Instance :=
  {| Audit.class := Audit.ProjectModel;
     Audit.pk := Some "10";
     Audit.fields := [("id", Audit.VStr "10");
                      ("name", Audit.VStr "Project X");
                      ("is_active", Audit.VBool true)];
     Audit.repr := "PX - Project X";
     Audit.current_user := Some 1%N;
     Audit.current_request := None |}.

End Scenario.

(** ** Further examples *)

Module Examples.

(** Project X under a new name, as it is being saved. *)
Definition renamed_project : Audit.Instance :=
  {| Audit.class := Audit.ProjectModel;
     Audit.pk := Some "10";
     Audit.fields := [("id", Audit.VStr "10");
                      ("name", Audit.VStr "Project Z");
                      ("is_active", Audit.VBool true)];
     Audit.repr := "PX - Project Z";
     Audit.current_user := Some 1%N;
     Audit.current_request := None |}.

(** bob is invited to project X, where his membership is switched off. *)
Definition invite_bob_again : ProjectInvitation :=
  {| inv_id := 50; inv_project := 10; inv_invited_by := 1;
     inv_email := "b@x.com"; inv_role := "TESTER"; inv_token := 51;
     inv_status := PENDING; inv_message := EmptyString;
     inv_created_at := 1000; inv_expires_at := 5000;
     inv_accepted_at := None |}.

Definition db_invited_again : DB :=
  set_invitations [invite_bob_again] Scenario.db0.

(** The body of a create request for a project of two days. *)
Definition new_project (name : string) (code : option string)
    : ProjectCreateSerializer.ProjectData :=
  {| ProjectCreateSerializer.data_name := name;
     ProjectCreateSerializer.data_code := code;
     ProjectCreateSerializer.data_department := 7;
     ProjectCreateSerializer.data_manager := None;
     ProjectCreateSerializer.data_start_date := 1;
     ProjectCreateSerializer.data_end_date := 2;
     ProjectCreateSerializer.data_status := None;
     ProjectCreateSerializer.data_is_active := None |}.

End Examples.

(** ** Predicates on the membership registry, used to state the properties *)

Module Membership.

Definition is_manager (u : User) (P : Project) : Prop :=
  project_manager P = Some (user_id u).

(** Some row of the project_members table links [u] to [P]. *)
Definition member_row (db : DB) (u : User) (P : Project)
    (m : ProjectMember) : Prop :=
  m ∈ project_members db
  ∧ pm_project m = project_id P ∧ pm_user m = user_id u.

Definition has_row (db : DB) (u : User) (P : Project) : Prop :=
  ∃ m, member_row db u P m.

Definition active_member (db : DB) (u : User) (P : Project) : Prop :=
  ∃ m, member_row db u P m ∧ pm_is_active m = true.

(** [unique_together = ('project', 'user')] on project_members. *)
Definition members_unique (db : DB) : Prop :=
  NoDup (map (λ m, (pm_project m, pm_user m)) (project_members db)).

(** The write actions that ProjectPermission reserves for a LEAD. *)
Definition manage_actions : list Action :=
  [act_update; act_partial_update; act_destroy; act_add_member;
   act_remove_member; act_invite_members; act_resend_invitation;
   act_delete_invitation; act_update_invitation].

End Membership.

(** ** Predicates on projects *)

Module Projects.

(** Every stored project id was drawn from the uuid4 supply. *)
Definition ids_issued (db : DB) : Prop :=
  ∀ p, p ∈ projects db → (project_id p < uuid_supply db)%N.

(** The foreign key of project_members.project. *)
Definition members_reference_projects (db : DB) : Prop :=
  ∀ m, m ∈ project_members db →
       ∃ p, p ∈ projects db ∧ project_id p = pm_project m.

(** The membership rows of a project. *)
Definition rows_of (db : DB) (project : UUID) : list ProjectMember :=
  List.filter (λ m, pm_project m =? project)%N (project_members db).

(** Those with role LEAD. *)
Definition leads_of (db : DB) (project : UUID) : list ProjectMember :=
  List.filter (λ m, bool_decide (pm_role m = "LEAD")) (rows_of db project).

(** The code the generation loop holds in its [j]-th round: the base code,
    then the base code followed by 1, 2, ... *)
Definition candidate (base : string) (j : nat) : string :=
  match j with
  | O => base
  | S _ => base ++ pretty j
  end.

End Projects.

(** ** Predicates on the invitation table *)

Module Workflow.

(** ACCEPTED, REJECTED and EXPIRED end an invitation's life. *)
Definition terminal (st : InvitationStatus) : Prop :=
  st = ACCEPTED ∨ st = REJECTED ∨ st = EXPIRED.

(** [unique=True] on the token column. *)
Definition tokens_unique (db : DB) : Prop :=
  NoDup (map inv_token (invitations db)).

(** The primary key of the invitation table. *)
Definition ids_unique (db : DB) : Prop :=
  NoDup (map inv_id (invitations db)).

(** Every stored invitation id was drawn from the uuid4 supply. *)
Definition ids_issued (db : DB) : Prop :=
  ∀ i, i ∈ invitations db → (inv_id i < uuid_supply db)%N.

(** The PENDING invitations of an email address to a project. *)
Definition pending_for (db : DB) (project : UUID) (email : string)
    : list ProjectInvitation :=
  List.filter (λ i, (inv_project i =? project)%N
                    && bool_decide (inv_email i = email)
                    && bool_decide (inv_status i = PENDING))
              (invitations db).

(** Every stored invitation token was drawn from the uuid4 supply. *)
Definition tokens_issued (db : DB) : Prop :=
  ∀ i, i ∈ invitations db → (inv_token i < uuid_supply db)%N.

(** How the invitation table may differ between two stores: a row of the
    later store either was created in between, or continues a row of the
    earlier store that was PENDING or had the same status. *)
Definition evolves (db db' : DB) : Prop :=
  (uuid_supply db ≤ uuid_supply db')%N
  ∧ ∀ i', i' ∈ invitations db' →
      (uuid_supply db ≤ inv_id i')%N
      ∨ ∃ i, i ∈ invitations db ∧ inv_id i = inv_id i'
             ∧ (inv_status i = PENDING ∨ inv_status i' = inv_status i).

End Workflow.

(** ** Consistency of the store *)

Module Consistency.

(** What the constraints of the tables and the uniqueness of uuid4 values
    guarantee of a store. *)
Record consistent (db : DB) : Prop := {
  members_unique : Membership.members_unique db;
  project_ids_issued : Projects.ids_issued db;
  members_reference_projects : Projects.members_reference_projects db;
  invitation_ids_unique : Workflow.ids_unique db;
  invitation_ids_issued : Workflow.ids_issued db;
  tokens_unique : Workflow.tokens_unique db;
  tokens_issued : Workflow.tokens_issued db;
}.

(** The store of a fresh deployment. *)
Definition empty_store (c : Collation) : DB :=
  {| collation := c; users := []; projects := []; project_members := [];
     invitations := []; tasks := []; uuid_supply := 0 |}.

End Consistency.

(** The store after [ProjectMember.objects.create] has appended a row. *)
Definition with_member (db : DB) (m : ProjectMember) : DB :=
  {| collation := collation db; users := users db;
     projects := projects db;
     project_members := (project_members db ++ [m])%list;
     invitations := invitations db; tasks := tasks db;
     uuid_supply := N.succ (uuid_supply db) |}.

(** ** Further invariants of the store *)

Module Invariants.

(** Project codes are stored in upper case. *)
Definition codes_upper (db : DB) : Prop :=
  ∀ p, p ∈ projects db → upper (project_code p) = project_code p.

(** [unique=True] on projects.code *)
Definition codes_unique (db : DB) : Prop :=
  NoDup (map project_code (projects db)).

(** Every stored membership id was drawn from the uuid4 supply. *)
Definition member_ids_issued (db : DB) : Prop :=
  ∀ m, m ∈ project_members db → (pm_id m < uuid_supply db)%N.

(** How the members table may differ between two stores: a row of the
    later store either is a row of the earlier one, or was created in
    between, and then is active. *)
Definition memberships_grow (db db' : DB) : Prop :=
  (uuid_supply db ≤ uuid_supply db')%N
  ∧ ∀ m', m' ∈ project_members db' →
      m' ∈ project_members db
      ∨ (pm_is_active m' = true ∧ (uuid_supply db ≤ pm_id m')%N).

End Invariants.

(** ** Proof steps for view handlers *)

(** Unfolds a handler down to the table operations. *)
Ltac run_view :=
  cbv beta iota zeta delta
    [ProjectViewSet.handle ProjectViewSet.view_of respond
     bind read write ret stop uuid4
     ProjectViewSet.create ProjectViewSet.destroy
     ProjectViewSet.add_member ProjectViewSet.remove_member
     ProjectViewSet.invite_members ProjectViewSet.accept_invitation
     ProjectViewSet.reject_invitation ProjectViewSet.resend_invitation
     ProjectViewSet.delete_invitation ProjectViewSet.update_invitation
     ProjectViewSet.get_object ProjectViewSet.send_invitation_email
     AcceptInvitationSerializer.validate_token
     ProjectCreateSerializer.is_valid ProjectCreateSerializer.validate_code
     ProjectCreateSerializer.validate ProjectCreateSerializer.create
     AddProjectMemberSerializer.validate_user_id role_field
     InviteMembersSerializer.is_valid InviteMembersSerializer.validate_emails
     InviteMembersSerializer.validate
     Models.save Models.member_create Models.member_delete
     Models.invitation_delete Models.project_delete].

(** Case analysis on a scrutinee that holds no further case analysis. *)
Ltac case_inner :=
  match goal with
  | |- context [match ?x with _ => _ end] =>
      lazymatch x with
      | context [match _ with _ => _ end] => fail
      | _ => destruct x eqn:?
      end
  end.

Ltac run_cases := repeat (case_inner; cbv beta iota zeta; simplify_eq).

(** * Properties *)

(** ** Lookups *)

Section Lookups.
Context {A : Type}.
Implicit Types (cond : A → bool) (rows : list A).

Lemma objects_get_found cond rows a :
  objects_get cond rows = Found a → a ∈ rows ∧ cond a = true.
Proof.
  unfold objects_get. intros H.
  destruct (List.filter cond rows) as [|x [|y l]] eqn:E; try discriminate.
  injection H as ->.
  rewrite list_elem_of_In. apply filter_In. rewrite E. by left.
Qed.

Lemma objects_get_none cond rows :
  objects_get cond rows = DoesNotExist ↔ ∀ a, a ∈ rows → cond a = false.
Proof.
  unfold objects_get. split.
  - intros H a Ha.
    destruct (List.filter cond rows) as [|x [|y l]] eqn:E; try discriminate.
    destruct (cond a) eqn:Ca; [|done].
    assert (In a (List.filter cond rows)) as Hin
      by (apply filter_In; split; [by apply list_elem_of_In|done]).
    rewrite E in Hin. destruct Hin.
  - intros H.
    destruct (List.filter cond rows) as [|x l] eqn:E; [done|].
    assert (In x (List.filter cond rows)) as Hin by (rewrite E; by left).
    apply filter_In in Hin as [Hx Hc].
    apply list_elem_of_In in Hx. rewrite (H x Hx) in Hc. discriminate.
Qed.

Lemma objects_exists_spec cond rows :
  objects_exists cond rows = true ↔ ∃ a, a ∈ rows ∧ cond a = true.
Proof.
  unfold objects_exists. rewrite existsb_exists.
  split; intros [a [? ?]]; exists a; split; try done;
    by apply list_elem_of_In.
Qed.

(** A lookup on a key that a uniqueness constraint covers never meets
    two rows. *)
Lemma filter_unique_key {K} (key : A → K) (k : K) cond rows :
  NoDup (map key rows) →
  (∀ a, cond a = true → key a = k) →
  (length (List.filter cond rows) ≤ 1)%nat.
Proof.
  intros Hnd Hk. induction rows as [|a rows IH]; simpl; [lia|].
  apply NoDup_cons in Hnd as [Hna Hnd].
  destruct (cond a) eqn:Ca; [|by apply IH].
  simpl. destruct (List.filter cond rows) as [|b l] eqn:E; [simpl; lia|].
  exfalso. apply Hna.
  assert (In b (List.filter cond rows)) as Hin by (rewrite E; by left).
  apply filter_In in Hin as [Hb Cb].
  rewrite (Hk a Ca), <- (Hk b Cb).
  apply list_elem_of_In. by apply in_map.
Qed.

Lemma objects_get_unique {K} (key : A → K) (k : K) cond rows :
  NoDup (map key rows) →
  (∀ a, cond a = true → key a = k) →
  objects_get cond rows ≠ Multiple.
Proof.
  intros Hnd Hk. pose proof (filter_unique_key key k cond rows Hnd Hk) as H.
  unfold objects_get.
  destruct (List.filter cond rows) as [|x [|y l]]; try done.
  simpl in H. lia.
Qed.

End Lookups.

(** ** The visibility engine *)

Section Visibility.
Import ProjectViewSet.
Import Membership Permissions.
Implicit Types (db : DB) (u : User) (P : Project).

Lemma active_membership_spec P u m :
  active_membership P u m = true ↔
  pm_project m = project_id P ∧ pm_user m = user_id u
  ∧ pm_is_active m = true.
Proof.
  unfold active_membership.
  rewrite !andb_true_iff, !N.eqb_eq. tauto.
Qed.

Lemma active_member_exists db u P :
  objects_exists (active_membership P u) (project_members db) = true
  ↔ active_member db u P.
Proof.
  rewrite objects_exists_spec. unfold active_member, member_row.
  split.
  - intros [m [Hm Hc]]. apply active_membership_spec in Hc. naive_solver.
  - intros [m [[Hm [? ?]] ?]]. exists m. split; [done|].
    by apply active_membership_spec.
Qed.

Lemma active_membership_get_unique db u P :
  members_unique db →
  objects_get (active_membership P u) (project_members db) ≠ Multiple.
Proof.
  intros Hu.
  apply (objects_get_unique (λ m, (pm_project m, pm_user m))
           (project_id P, user_id u)); [done|].
  intros m Hm. apply active_membership_spec in Hm as (-> & -> & _). done.
Qed.

(** What the project listing holds: manager or any membership row, with
    no look at the row's [is_active] flag or at the user's system role. *)
Lemma listVisibleProjects_spec db u P :
  P ∈ listVisibleProjects db u ↔
  P ∈ projects db ∧ (is_manager u P ∨ has_row db u P).
Proof.
  unfold listVisibleProjects, get_queryset. simpl.
  rewrite !list_elem_of_In, filter_In. unfold manager_or_member.
  rewrite orb_true_iff, bool_decide_eq_true, existsb_exists.
  unfold is_manager, has_row, member_row. simpl.
  split; intros [HP H]; (split; [done|]);
    (destruct H as [H|[m H]]; [by left|right; exists m]).
  - rewrite andb_true_iff, !N.eqb_eq in H.
    rewrite list_elem_of_In. tauto.
  - rewrite andb_true_iff, !N.eqb_eq.
    rewrite list_elem_of_In in H. tauto.
Qed.

(** C1 (the listing does not do what the claim says): bob's only link to
    project X is a membership row whose [is_active] flag is off, and he
    does not manage X.  The listing still holds X for him, while the
    per-object checks, which ask for [is_active=True], turn him away. *)
Theorem listing_keeps_inactive_member :
  Scenario.project_x ∈ listVisibleProjects Scenario.db0 Scenario.bob
  ∧ project_manager Scenario.project_x ≠ Some (user_id Scenario.bob)
  ∧ get_user_project_role Scenario.db0 Scenario.bob Scenario.project_x
    = Returns None
  ∧ can_user_access_project Scenario.db0 Scenario.bob Scenario.project_x
    = false.
Proof.
  split; [|split; [|split]]; try reflexivity.
  - apply listVisibleProjects_spec. split.
    + apply list_elem_of_In. simpl. by left.
    + right. exists Scenario.bob_left_x. unfold member_row.
      split; [|done]. apply list_elem_of_In. simpl. tauto.
  - discriminate.
Qed.

(** C2, as stated, fails: root is a system ADMIN who neither manages
    project X nor has a membership row, and may view it; carol manages
    project Y without a membership row, and may not. *)
Lemma canViewProject_counterexample :
  (can_user_access_project Scenario.db0 Scenario.root Scenario.project_x
   = true
   ∧ ¬ (is_manager Scenario.root Scenario.project_x
        ∨ active_member Scenario.db0 Scenario.root Scenario.project_x))
  ∧ (is_manager Scenario.carol Scenario.project_y
     ∧ can_user_access_project Scenario.db0 Scenario.carol Scenario.project_y
       = false).
Proof.
  split; split; try reflexivity.
  intros [Hm|[m [[Hin [_ Hu]] _]]].
  - discriminate Hm.
  - apply list_elem_of_In in Hin. simpl in Hin.
    destruct Hin as [<-|[<-|[<-|[]]]]; discriminate Hu.
Qed.

(** C2 (amended): a system ADMIN and every user with an active membership
    row may view a project, and a user who does not manage the project may
    view it in these two cases only.  The same holds for the object
    permission of a read request, the uniqueness constraint of the members
    table given. *)
Theorem canViewProject_admin_or_active_member db u P :
  members_unique db →
  (user_role u = ADMIN ∨ active_member db u P →
   can_user_access_project db u P = true)
  ∧ (¬ is_manager u P →
     can_user_access_project db u P = true →
     user_role u = ADMIN ∨ active_member db u P)
  ∧ ∀ request action,
      req_user request = u → req_method request ∈ SAFE_METHODS →
      (user_role u = ADMIN ∨ active_member db u P →
       has_object_permission db request action P = Returns true)
      ∧ (¬ is_manager u P →
         has_object_permission db request action P = Returns true →
         user_role u = ADMIN ∨ active_member db u P).
Proof.
  intros Hu.
  assert (can_user_access_project db u P = true
          ↔ user_role u = ADMIN ∨ active_member db u P) as Hview.
  { unfold can_user_access_project. case_bool_decide as Hr.
    + naive_solver.
    + rewrite active_member_exists. naive_solver. }
  split; [apply Hview|]. split; [intros _; apply Hview|].
  intros request action <- Hsafe.
  assert (has_object_permission db request action P = Returns true
          ↔ user_role (req_user request) = ADMIN
            ∨ active_member db (req_user request) P) as Hperm.
  { unfold has_object_permission.
    case_bool_decide as Hr; [naive_solver|].
    pose proof (active_membership_get_unique db (req_user request) P Hu)
      as Hmult.
    destruct (objects_get _ _) as [m| |] eqn:E; [| |done].
    + rewrite bool_decide_eq_true_2 by done.
      apply objects_get_found in E as [Hin Hc].
      apply active_membership_spec in Hc.
      split; [|done]. intros _. right. exists m.
      unfold member_row. naive_solver.
    + split; [discriminate|]. intros [?|[m [[Hin [? ?]] ?]]]; [done|].
      rewrite objects_get_none in E.
      assert (active_membership P (req_user request) m = true) as Hc
        by (by apply active_membership_spec).
      rewrite (E m Hin) in Hc. discriminate. }
  split; [apply Hperm|intros _; apply Hperm].
Qed.

(** alice, an active member of project X, may view it. *)
Lemma canViewProject_witness :
  members_unique Scenario.db0
  ∧ can_user_access_project Scenario.db0 Scenario.alice Scenario.project_x
    = true.
Proof.
  assert (members_unique Scenario.db0) as Hu.
  { apply (bool_decide_unpack _). by vm_compute. }
  split; [exact Hu|].
  apply (proj1 (canViewProject_admin_or_active_member _ _ _ Hu)).
  right. exists Scenario.alice_leads_x. unfold member_row.
  repeat split. apply list_elem_of_In. simpl. tauto.
Defined.

(** C3, as stated, fails: root is a system ADMIN with no role in project
    X, so not its LEAD, and is granted its management. *)
Lemma canManageProject_counterexample :
  can_user_manage_project Scenario.db0 Scenario.root Scenario.project_x
  = Returns true
  ∧ get_user_project_role Scenario.db0 Scenario.root Scenario.project_x
    = Returns None
  ∧ has_object_permission Scenario.db0
      (request_for DELETE Scenario.root no_params) act_destroy
      Scenario.project_x
    = Returns true
  ∧ ¬ (can_user_manage_project Scenario.db0 Scenario.root Scenario.project_x
       = Returns true
       ↔ get_user_project_role Scenario.db0 Scenario.root Scenario.project_x
         = Returns (Some "LEAD")).
Proof.
  repeat split. intros [H _]. discriminate (H eq_refl).
Qed.

(** C3 (amended): a user may manage a project exactly when the user is a
    system ADMIN or the user's active role in the project is LEAD; the
    object permission of a write request on a management action decides
    the same way. *)
Theorem canManageProject_admin_or_lead db u P :
  (can_user_manage_project db u P = Returns true
   ↔ user_role u = ADMIN
     ∨ get_user_project_role db u P = Returns (Some "LEAD"))
  ∧ ∀ request action,
      req_user request = u → req_method request ∉ SAFE_METHODS →
      action ∈ manage_actions →
      (has_object_permission db request action P = Returns true
       ↔ user_role u = ADMIN
         ∨ get_user_project_role db u P = Returns (Some "LEAD")).
Proof.
  split.
  - unfold can_user_manage_project, get_user_project_role.
    case_bool_decide as Hr; [naive_solver|].
    destruct (objects_get _ _) as [m| |]; [|naive_solver..].
    case_bool_decide as Hl; [rewrite Hl|]; naive_solver.
  - intros request action <- Hsafe Hact.
    unfold has_object_permission, get_user_project_role.
    case_bool_decide as Hr; [tauto|].
    destruct (objects_get _ _) as [m| |];
      [|split; [discriminate|]; intros [?|[=]]; done..].
    rewrite bool_decide_eq_false_2 by done.
    unfold manage_actions in Hact.
    rewrite !elem_of_cons, elem_of_nil in Hact.
    assert (Returns (bool_decide (pm_role m = "LEAD")) = Returns true
            ↔ user_role (req_user request) = ADMIN
              ∨ Returns (Some (pm_role m)) = Returns (Some "LEAD")) as Hgoal.
    { case_bool_decide as Hl; [rewrite Hl; tauto|].
      split; [discriminate|]. intros [?|[=]]; done. }
    repeat destruct Hact as [->|Hact]; simpl; rewrite ?orb_false_r;
      try exact Hgoal.
    done.
Qed.

(** alice, the LEAD of project X, may delete it. *)
Lemma canManageProject_witness :
  has_object_permission Scenario.db0
    (request_for DELETE Scenario.alice no_params) act_destroy
    Scenario.project_x = Returns true.
Proof.
  apply (canManageProject_admin_or_lead Scenario.db0 Scenario.alice
           Scenario.project_x).
  - reflexivity.
  - unfold SAFE_METHODS. simpl.
    rewrite !elem_of_cons, elem_of_nil. intros [H|[H|[H|[]]]]; discriminate.
  - unfold manage_actions. rewrite !elem_of_cons. tauto.
  - right. reflexivity.
Defined.

End Visibility.

(** ** The invitation workflow *)

Section Invitations.
Import ProjectViewSet.
Import Workflow.
Implicit Types (db : DB) (inv : ProjectInvitation).

(** A lookup by a unique key finds the row that carries the key. *)
Lemma objects_get_by_key {A K} (key : A → K) (cond : A → bool)
    (rows : list A) (a : A) :
  NoDup (map key rows) → a ∈ rows → cond a = true →
  (∀ r, cond r = true → key r = key a) →
  objects_get cond rows = Found a.
Proof.
  intros Hnd Ha Hc Hk.
  pose proof (filter_unique_key key (key a) cond rows Hnd Hk) as Hlen.
  assert (In a (List.filter cond rows)) as Hin
    by (apply filter_In; split; [by apply list_elem_of_In|done]).
  unfold objects_get.
  destruct (List.filter cond rows) as [|x [|y l]]; simpl in *.
  - destruct Hin.
  - by destruct Hin as [->|[]].
  - lia.
Qed.

Lemma get_by_token db inv :
  tokens_unique db → inv ∈ invitations db →
  objects_get (λ i, inv_token i =? inv_token inv)%N (invitations db)
  = Found inv.
Proof.
  intros Hu Hin. apply (objects_get_by_key inv_token); try done.
  - apply N.eqb_refl.
  - intros r Hr. by apply N.eqb_eq.
Qed.

Lemma save_rows_present self rows inv :
  inv ∈ rows → inv_id inv = inv_id self →
  Models.save_rows self rows
  = map (λ r, if (inv_id r =? inv_id self)%N then self else r) rows.
Proof.
  intros Hin Hid. unfold Models.save_rows.
  replace (existsb _ rows) with true; [done|].
  symmetry. apply existsb_exists. exists inv.
  split; [by apply list_elem_of_In|]. by apply N.eqb_eq.
Qed.

Lemma save_rows_status self rows inv i :
  inv ∈ rows → inv_id inv = inv_id self →
  i ∈ Models.save_rows self rows → inv_id i = inv_id self → i = self.
Proof.
  intros Hin Hid Hi Hi'. rewrite (save_rows_present _ _ inv) in Hi by done.
  apply list_elem_of_In, in_map_iff in Hi as [r [Hr _]].
  destruct (inv_id r =? inv_id self)%N eqn:E; [done|].
  subst i. apply N.eqb_neq in E. done.
Qed.

Lemma save_rows_keeps self rows inv :
  inv ∈ rows → inv_id inv = inv_id self →
  self ∈ Models.save_rows self rows.
Proof.
  intros Hin Hid. rewrite (save_rows_present _ _ inv) by done.
  apply list_elem_of_In, in_map_iff. exists inv.
  split; [|by apply list_elem_of_In].
  by rewrite Hid, N.eqb_refl.
Qed.

(** C4, as stated, fails: the invitation of bob was accepted before it ran
    out.  An accept attempt after its expiry is turned down because the
    invitation is no longer pending; nothing is written, so its status
    stays ACCEPTED. *)
Lemma accept_after_expiry_counterexample :
  Scenario.invite_bob ACCEPTED ∈ invitations (Scenario.db_invited ACCEPTED)
  ∧ inv_expires_at (Scenario.invite_bob ACCEPTED) < Scenario.later
  ∧ handle
      (AcceptInvitation Scenario.later Scenario.alice
         (inv_token (Scenario.invite_bob ACCEPTED)))
      (Scenario.db_invited ACCEPTED)
    = (Scenario.db_invited ACCEPTED,
       validation_error "Invitation is accepted.")
  ∧ ¬ ∃ db',
        handle
          (AcceptInvitation Scenario.later Scenario.alice
             (inv_token (Scenario.invite_bob ACCEPTED)))
          (Scenario.db_invited ACCEPTED)
        = (db', validation_error "Invitation has expired.")
        ∧ ∀ i, i ∈ invitations db' →
               inv_id i = inv_id (Scenario.invite_bob ACCEPTED) →
               inv_status i = EXPIRED.
Proof.
  split; [|split; [|split]].
  - apply list_elem_of_In. simpl. by left.
  - unfold Scenario.later. simpl. lia.
  - reflexivity.
  - intros [db' [H _]]. vm_compute in H. discriminate H.
Qed.

(** C4 (amended): an accept attempt on a PENDING invitation whose expiry
    lies before the current time is answered with the "Invitation has
    expired." error (HTTP 400), leaves the invitation stored with status
    EXPIRED, and adds no membership row. *)
Theorem accept_expired_pending now user db inv :
  tokens_unique db → inv ∈ invitations db →
  inv_status inv = PENDING → inv_expires_at inv < now →
  ∃ db',
    handle (AcceptInvitation now user (inv_token inv)) db
    = (db', validation_error "Invitation has expired.")
    ∧ Models.with_status EXPIRED inv ∈ invitations db'
    ∧ (∀ i, i ∈ invitations db' → inv_id i = inv_id inv →
            inv_status i = EXPIRED)
    ∧ project_members db' = project_members db.
Proof.
  intros Hu Hin Hst Hexp.
  exists (set_invitations
            (Models.save_rows (Models.with_status EXPIRED inv)
                              (invitations db)) db).
  assert (Models.is_expired now inv = true) as He
    by (unfold Models.is_expired; apply Z.gtb_lt; lia).
  repeat split.
  - unfold handle, respond, view_of, accept_invitation,
      AcceptInvitationSerializer.validate_token, bind, read.
    rewrite (get_by_token db inv Hu Hin).
    rewrite bool_decide_eq_false_2 by (rewrite Hst; intros ?; done).
    rewrite He. reflexivity.
  - simpl. by apply (save_rows_keeps _ _ inv).
  - simpl. intros i Hi Hid.
    by rewrite (save_rows_status (Models.with_status EXPIRED inv) _ inv i
                  Hin eq_refl Hi Hid).
Qed.

(** bob's pending invitation, presented after it has run out. *)
Lemma accept_expired_pending_witness :
  ∃ db',
    handle
      (AcceptInvitation Scenario.later Scenario.alice
         (inv_token (Scenario.invite_bob PENDING)))
      (Scenario.db_invited PENDING)
    = (db', validation_error "Invitation has expired.")
    ∧ project_members db' = project_members (Scenario.db_invited PENDING).
Proof.
  destruct (accept_expired_pending Scenario.later Scenario.alice
              (Scenario.db_invited PENDING) (Scenario.invite_bob PENDING))
    as [db' (H1 & _ & _ & H2)].
  - apply (bool_decide_unpack _). by vm_compute.
  - apply list_elem_of_In. simpl. by left.
  - reflexivity.
  - unfold Scenario.later. simpl. lia.
  - exists db'. by split.
Defined.

(** The handler of ProjectViewSet never looks at the acting user. *)
Lemma accept_invitation_any_user now u1 u2 token db :
  handle (AcceptInvitation now u1 token) db
  = handle (AcceptInvitation now u2 token) db.
Proof. reflexivity. Qed.

(** C5 (the handler does not do what the claim says): alice, whose email is
    not the invited one, presents the token of bob's pending invitation.
    The request succeeds, bob is made a member of project Y and the
    invitation is marked ACCEPTED. *)
Theorem accept_with_other_email_succeeds :
  user_email Scenario.alice ≠ inv_email (Scenario.invite_bob PENDING)
  ∧ ∃ db',
      handle (AcceptInvitation 2000 Scenario.alice 41)
                   (Scenario.db_invited PENDING)
      = (db', api_success HTTP_200_OK
                "Successfully joined Project Y as DEVELOPER")
      ∧ project_members db'
        = (project_members (Scenario.db_invited PENDING)
         ++ [{| pm_id := 100; pm_project := 11; pm_user := 2;
                pm_role := "DEVELOPER"; pm_is_active := true |}])%list
      ∧ invitations db'
        = [Models.with_accepted_at 2000
             (Models.with_status ACCEPTED (Scenario.invite_bob PENDING))].
Proof.
  split; [discriminate|].
  eexists. split; [vm_compute; reflexivity|]. split; reflexivity.
Qed.

(** The stand-alone view set does compare the emails: a mismatch is
    answered with 403 and nothing is written. *)
Lemma standalone_accept_checks_email now user token db inv :
  objects_get (λ i, inv_token i =? token)%N (invitations db) = Found inv →
  lower (inv_email inv) ≠ lower (user_email user) →
  respond (ProjectInvitationViewSet.accept_invitation now user token) db
  = (db, api_error HTTP_403_FORBIDDEN "This invitation is not for you" None).
Proof.
  intros Hget Hne.
  unfold respond, ProjectInvitationViewSet.accept_invitation, bind, read.
  rewrite Hget. by rewrite bool_decide_eq_true_2.
Qed.

End Invitations.

(** ** Inviting members *)

Section Inviting.
Import ProjectViewSet InviteMembersSerializer.
Import Workflow.

Lemma text_in_spec c x l :
  text_in c x l = true ↔ ∃ y, y ∈ l ∧ text_key c x = text_key c y.
Proof.
  unfold text_in, text_eq. rewrite existsb_exists.
  split; intros [y [Hy Hk]]; exists y.
  - apply bool_decide_eq_true in Hk. split; [by apply list_elem_of_In|done].
  - split; [by apply list_elem_of_In|by apply bool_decide_eq_true].
Qed.

Lemma pending_invitations_hit db P emails inv :
  inv ∈ invitations db → inv_project inv = project_id P →
  inv_status inv = PENDING →
  text_in (collation db) (inv_email inv) emails = true →
  pending_invitations db P emails ≠ [].
Proof.
  intros Hin Hp Hst He Hnil.
  assert (In (inv_email inv) (pending_invitations db P emails))
    as Hx.
  { unfold pending_invitations. apply in_map, filter_In.
    split; [by apply list_elem_of_In|].
    rewrite !andb_true_iff, N.eqb_eq, bool_decide_eq_true. done. }
  rewrite Hnil in Hx. destruct Hx.
Qed.

(** The duplicate check works whenever the store takes one of the
    addresses that survive [validate_emails] for the stored one: the
    request is answered with 400 and nothing is written. *)
Lemma invite_members_duplicate_rejected now user query pk data db P inv :
  get_object (request_for POST user query) act_invite_members pk db
  = (db, inr P) →
  inv ∈ invitations db → inv_project inv = project_id P →
  inv_status inv = PENDING →
  text_in (collation db) (inv_email inv)
    (unique_emails [] (data_emails data)) = true →
  ∃ r, handle (InviteMembers now user query pk data) db = (db, r)
       ∧ resp_status r = HTTP_400_BAD_REQUEST.
Proof.
  intros Hobj Hin Hp Hst He.
  unfold handle, view_of, invite_members.
  cbv beta iota delta [respond bind]. rewrite Hobj.
  cbv beta iota delta
    [is_valid validate_emails
     role_field validate bind ret stop read].
  destruct (data_emails data) as [|e es] eqn:Ed.
  { discriminate He. }
  destruct (unique_emails [] (e :: es)) as [|e' es'] eqn:Eu.
  { discriminate He. }
  pose proof (pending_invitations_hit db P (e' :: es') inv Hin Hp Hst He)
    as Hne.
  destruct (data_role data) as [r0|];
    repeat (case_match; simplify_eq);
    try (eexists; split; reflexivity); done.
Qed.

(** Every address of the request survives [validate_emails] up to case. *)
Lemma unique_emails_covers seen emails e :
  e ∈ emails →
  lower e ∈ seen
  ∨ ∃ e', e' ∈ unique_emails seen emails ∧ lower e' = lower e.
Proof.
  revert seen. induction emails as [|x emails IH]; intros seen He.
  - by apply elem_of_nil in He.
  - simpl. apply elem_of_cons in He as [->|He].
    + case_bool_decide; [by left|]. right. exists x. split; [by left|done].
    + case_bool_decide.
      * apply IH, He.
      * destruct (IH (lower x :: seen) He) as [Hs|[e' [He' Hl]]].
        -- apply elem_of_cons in Hs as [Hs|Hs]; [|by left].
           right. exists x. split; [by left|done].
        -- right. exists e'. split; [by right|done].
Qed.

(** On a store that ignores case the duplicate check holds up: a request
    that names, in any spelling, an address with a PENDING invitation to
    the project is turned down. *)
Lemma invite_duplicate_rejected_ignoring_case
    now user query pk data db P inv e :
  collation db = CaseInsensitive →
  get_object (request_for POST user query) act_invite_members pk db
  = (db, inr P) →
  inv ∈ invitations db → inv_project inv = project_id P →
  inv_status inv = PENDING →
  e ∈ data_emails data → lower e = lower (inv_email inv) →
  ∃ r, handle (InviteMembers now user query pk data) db = (db, r)
       ∧ resp_status r = HTTP_400_BAD_REQUEST.
Proof.
  intros Hc Hobj Hin Hp Hst He Hl.
  apply (invite_members_duplicate_rejected _ _ _ _ _ _ P inv); try done.
  apply text_in_spec. rewrite Hc. simpl.
  destruct (unique_emails_covers [] _ e He) as [Hs|[e' [He' Hl']]].
  - by apply elem_of_nil in Hs.
  - exists e'. split; [done|congruence].
Qed.

(** C6 (the duplicate check can be passed): project Y holds a PENDING
    invitation for b@x.com on a store that compares text exactly.  Its lead
    invites B@x.com: the check looks for the address as typed, finds
    nothing, and the handler stores the lower-cased address, so that two
    PENDING invitations for (Y, b@x.com) exist afterwards.  On a store that
    ignores case the same request is turned down. *)
Theorem invite_in_other_case_duplicates :
  collation (Scenario.db_invited PENDING) = CaseSensitive
  ∧ pending_for (Scenario.db_invited PENDING) 11 "b@x.com"
    = [Scenario.invite_bob PENDING]
  ∧ (∃ db',
       handle
         (InviteMembers 2000 Scenario.alice no_params 11
            {| data_emails := ["B@x.com"];
               data_role := None;
               data_message := None |})
         (Scenario.db_invited PENDING)
       = (db',
          api_success HTTP_201_CREATED "Successfully invited 1 member(s)")
       ∧ length (pending_for db' 11 "b@x.com") = 2%nat)
  ∧ handle
      (InviteMembers 2000 Scenario.alice no_params 11
         {| data_emails := ["B@x.com"];
            data_role := None;
            data_message := None |})
      (Scenario.ignoring_case (Scenario.db_invited PENDING))
    = (Scenario.ignoring_case (Scenario.db_invited PENDING),
       validation_error
         "Following emails already have pending invitations: b@x.com").
Proof.
  split; [reflexivity|]. split; [reflexivity|]. split; [|reflexivity].
  eexists. split; [vm_compute; reflexivity|]. reflexivity.
Qed.

End Inviting.

(** ** Deleting a project *)

Section Destroy.
Import ProjectViewSet.
Implicit Types (db : DB) (P : Project).

Lemma get_object_pure request action pk db :
  fst (get_object request action pk db) = db.
Proof.
  cbv beta iota delta [get_object bind read ret stop].
  repeat case_match; reflexivity.
Qed.

Lemma get_object_pk request action pk db P :
  get_object request action pk db = (db, inr P) → project_id P = pk.
Proof.
  cbv beta iota delta [get_object bind read ret stop].
  destruct (objects_get _ _) as [obj| |] eqn:E; try discriminate.
  apply objects_get_found in E as [_ E]. apply N.eqb_eq in E.
  repeat case_match; intros [=]. by subst.
Qed.

Lemma tasks_exist db P :
  objects_exists (λ t, task_project t =? project_id P)%N (tasks db) = true
  ↔ ∃ t, t ∈ tasks db ∧ task_project t = project_id P.
Proof.
  rewrite objects_exists_spec.
  split; intros [t [Ht Hp]]; exists t; split; try done; by apply N.eqb_eq.
Qed.

(** C10, as stated, fails: bob is an EMPLOYEE without an active membership
    of project X, which has a task.  His delete request is answered with
    403 by the permission gate, not with the 400 of the task check. *)
Lemma destroy_with_tasks_counterexample :
  Scenario.project_x ∈ projects Scenario.db0
  ∧ Scenario.task_in_x ∈ tasks Scenario.db0
  ∧ task_project Scenario.task_in_x = project_id Scenario.project_x
  ∧ handle
      (DestroyProject Scenario.bob no_params
         (project_id Scenario.project_x)) Scenario.db0
    = (Scenario.db0,
       api_error HTTP_403_FORBIDDEN
         "You do not have permission to perform this action." None)
  ∧ handle
      (DestroyProject Scenario.bob no_params
         (project_id Scenario.project_x)) Scenario.db0
    ≠ (Scenario.db0,
       api_error HTTP_400_BAD_REQUEST
         "Cannot delete project with existing tasks"
         (Some "project_has_tasks")).
Proof.
  repeat split; try (apply list_elem_of_In; simpl; by left).
  intros H. vm_compute in H. discriminate H.
Qed.

(** C10 (amended): a delete request for a project that has a task changes
    nothing in the store, whoever sends it.  When the request passes
    [get_object] (the project is found and ProjectPermission grants the
    caller), it is answered with 400 "Cannot delete project with existing
    tasks" if the project has a task, and otherwise the project is deleted
    and the answer is 204. *)
Theorem destroy_only_without_tasks db user query pk :
  ((∃ t, t ∈ tasks db ∧ task_project t = pk) →
   fst (handle (DestroyProject user query pk) db) = db)
  ∧ ∀ P,
      get_object (request_for DELETE user query) act_destroy pk db
      = (db, inr P) →
      project_id P = pk
      ∧ ((∃ t, t ∈ tasks db ∧ task_project t = pk) →
         handle (DestroyProject user query pk) db
         = (db, api_error HTTP_400_BAD_REQUEST
                  "Cannot delete project with existing tasks"
                  (Some "project_has_tasks")))
      ∧ ((∀ t, t ∈ tasks db → task_project t ≠ pk) →
         handle (DestroyProject user query pk) db
         = (fst (Models.project_delete P db),
            api_success HTTP_204_NO_CONTENT "Project deleted successfully")).
Proof.
  pose proof (get_object_pk (request_for DELETE user query) act_destroy
                pk db) as Hpk.
  split.
  - intros Ht.
    unfold handle, view_of, destroy.
    cbv beta iota delta [respond bind].
    pose proof (get_object_pure (request_for DELETE user query)
                  act_destroy pk db) as Hpure.
    clear Hpk.
    destruct (get_object _ _ _ db) as [db1 [r|P]] eqn:Eg;
      simpl in Hpure; subst db1; [done|].
    pose proof (get_object_pk _ _ _ _ _ Eg) as Hp.
    cbv beta iota delta [read ret].
    rewrite <- Hp in Ht. apply tasks_exist in Ht. by rewrite Ht.
  - intros P Hobj. pose proof (Hpk P Hobj) as Hp. split; [done|].
    unfold handle, view_of, destroy.
    cbv beta iota delta [respond bind]. rewrite Hobj.
    cbv beta iota delta [read ret]. split.
    + intros Ht. rewrite <- Hp in Ht. apply tasks_exist in Ht.
      by rewrite Ht.
    + intros Hnone.
      destruct (objects_exists _ _) eqn:Et; [|reflexivity].
      apply tasks_exist in Et as [t [Ht Htp]]. rewrite Hp in Htp.
      by destruct (Hnone t Ht).
Qed.

(** Project X has a task and stays; project Y has none and is deleted by
    its lead. *)
Lemma destroy_only_without_tasks_witness :
  handle (DestroyProject Scenario.alice no_params 10) Scenario.db0
  = (Scenario.db0,
     api_error HTTP_400_BAD_REQUEST "Cannot delete project with existing tasks"
               (Some "project_has_tasks"))
  ∧ fst (handle (DestroyProject Scenario.bob no_params 10)
           Scenario.db0) = Scenario.db0
  ∧ projects
      (fst (handle (DestroyProject Scenario.alice no_params 11)
              Scenario.db0)) = [Scenario.project_x].
Proof.
  assert (∃ t, t ∈ tasks Scenario.db0 ∧ task_project t = 10%N) as Ht.
  { exists Scenario.task_in_x. split; [|done].
    apply list_elem_of_In. simpl. by left. }
  split; [|split].
  - by apply (proj2 (destroy_only_without_tasks Scenario.db0 Scenario.alice
                       no_params 10) Scenario.project_x eq_refl).
  - by apply (proj1 (destroy_only_without_tasks Scenario.db0 Scenario.bob
                       no_params 10)).
  - destruct (proj2 (destroy_only_without_tasks Scenario.db0 Scenario.alice
                       no_params 11) Scenario.project_y eq_refl)
      as (_ & _ & Hdel).
    rewrite Hdel; [reflexivity|].
    intros t Hin. apply list_elem_of_In in Hin. simpl in Hin.
    destruct Hin as [<-|[]]. discriminate.
Defined.

End Destroy.

(** ** The audit recorder *)

Section AuditRecorder.
Import Audit.

(** C9 (the recorder does not do what the claim says): when [post_save]
    reports a creation, the receiver builds the marker
    [{'action': 'created'}] and then declines to log exactly that marker.
    No audit record is written, for any model and any instance. *)
Theorem creation_is_not_recorded stored sender instance logs :
  log_model_save stored sender instance true logs = logs.
Proof.
  unfold log_model_save. case_bool_decide; [reflexivity|]. simpl.
  rewrite (bool_decide_eq_false_2 (created_marker ≠ created_marker))
    by (intros H'; by apply H').
  by rewrite andb_false_r.
Qed.

(** The creation of project X, an audited model, leaves the log empty. *)
Lemma project_creation_not_recorded :
  class Scenario.project_instance ∈ AUDITED_MODELS
  ∧ log_model_save [] ProjectModel Scenario.project_instance true [] = [].
Proof.
  split; [|reflexivity].
  unfold AUDITED_MODELS. simpl. rewrite !elem_of_cons. tauto.
Qed.

(** Deletions are recorded with their marker, as the claim expects of
    creations. *)
Lemma deletion_is_recorded sender instance logs :
  sender ∈ AUDITED_MODELS →
  ∃ entry, log_model_delete sender instance logs = (logs ++ [entry])%list
           ∧ log_action entry = DELETE_
           ∧ log_changes entry = {[ "action" := Marker "deleted" ]}.
Proof.
  intros Hs. unfold log_model_delete.
  rewrite bool_decide_eq_false_2 by (intros H'; by apply H').
  unfold log. eexists. split; [reflexivity|]. by split.
Qed.

End AuditRecorder.

(** ** Terminal invitation states *)

Section TerminalStates.
Import ProjectViewSet.
Import Workflow.
Implicit Types (db : DB) (inv : ProjectInvitation).

Lemma evolves_refl db : evolves db db.
Proof.
  split; [lia|]. intros i Hi. right. exists i. by repeat split; [|right].
Qed.

Lemma evolves_trans db1 db2 db3 :
  evolves db1 db2 → evolves db2 db3 → evolves db1 db3.
Proof.
  intros [Hs1 H1] [Hs2 H2]. split; [lia|].
  intros i3 Hi3. destruct (H2 i3 Hi3) as [Hnew|(i2 & Hi2 & Hid2 & Hst2)].
  - left. lia.
  - destruct (H1 i2 Hi2) as [Hnew|(i1 & Hi1 & Hid1 & Hst1)].
    + left. rewrite <- Hid2. done.
    + right. exists i1. split; [done|]. split; [congruence|].
      destruct Hst1 as [?|Hst1]; [by left|].
      destruct Hst2 as [Hp|Hst2]; [left|right]; congruence.
Qed.

(** The table is untouched. *)
Lemma evolves_same db db' :
  invitations db' = invitations db →
  (uuid_supply db ≤ uuid_supply db')%N → evolves db db'.
Proof.
  intros Hi Hs. split; [done|]. rewrite Hi. apply evolves_refl.
Qed.

(** Rows are deleted. *)
Lemma evolves_filter db db' f :
  invitations db' = List.filter f (invitations db) →
  (uuid_supply db ≤ uuid_supply db')%N → evolves db db'.
Proof.
  intros Hi Hs. split; [done|]. rewrite Hi. intros i Hin.
  apply list_elem_of_In, filter_In in Hin as [Hin _].
  right. exists i. split; [by apply list_elem_of_In|]. by split; [|right].
Qed.

Lemma in_save_rows self rows i :
  i ∈ Models.save_rows self rows → i = self ∨ i ∈ rows.
Proof.
  unfold Models.save_rows. destruct (existsb _ rows).
  - intros Hi. apply list_elem_of_In, in_map_iff in Hi as [r [Hr Hin]].
    destruct (inv_id r =? inv_id self)%N; [by left|].
    right. subst. by apply list_elem_of_In.
  - rewrite elem_of_app, list_elem_of_singleton. tauto.
Qed.

(** A row that a lookup found is saved back, its status changed only if it
    was PENDING. *)
Lemma evolves_save db db' cond inv self :
  objects_get cond (invitations db) = Found inv →
  inv_id self = inv_id inv →
  inv_status inv = PENDING ∨ inv_status self = inv_status inv →
  invitations db' = Models.save_rows self (invitations db) →
  (uuid_supply db ≤ uuid_supply db')%N → evolves db db'.
Proof.
  intros Hget Hid Hst Hi Hs. split; [done|]. rewrite Hi. intros i Hin.
  apply objects_get_found in Hget as [Hinv _]. right.
  apply in_save_rows in Hin as [->|Hin].
  - exists inv. by repeat split.
  - exists i. by repeat split; [|right].
Qed.

(** A row with a freshly drawn id is saved. *)
Lemma evolves_create db db' self :
  (uuid_supply db ≤ inv_id self)%N →
  invitations db' = Models.save_rows self (invitations db) →
  (uuid_supply db ≤ uuid_supply db')%N → evolves db db'.
Proof.
  intros Hid Hi Hs. split; [done|]. rewrite Hi. intros i Hin.
  apply in_save_rows in Hin as [->|Hin]; [by left|].
  right. exists i. by repeat split; [|right].
Qed.

Lemma create_invitations_evolves now P user role message emails db :
  evolves db
    (fst (create_invitations now P user role message emails db)).
Proof.
  revert db. induction emails as [|email rest IH]; intros db.
  - apply evolves_refl.
  - cbn [create_invitations].
    cbv beta iota delta
      [bind Models.invitation_create Models.save send_invitation_email
       uuid4 write ret].
    cbn [uuid_supply]. 
    match goal with
    | |- context [create_invitations _ _ _ _ _ rest ?d] =>
        pose proof (IH d) as Hrest;
        destruct (create_invitations now P user role message rest d)
          as [db2 [r|others]]
    end; simpl in Hrest |- *;
      (eapply evolves_trans; [|exact Hrest]);
      (eapply evolves_create; [|reflexivity|]); simpl; lia.
Qed.

Ltac pending_status :=
  match goal with
  | H : bool_decide (inv_status ?i ≠ PENDING) = false |- inv_status ?i = _ =>
      apply bool_decide_eq_false in H; apply dec_stable in H; exact H
  end.

Ltac solve_evolves :=
  first
    [ apply evolves_refl
    | apply evolves_same; [reflexivity | simpl; lia]
    | eapply evolves_filter; [reflexivity | simpl; lia]
    | eapply evolves_save; [eassumption | | | reflexivity | simpl; lia];
        [reflexivity | first [right; reflexivity | left; pending_status]] ].

(** Every request lets the invitation table evolve. *)
Lemma handle_evolves c db : evolves db (fst (handle c db)).
Proof.
  destruct c; run_view; run_cases; simpl; try solve_evolves.
  all: match goal with
       | H : create_invitations ?n ?p ?u ?r ?m ?e ?d = (?d', _)
         |- evolves _ ?d' =>
           pose proof (create_invitations_evolves n p u r m e d) as Hc;
           rewrite H in Hc; exact Hc
       end.
Qed.

Lemma serve_evolves calls db : evolves db (serve calls db).
Proof.
  revert db. induction calls as [|c calls IH]; intros db.
  - apply evolves_refl.
  - simpl. eapply evolves_trans; [apply handle_evolves|apply IH].
Qed.

(** Rows of one table that agree on a unique key are the same row. *)
Lemma unique_key_eq {A K} (key : A → K) (rows : list A) (a b : A) :
  NoDup (map key rows) → a ∈ rows → b ∈ rows → key a = key b → a = b.
Proof.
  induction rows as [|r rows IH]; intros Hnd Ha Hb Hk.
  - by apply elem_of_nil in Ha.
  - simpl in Hnd. apply NoDup_cons in Hnd as [Hr Hnd].
    apply elem_of_cons in Ha as [->|Ha]; apply elem_of_cons in Hb as [->|Hb];
      try done.
    + destruct Hr. rewrite Hk. apply list_elem_of_In, in_map.
      by apply list_elem_of_In.
    + destruct Hr. rewrite <- Hk. apply list_elem_of_In, in_map.
      by apply list_elem_of_In.
    + by apply IH.
Qed.

(** C8: once the status of an invitation is ACCEPTED, REJECTED or EXPIRED,
    no sequence of requests to the project view set changes it.  A reject
    request for an invitation that is not PENDING leaves the store as it
    is; one for a PENDING invitation that has not run out stores it as
    REJECTED. *)
Theorem terminal_status_is_final :
  (∀ calls db i i',
     ids_unique db → ids_issued db →
     i ∈ invitations db → terminal (inv_status i) →
     i' ∈ invitations (serve calls db) → inv_id i' = inv_id i →
     inv_status i' = inv_status i)
  ∧ (∀ now user db inv,
       tokens_unique db → inv ∈ invitations db → inv_status inv ≠ PENDING →
       fst (handle
              (RejectInvitation now user (inv_token inv)) db) = db)
  ∧ (∀ now user db inv,
       tokens_unique db → inv ∈ invitations db →
       inv_status inv = PENDING → now ≤ inv_expires_at inv →
       ∃ db',
         handle (RejectInvitation now user (inv_token inv)) db
         = (db', api_success HTTP_200_OK "Invitation rejected")
         ∧ Models.with_status REJECTED inv ∈ invitations db'
         ∧ ∀ i, i ∈ invitations db' → inv_id i = inv_id inv →
                inv_status i = REJECTED).
Proof.
  split; [|split].
  - intros calls db i i' Hu Hiss Hi Hterm Hi' Hid.
    destruct (serve_evolves calls db) as [_ Hev].
    destruct (Hev i' Hi') as [Hnew|(i0 & Hi0 & Hid0 & Hst)].
    + specialize (Hiss i Hi). rewrite Hid in Hnew. lia.
    + assert (i0 = i) as ->
        by (apply (unique_key_eq inv_id (invitations db));
            [exact Hu|done|done|congruence]).
      destruct Hst as [Hp|Hst]; [|done].
      destruct Hterm as [Ht|[Ht|Ht]]; congruence.
  - intros now user db inv Hu Hin Hst.
    run_view. rewrite (get_by_token db inv Hu Hin).
    cbv beta iota zeta. by rewrite bool_decide_eq_true_2.
  - intros now user db inv Hu Hin Hst Hexp.
    exists (set_invitations
              (Models.save_rows (Models.with_status REJECTED inv)
                                (invitations db)) db).
    split; [|split].
    + run_view. rewrite (get_by_token db inv Hu Hin).
      cbv beta iota zeta.
      rewrite bool_decide_eq_false_2 by (rewrite Hst; intros ?; done).
      replace (Models.is_expired now inv) with false
        by (symmetry; unfold Models.is_expired; rewrite Z.gtb_ltb;
            apply Z.ltb_ge; lia).
      cbv beta iota zeta. rewrite (get_by_token db inv Hu Hin).
      reflexivity.
    + simpl. by apply (save_rows_keeps _ _ inv).
    + simpl. intros i Hi Hid.
      by rewrite (save_rows_status (Models.with_status REJECTED inv) _ inv i
                    Hin eq_refl Hi Hid).
Qed.

(** bob's accepted invitation stays ACCEPTED through a reject, an accept
    and a resend request. *)
Lemma terminal_status_is_final_witness :
  inv_status
    (List.hd (Scenario.invite_bob PENDING)
       (invitations
          (serve
             [RejectInvitation 2000 Scenario.bob 41;
              AcceptInvitation 3000 Scenario.bob 41;
              ResendInvitation Scenario.later Scenario.alice
                no_params 11 40]
             (Scenario.db_invited ACCEPTED))))
  = ACCEPTED.
Proof.
  apply (proj1 terminal_status_is_final
           [RejectInvitation 2000 Scenario.bob 41;
            AcceptInvitation 3000 Scenario.bob 41;
            ResendInvitation Scenario.later Scenario.alice
              no_params 11 40]
           (Scenario.db_invited ACCEPTED)
           (Scenario.invite_bob ACCEPTED)).
  - apply (bool_decide_unpack _). by vm_compute.
  - intros i Hi. apply list_elem_of_In in Hi. simpl in Hi.
    destruct Hi as [<-|[]]. simpl. lia.
  - apply list_elem_of_In. simpl. by left.
  - by left.
  - apply list_elem_of_In. vm_compute. by left.
  - reflexivity.
Defined.

End TerminalStates.

(** ** Creating a project *)

Section Creation.
Import ProjectViewSet ProjectCreateSerializer.
Import Projects.
Implicit Types (db : DB).

Lemma string_length_app (s t : string) :
  String.length (s ++ t) = (String.length s + String.length t)%nat.
Proof. induction s as [|c s IH]; simpl; [done|]. by rewrite IH. Qed.

Lemma pretty_N_go_length x s :
  (String.length s ≤ String.length (pretty_N_go x s))%nat.
Proof.
  revert s. induction (N.lt_wf_0 x) as [x _ IH]; intros s.
  destruct (decide (x = 0)%N) as [->|Hx]; [by rewrite pretty_N_go_0|].
  rewrite pretty_N_go_step by lia.
  etrans; [|apply IH; apply N.div_lt; lia]. simpl. lia.
Qed.

Lemma pretty_nat_nonempty (n : nat) : pretty n ≠ EmptyString.
Proof.
  unfold pretty, pretty_nat, pretty, pretty_N.
  case_decide as Hz; [done|]. rewrite pretty_N_go_step by lia.
  intros Hp.
  pose proof (pretty_N_go_length (N.of_nat n `div` 10)
                (String (pretty_N_char (N.of_nat n `mod` 10)) EmptyString))
    as Hl.
  rewrite Hp in Hl. simpl in Hl. lia.
Qed.

(** The candidates of the loop are pairwise different. *)
Lemma candidate_inj base : Inj (=) (=) (candidate base).
Proof.
  assert (∀ n, base ≠ base ++ pretty (S n)) as Hne.
  { intros n H. apply (f_equal String.length) in H.
    rewrite string_length_app in H.
    pose proof (pretty_nat_nonempty (S n)) as Hp.
    destruct (pretty (S n)); [done|]. simpl in H. lia. }
  intros [|i] [|j] H; simpl in H; try done.
  - by destruct (Hne j).
  - by destruct (Hne i).
  - apply (inj (String.app base)) in H. by apply (inj pretty) in H.
Qed.

Lemma lower_app (a b : string) : lower (a ++ b) = lower a ++ lower b.
Proof. induction a as [|c a IH]; simpl; [done|]. by rewrite IH. Qed.

Lemma lower_pretty_N_go x s :
  lower s = s → lower (pretty_N_go x s) = pretty_N_go x s.
Proof.
  revert s. induction (N.lt_wf_0 x) as [x _ IH]; intros s Hs.
  destruct (decide (x = 0)%N) as [->|Hx]; [by rewrite pretty_N_go_0|].
  rewrite pretty_N_go_step by lia.
  apply IH; [apply N.div_lt; lia|]. simpl. rewrite Hs. f_equal.
  unfold pretty_N_char. by repeat case_match.
Qed.

(** Decimal numerals have no letters. *)
Lemma lower_pretty_nat (n : nat) : lower (pretty n) = pretty n.
Proof.
  unfold pretty, pretty_nat, pretty, pretty_N.
  case_decide; [done|]. by apply lower_pretty_N_go.
Qed.

(** The store compares the candidates of the loop as the candidates of the
    base code's key. *)
Lemma text_key_candidate c base j :
  text_key c (candidate base j) = candidate (text_key c base) j.
Proof.
  destruct c, j; simpl; try done.
  by rewrite lower_app, lower_pretty_nat.
Qed.

Lemma code_exists_spec db code :
  code_exists db code = true
  ↔ text_key (collation db) code
    ∈ map (λ p, text_key (collation db) (project_code p)) (projects db).
Proof.
  unfold code_exists. rewrite objects_exists_spec.
  rewrite list_elem_of_In, in_map_iff. unfold text_eq.
  split; intros [p H]; exists p.
  - destruct H as [Hp Hk]. apply bool_decide_eq_true in Hk.
    split; [done|by apply list_elem_of_In].
  - destruct H as [Hk Hp]. split; [by apply list_elem_of_In|].
    by apply bool_decide_eq_true.
Qed.

(** When the rounds so far met stored codes only and the fuel left covers
    the projects not met yet, the loop ends on a code that is not stored. *)
Lemma next_code_unique fuel db base j :
  (∀ i, (i < j)%nat → code_exists db (candidate base i) = true) →
  (length (projects db) ≤ j + fuel)%nat →
  code_exists db
    (next_code fuel db base (candidate base j) (S j)) = false.
Proof.
  revert j. induction fuel as [|fuel IH]; intros j Hmet Hlen; simpl.
  - apply not_true_is_false. intros Hj.
    set (keys := map (λ p, text_key (collation db) (project_code p))
                     (projects db)).
    assert (candidate (text_key (collation db) base) <$> seq 0 (S j)
            ⊆+ keys) as Hsub.
    { apply NoDup_submseteq.
      - apply (@NoDup_fmap_2 _ _ _ (candidate_inj _)), NoDup_seq.
      - intros x Hx. apply list_elem_of_fmap in Hx as [i [-> Hi]].
        apply elem_of_seq in Hi. rewrite <- text_key_candidate.
        apply code_exists_spec.
        destruct (decide (i = j)) as [->|Hij]; [done|].
        apply Hmet. lia. }
    apply submseteq_length in Hsub.
    rewrite length_fmap, length_seq in Hsub.
    unfold keys in Hsub. rewrite length_map in Hsub. lia.
  - destruct (code_exists db (candidate base j)) eqn:Hc; [|done].
    apply (IH (S j)); [|lia].
    intros i Hi. destruct (decide (i = j)) as [->|Hij]; [done|].
    apply Hmet. lia.
Qed.

(** The generated code is not taken: the loop condition is false when
    [generate_code] stops. *)
Lemma generate_code_unique db name :
  code_exists db (generate_code db name) = false.
Proof.
  unfold generate_code.
  apply (next_code_unique (length (projects db)) db
           (base_code name) 0); [lia|done].
Qed.

Lemma no_rows_for_fresh_project db :
  ids_issued db → members_reference_projects db →
  ∀ m, m ∈ project_members db → pm_project m ≠ uuid_supply db.
Proof.
  intros Hi Hr m Hm. destruct (Hr m Hm) as [p [Hp <-]].
  specialize (Hi p Hp). lia.
Qed.

Lemma filter_fresh_row (members : list ProjectMember) self pid :
  (∀ m, m ∈ members → pm_project m ≠ pid) → pm_project self = pid →
  List.filter (λ m, pm_project m =? pid)%N (members ++ [self]) = [self].
Proof.
  intros Hfresh Hself. rewrite List.filter_app. simpl.
  rewrite Hself, N.eqb_refl.
  replace (List.filter _ members) with (@nil ProjectMember); [done|].
  symmetry. induction members as [|m members IH]; simpl; [done|].
  destruct (pm_project m =? pid)%N eqn:E.
  - apply N.eqb_eq in E. destruct (Hfresh m); [|done]. by left.
  - apply IH. intros m' Hm'. apply Hfresh. by right.
Qed.

(** C7: a create request is either turned down by validation, the store
    left as it is, or answered with 201; then the new project is stored
    and the project_members table holds exactly one row for it, which has
    role LEAD, is active and belongs to the creator. *)
Theorem create_project_single_lead db user data db' r :
  ids_issued db → members_reference_projects db →
  handle (CreateProject user data) db = (db', r) →
  (resp_status r = HTTP_400_BAD_REQUEST ∧ db' = db)
  ∨ (r = api_success HTTP_201_CREATED "Project created successfully"
     ∧ ∃ project m,
         projects db' = (projects db ++ [project])%list
         ∧ project_id project = uuid_supply db
         ∧ rows_of db' (project_id project) = [m]
         ∧ leads_of db' (project_id project) = [m]
         ∧ pm_role m = "LEAD" ∧ pm_user m = user_id user
         ∧ pm_is_active m = true).
Proof.
  intros Hi Hr.
  pose proof (no_rows_for_fresh_project db Hi Hr) as Hfresh.
  run_view. run_cases; simpl in *; intros [= <- <-]; try (left; by split).
  all: try match goal with
       | H : existsb _ _ = true |- _ =>
           apply existsb_exists in H as [m [Hm Hc]];
           apply list_elem_of_In in Hm; simpl in Hm;
           apply andb_true_iff in Hc as [Hc _]; apply N.eqb_eq in Hc;
           by destruct (Hfresh m Hm)
       end.
  all: right; split; [reflexivity|];
    eexists; eexists; split; [reflexivity|]; split; [reflexivity|];
    unfold leads_of, rows_of; simpl;
    rewrite (filter_fresh_row (project_members db) _ (uuid_supply db) Hfresh)
      by reflexivity;
    by repeat split.
Qed.

(** bob creates a project; he is its one LEAD. *)
Lemma create_project_single_lead_witness :
  ∃ m, leads_of
         (fst (handle
                 (CreateProject Scenario.bob
                    {| data_name := "new project";
                       data_code := None;
                       data_department := 7;
                       data_manager := None;
                       data_start_date := 1;
                       data_end_date := 2;
                       data_status := None;
                       data_is_active := None |})
                 Scenario.db0)) 100
       = [m] ∧ pm_user m = user_id Scenario.bob.
Proof.
  edestruct (create_project_single_lead Scenario.db0 Scenario.bob
               {| data_name := "new project";
                  data_code := None;
                  data_department := 7;
                  data_manager := None;
                  data_start_date := 1;
                  data_end_date := 2;
                  data_status := None;
                  data_is_active := None |})
    as [[Hbad _]|[_ (project & m & _ & Hid & _ & Hlead & _ & Hu & _)]].
  - intros p Hp. apply list_elem_of_In in Hp. simpl in Hp.
    destruct Hp as [<-|[<-|[]]]; simpl; lia.
  - intros m Hm. apply list_elem_of_In in Hm. simpl in Hm.
    destruct Hm as [<-|[<-|[<-|[]]]];
      [exists Scenario.project_x|exists Scenario.project_x
      |exists Scenario.project_y];
      (split; [apply list_elem_of_In; simpl; tauto|reflexivity]).
  - apply surjective_pairing.
  - vm_compute in Hbad. discriminate Hbad.
  - exists m. rewrite Hid in Hlead. by split.
Defined.

End Creation.

(** ** Requests keep the store consistent *)

Section Consistent.
Import ProjectViewSet.
Import Consistency.
Implicit Types (db : DB).

Lemma NoDup_map_snoc {A K} (key : A → K) (l : list A) (x : A) :
  NoDup (map key l) → key x ∉ map key l → NoDup (map key (l ++ [x])).
Proof.
  intros Hnd Hx. rewrite map_app. simpl. apply NoDup_app.
  split; [done|]. split.
  - intros y Hy Hy'. apply list_elem_of_singleton in Hy'. by subst.
  - apply NoDup_singleton.
Qed.

Lemma NoDup_map_filter {A K} (key : A → K) (f : A → bool) (l : list A) :
  NoDup (map key l) → NoDup (map key (List.filter f l)).
Proof.
  induction l as [|a l IH]; simpl; [done|].
  intros Hnd. apply NoDup_cons in Hnd as [Ha Hnd].
  destruct (f a); simpl; [|by apply IH].
  apply NoDup_cons. split; [|by apply IH].
  intros Hin. apply Ha.
  apply list_elem_of_In, in_map_iff in Hin as [b [Hb Hin]].
  apply filter_In in Hin as [Hin _].
  rewrite <- Hb. apply list_elem_of_In. by apply in_map.
Qed.

(** Saving a loaded row back keeps the ids of the table. *)
Lemma save_rows_ids self rows inv :
  inv ∈ rows → inv_id self = inv_id inv →
  map inv_id (Models.save_rows self rows) = map inv_id rows.
Proof.
  intros Hin Hid. rewrite (save_rows_present _ _ inv) by done.
  rewrite map_map. apply map_ext. intros r.
  destruct (inv_id r =? inv_id self)%N eqn:E; [|done].
  by apply N.eqb_eq in E.
Qed.

(** It keeps the tokens too when the row keeps its own. *)
Lemma save_rows_tokens self rows inv :
  NoDup (map inv_id rows) → inv ∈ rows →
  inv_id self = inv_id inv → inv_token self = inv_token inv →
  map inv_token (Models.save_rows self rows) = map inv_token rows.
Proof.
  intros Hnd Hin Hid Htok. rewrite (save_rows_present _ _ inv) by done.
  rewrite map_map. apply map_ext_in. intros r Hr.
  destruct (inv_id r =? inv_id self)%N eqn:E; [|done].
  apply N.eqb_eq in E.
  assert (r = inv) as ->; [|done].
  apply (unique_key_eq inv_id rows); try done; [|congruence].
  by apply list_elem_of_In.
Qed.

(** A row with an id that no stored row has is appended. *)
Lemma save_rows_fresh self rows :
  (∀ r, r ∈ rows → inv_id r ≠ inv_id self) →
  Models.save_rows self rows = (rows ++ [self])%list.
Proof.
  intros Hfresh. unfold Models.save_rows.
  destruct (existsb _ rows) eqn:E; [|done].
  apply existsb_exists in E as [r [Hr E]]. apply N.eqb_eq in E.
  destruct (Hfresh r); [by apply list_elem_of_In|done].
Qed.


(** Identifiers stay below a supply that only grows. *)
Lemma issued_mono {A} (f : A → N) (l : list A) (s s' : N) :
  (∀ x, x ∈ l → (f x < s)%N) → (s ≤ s')%N → ∀ x, x ∈ l → (f x < s')%N.
Proof. intros H Hs x Hx. specialize (H x Hx). lia. Qed.

Lemma issued_snoc {A} (f : A → N) (l : list A) (a : A) (s s' : N) :
  (∀ x, x ∈ l → (f x < s)%N) → (s ≤ s')%N → (f a < s')%N →
  ∀ x, x ∈ (l ++ [a])%list → (f x < s')%N.
Proof.
  intros H Hs Ha x Hx. apply elem_of_app in Hx as [Hx|Hx].
  - specialize (H x Hx). lia.
  - apply list_elem_of_singleton in Hx. by subst.
Qed.

Lemma issued_filter {A} (f : A → N) (g : A → bool) (l : list A) (s s' : N) :
  (∀ x, x ∈ l → (f x < s)%N) → (s ≤ s')%N →
  ∀ x, x ∈ List.filter g l → (f x < s')%N.
Proof.
  intros H Hs x Hx. apply list_elem_of_In, filter_In in Hx as [Hx _].
  apply list_elem_of_In in Hx. specialize (H x Hx). lia.
Qed.

Lemma issued_save (f : ProjectInvitation → N) self rows (s s' : N) :
  (∀ x, x ∈ rows → (f x < s)%N) → (s ≤ s')%N → (f self < s')%N →
  ∀ x, x ∈ Models.save_rows self rows → (f x < s')%N.
Proof.
  intros H Hs Ha x Hx. apply in_save_rows in Hx as [->|Hx]; [done|].
  specialize (H x Hx). lia.
Qed.

(** The foreign key of project_members under the changes the handlers
    make. *)
Lemma references_more_projects (members : list ProjectMember)
    (projects : list Project) (p' : Project) :
  (∀ m, m ∈ members → ∃ p, p ∈ projects ∧ project_id p = pm_project m) →
  ∀ m, m ∈ members →
       ∃ p, p ∈ (projects ++ [p'])%list ∧ project_id p = pm_project m.
Proof.
  intros H m Hm. destruct (H m Hm) as [p [Hp Hid]].
  exists p. split; [|done]. apply elem_of_app. by left.
Qed.

Lemma references_more_members (members : list ProjectMember)
    (projects : list Project) (m' : ProjectMember) (p' : Project) :
  (∀ m, m ∈ members → ∃ p, p ∈ projects ∧ project_id p = pm_project m) →
  p' ∈ projects → project_id p' = pm_project m' →
  ∀ m, m ∈ (members ++ [m'])%list →
       ∃ p, p ∈ projects ∧ project_id p = pm_project m.
Proof.
  intros H Hp' Hid m Hm. apply elem_of_app in Hm as [Hm|Hm]; [by apply H|].
  apply list_elem_of_singleton in Hm as ->. by exists p'.
Qed.

Lemma references_fewer_members (members : list ProjectMember)
    (projects : list Project) (g : ProjectMember → bool) :
  (∀ m, m ∈ members → ∃ p, p ∈ projects ∧ project_id p = pm_project m) →
  ∀ m, m ∈ List.filter g members →
       ∃ p, p ∈ projects ∧ project_id p = pm_project m.
Proof.
  intros H m Hm. apply list_elem_of_In, filter_In in Hm as [Hm _].
  apply H. by apply list_elem_of_In.
Qed.

Lemma references_cascade (members : list ProjectMember)
    (projects : list Project) (pid : UUID) :
  (∀ m, m ∈ members → ∃ p, p ∈ projects ∧ project_id p = pm_project m) →
  ∀ m, m ∈ List.filter (λ m, negb (pm_project m =? pid)%N) members →
       ∃ p, p ∈ List.filter (λ p, negb (project_id p =? pid)%N) projects
            ∧ project_id p = pm_project m.
Proof.
  intros H m Hm. apply list_elem_of_In, filter_In in Hm as [Hm Hne].
  apply list_elem_of_In in Hm. destruct (H m Hm) as [p [Hp Hid]].
  exists p. split; [|done]. apply list_elem_of_In, filter_In.
  split; [by apply list_elem_of_In|]. by rewrite Hid.
Qed.

Lemma objects_first_in {A} (cond : A → bool) (rows : list A) (a : A) :
  objects_first cond rows = Some a → a ∈ rows.
Proof.
  unfold objects_first. intros H.
  destruct (List.filter cond rows) as [|x l] eqn:E; [done|].
  injection H as ->. apply list_elem_of_In.
  apply (proj1 (filter_In cond a rows)). rewrite E. by left.
Qed.

Lemma get_queryset_subset db request action p :
  p ∈ get_queryset db request action → p ∈ projects db.
Proof.
  unfold get_queryset. rewrite !list_elem_of_In.
  repeat case_match; rewrite ?filter_In; tauto.
Qed.

(** The pair of a new membership row is free when the table was searched
    for it in vain. *)
Lemma members_unique_snoc (members : list ProjectMember) m :
  NoDup (map (λ m, (pm_project m, pm_user m)) members) →
  existsb (λ r, (pm_project r =? pm_project m)%N
                && (pm_user r =? pm_user m)%N) members = false →
  NoDup (map (λ m, (pm_project m, pm_user m)) (members ++ [m])).
Proof.
  intros Hnd Hfree. apply NoDup_map_snoc; [done|].
  intros Hin. apply list_elem_of_In, in_map_iff in Hin as [r [Hk Hr]].
  injection Hk as Hp Hu.
  assert (existsb (λ r, (pm_project r =? pm_project m)%N
                        && (pm_user r =? pm_user m)%N) members = true) as Ht.
  { apply existsb_exists. exists r. split; [done|].
    by rewrite Hp, Hu, !N.eqb_refl. }
  congruence.
Qed.

Lemma fresh_not_in {A} (f : A → N) (l : list A) (s v : N) :
  (∀ x, x ∈ l → (f x < s)%N) → (s ≤ v)%N → v ∉ map f l.
Proof.
  intros H Hs Hin. apply list_elem_of_In, in_map_iff in Hin as [x [Hx Hin]].
  apply list_elem_of_In in Hin. specialize (H x Hin). lia.
Qed.

Lemma invitation_create_consistent now project invited_by email role
    message db :
  consistent db →
  consistent
    (fst (Models.invitation_create now project invited_by email role
            message db)).
Proof.
  intros [H1 H2 H3 H4 H5 H6 H7].
  cbv beta iota zeta delta
    [Models.invitation_create Models.save bind uuid4 write ret].
  simpl.
  constructor;
    unfold Membership.members_unique, Projects.ids_issued,
      Projects.members_reference_projects, Workflow.ids_unique,
      Workflow.ids_issued, Workflow.tokens_unique, Workflow.tokens_issued in *;
    simpl; try assumption.
  - eapply issued_mono; [eassumption|lia].
  - rewrite save_rows_fresh.
    + apply NoDup_map_snoc; [done|]. simpl.
      eapply fresh_not_in; [exact H5|lia].
    + intros r Hr. specialize (H5 r Hr). simpl. lia.
  - eapply issued_save; [eassumption|lia|simpl; lia].
  - rewrite save_rows_fresh.
    + apply NoDup_map_snoc; [done|]. simpl.
      eapply fresh_not_in; [exact H7|lia].
    + intros r Hr. specialize (H5 r Hr). simpl. lia.
  - eapply issued_save; [eassumption|lia|simpl; lia].
Qed.

Lemma create_invitations_consistent now P user role message emails db :
  consistent db →
  consistent
    (fst (create_invitations now P user role message emails
            db)).
Proof.
  revert db. induction emails as [|email rest IH]; intros db Hc; [done|].
  cbn [create_invitations].
  pose proof (invitation_create_consistent now (project_id P) (user_id user)
                (lower email) role message db Hc) as H1.
  cbv beta iota zeta delta [bind send_invitation_email ret].
  destruct (Models.invitation_create _ _ _ _ _ _ db) as [db1 [r|i]];
    simpl in H1; [done|].
  specialize (IH db1 H1).
  destruct (create_invitations _ _ _ _ _ rest db1)
    as [db2 [r|others]]; simpl in IH |- *; done.
Qed.

Lemma handle_consistent c db :
  consistent db → consistent (fst (handle c db)).
Proof.
  intros Hc.
  destruct c; run_view; run_cases; simpl; try exact Hc.
  all: try match goal with
       | H : create_invitations ?n ?p ?u ?r ?m ?e ?d = (?d', _)
         |- consistent ?d' =>
           pose proof (create_invitations_consistent n p u r m e d Hc) as Hl;
           rewrite H in Hl; exact Hl
       end.
  all: destruct Hc as [H1 H2 H3 H4 H5 H6 H7].
  all: repeat match goal with
       | H : objects_get _ (invitations ?d) = Found ?i |- _ =>
           lazymatch goal with
           | _ : i ∈ invitations d |- _ => fail
           | _ => pose proof (proj1 (objects_get_found _ _ _ H))
           end
       | H : objects_get _ (get_queryset ?d _ _) = Found ?p
         |- _ =>
           lazymatch goal with
           | _ : p ∈ projects d |- _ => fail
           | _ => pose proof (get_queryset_subset _ _ _ _
                                (proj1 (objects_get_found _ _ _ H)))
           end
       | H : objects_first _ (projects ?d) = Some ?p |- _ =>
           lazymatch goal with
           | _ : p ∈ projects d |- _ => fail
           | _ => pose proof (objects_first_in _ _ _ H)
           end
       end.
  all: constructor;
    unfold Membership.members_unique, Projects.ids_issued,
      Projects.members_reference_projects, Workflow.ids_unique,
      Workflow.ids_issued, Workflow.tokens_unique, Workflow.tokens_issued in *;
    simpl; try assumption.
  all: try (eapply issued_mono; [eassumption|lia]).
  all: try (eapply issued_snoc; [eassumption|lia|simpl; lia]).
  all: try (eapply issued_filter; [eassumption|lia]).
  all: try (apply NoDup_map_filter; assumption).
  all: try (apply members_unique_snoc; [assumption|simpl; assumption]).
  all: try (apply references_more_projects; assumption).
  all: try (eapply references_more_members;
            [apply references_more_projects; eassumption
            |apply elem_of_app; right; apply list_elem_of_singleton;
             reflexivity
            |reflexivity]).
  all: try (eapply references_more_members;
            [eassumption|eassumption|reflexivity]).
  all: try (apply references_fewer_members; assumption).
  all: try (apply references_cascade; assumption).
  all: try (erewrite save_rows_ids; [assumption|eassumption|reflexivity]).
  all: try (erewrite save_rows_tokens;
            [assumption|assumption|eassumption|reflexivity|reflexivity]).
  all: eapply issued_save; [eassumption|lia|simpl];
    match goal with
    | Hin : ?a ∈ invitations _ |- _ =>
        pose proof (H5 a Hin); pose proof (H7 a Hin); lia
    end.
Qed.

(** Consistency is an invariant of the service. *)
Lemma serve_consistent calls db :
  consistent db → consistent (serve calls db).
Proof.
  revert db. induction calls as [|c calls IH]; intros db Hc; [done|].
  simpl. apply IH, handle_consistent, Hc.
Qed.

Lemma empty_store_consistent c : consistent (empty_store c).
Proof.
  constructor;
    unfold Membership.members_unique, Projects.ids_issued,
      Projects.members_reference_projects, Workflow.ids_unique,
      Workflow.ids_issued, Workflow.tokens_unique, Workflow.tokens_issued;
    simpl; try apply NoDup_nil_2; intros x Hx; by apply elem_of_nil in Hx.
Qed.

(** Every store that requests build up from an empty one is consistent. *)
Lemma reachable_consistent c calls :
  consistent (serve calls (empty_store c)).
Proof. apply serve_consistent, empty_store_consistent. Qed.

End Consistent.

(** ** Task permissions *)

Section TaskRules.
Import TaskPermissions.
Implicit Types (db : DB) (request : Request) (obj : Task) (P : Project).

(** X1: a user who is not a system ADMIN is granted nothing on a task
    without an active membership row in the task's project; being the
    task's assignee does not help. *)
Theorem task_permission_needs_membership db request action obj :
  user_role (req_user request) ≠ ADMIN →
  has_object_permission db request action obj = Returns true →
  ∃ m, m ∈ project_members db
       ∧ pm_project m = task_project obj
       ∧ pm_user m = user_id (req_user request)
       ∧ pm_is_active m = true.
Proof.
  intros Hrole. unfold has_object_permission.
  rewrite bool_decide_eq_false_2 by done.
  destruct (objects_get _ _) as [m| |] eqn:Hget; try discriminate.
  intros _. apply objects_get_found in Hget as [Hin Hc].
  exists m. unfold active_membership in Hc.
  apply andb_true_iff in Hc as [Hc Ha].
  apply andb_true_iff in Hc as [Hp Hu].
  apply N.eqb_eq in Hp, Hu. done.
Qed.

(** alice reads the task of project X as an active member. *)
Lemma task_permission_needs_membership_witness :
  ∃ m, m ∈ project_members Scenario.db0
       ∧ pm_project m = task_project Scenario.task_in_x
       ∧ pm_user m = user_id Scenario.alice
       ∧ pm_is_active m = true.
Proof.
  apply (task_permission_needs_membership Scenario.db0
           (ProjectViewSet.request_for GET Scenario.alice no_params)
           "retrieve" Scenario.task_in_x).
  - discriminate.
  - reflexivity.
Defined.

(** X2: for a write request that updates a task, TaskPermission grants
    only what [can_user_edit_task] grants; the two differ exactly for an
    assignee whom the permission class turns away (no active membership, or
    the VIEWER role). *)
Theorem task_update_permission_within_helper db request action obj :
  req_method request ∉ SAFE_METHODS →
  action ∈ ["update"; "partial_update"] →
  (has_object_permission db request action obj = Returns true →
   can_user_edit_task db (req_user request) obj = Returns true)
  ∧ (can_user_edit_task db (req_user request) obj = Returns true →
     has_object_permission db request action obj ≠ Returns true →
     task_assigned_to obj = Some (user_id (req_user request))).
Proof.
  intros Hm Ha. unfold has_object_permission, can_user_edit_task.
  assert (action ≠ "create") as Hc.
  { intros ->. by apply (bool_decide_pack _) in Ha. }
  destruct (decide (user_role (req_user request) = ADMIN)) as [Hadm|Hadm].
  { rewrite !(bool_decide_eq_true_2 _ Hadm). split; [done|]. by intros _ H. }
  rewrite !(bool_decide_eq_false_2 _ Hadm).
  destruct (decide (task_assigned_to obj = Some (user_id (req_user request))))
    as [Has|Has].
  { rewrite !(bool_decide_eq_true_2 _ Has). done. }
  rewrite !(bool_decide_eq_false_2 _ Has).
  destruct (objects_get _ _) as [m| |]; [|done..].
  rewrite (bool_decide_eq_false_2 _ Hm), (bool_decide_eq_false_2 _ Hc),
    (bool_decide_eq_true_2 _ Ha), orb_false_r.
  case_bool_decide as Hv; split; try done.
  intros H1 _. injection H1 as H1. apply bool_decide_eq_true in H1.
  rewrite Hv in H1. by apply (bool_decide_pack _) in H1.
Qed.

(** alice, the LEAD of project X, updates its task. *)
Lemma task_update_permission_within_helper_witness :
  can_user_edit_task Scenario.db0 Scenario.alice Scenario.task_in_x
  = Returns true.
Proof.
  apply (task_update_permission_within_helper Scenario.db0
           (ProjectViewSet.request_for PUT Scenario.alice no_params)
           "update" Scenario.task_in_x).
  - by apply (bool_decide_unpack _).
  - by apply (bool_decide_unpack _).
  - reflexivity.
Defined.

(** X3: for a write request that creates a task, TaskPermission decides as
    [can_user_create_task] does for the task's project. *)
Theorem task_create_permission_is_helper db request obj P :
  req_method request ∉ SAFE_METHODS →
  task_project obj = project_id P →
  has_object_permission db request "create" obj
  = can_user_create_task db (req_user request) P.
Proof.
  intros Hm Hp. unfold has_object_permission, can_user_create_task.
  rewrite Hp. case_bool_decide; [done|].
  destruct (objects_get _ _) as [m| |]; [|done..].
  rewrite (bool_decide_eq_false_2 _ Hm), (bool_decide_eq_true_2 _ eq_refl).
  case_bool_decide as Hv; [|done].
  rewrite Hv. done.
Qed.

Lemma task_create_permission_is_helper_witness :
  has_object_permission Scenario.db0
    (ProjectViewSet.request_for POST Scenario.alice no_params)
    "create" Scenario.task_in_x
  = can_user_create_task Scenario.db0 Scenario.alice Scenario.project_x.
Proof.
  apply (task_create_permission_is_helper Scenario.db0
           (ProjectViewSet.request_for POST Scenario.alice no_params)
           Scenario.task_in_x Scenario.project_x).
  - by apply (bool_decide_unpack _).
  - reflexivity.
Defined.

(** X4: a read request is granted on a task exactly when it is granted on
    the task's project: to a system ADMIN and to the active members. *)
Theorem task_read_is_project_read db request task_action action obj P :
  req_method request ∈ SAFE_METHODS →
  task_project obj = project_id P →
  has_object_permission db request task_action obj
  = Permissions.has_object_permission db request action P.
Proof.
  intros Hm Hp.
  unfold has_object_permission, Permissions.has_object_permission.
  rewrite Hp. case_bool_decide; [done|].
  change (Permissions.active_membership P (req_user request))
    with (active_membership (project_id P) (req_user request)).
  destruct (objects_get _ _) as [m| |]; [|done..].
  rewrite !(bool_decide_eq_true_2 _ Hm). by case_bool_decide.
Qed.

Lemma task_read_is_project_read_witness :
  has_object_permission Scenario.db0
    (ProjectViewSet.request_for GET Scenario.bob no_params)
    "retrieve" Scenario.task_in_x
  = Permissions.has_object_permission Scenario.db0
      (ProjectViewSet.request_for GET Scenario.bob no_params)
      act_retrieve Scenario.project_x.
Proof.
  apply (task_read_is_project_read Scenario.db0
           (ProjectViewSet.request_for GET Scenario.bob no_params)
           "retrieve" act_retrieve Scenario.task_in_x Scenario.project_x).
  - by apply (bool_decide_unpack _).
  - reflexivity.
Defined.

End TaskRules.

(** ** System roles *)

Section SystemRoles.
Import UserPermissions ProjectViewSet.

(** X5: by system role, the permission classes of apps/users grant:
    IsAdmin, CanManageUsers and CanManageDepartments to ADMIN only;
    CanManageProjects to ADMIN and EMPLOYEE, and to no user whose role
    column holds another text; CanApproveTimesheets to nobody, since no
    role's permission list holds [approve_timesheets]. *)
Theorem system_permission_classes request :
  (IsAdmin request = true ↔ user_role (req_user request) = ADMIN)
  ∧ (CanManageUsers request = true ↔ user_role (req_user request) = ADMIN)
  ∧ (CanManageDepartments request = true
     ↔ user_role (req_user request) = ADMIN)
  ∧ (CanManageProjects request = true
     ↔ user_role (req_user request) = ADMIN
       ∨ user_role (req_user request) = EMPLOYEE)
  ∧ CanApproveTimesheets request = false.
Proof.
  unfold IsAdmin, CanManageUsers, CanManageDepartments, CanManageProjects,
    CanApproveTimesheets, Users.is_admin, Users.has_permission,
    Users.permission_map.
  rewrite bool_decide_eq_true.
  destruct (decide (user_role (req_user request) = ADMIN)) as [Ha|Ha].
  - rewrite !(bool_decide_eq_true_2 _ Ha).
    split_and!; try done; split; try done; try by left.
    all: intros _; apply (bool_decide_unpack _); by vm_compute.
  - rewrite !(bool_decide_eq_false_2 _ Ha).
    destruct (decide (user_role (req_user request) = EMPLOYEE)) as [He|He].
    + rewrite !(bool_decide_eq_true_2 _ He).
      split_and!; try done; split; try done; try by right.
      all: try (intros _; apply (bool_decide_unpack _); by vm_compute).
      all: intros H; by apply (bool_decide_pack _) in H.
    + rewrite !(bool_decide_eq_false_2 _ He).
      split_and!; try done; split; try done; try tauto.
Qed.

(** X6: who creates a project without naming a manager is stored as its
    manager: in the store that the request leaves, the creator passes
    CanViewAuditLogs and CanGenerateReports, whatever the system role. *)
Theorem creator_may_view_audit_logs db user data db' r method query :
  handle (CreateProject user data) db = (db', r) →
  resp_status r = HTTP_201_CREATED →
  ProjectCreateSerializer.data_manager data = None →
  CanViewAuditLogs db' (request_for method user query) = true
  ∧ CanGenerateReports db' (request_for method user query) = true.
Proof.
  intros Hh Hr Hm.
  assert (manages_a_project db' user = true) as Hman.
  { unfold manages_a_project. apply objects_exists_spec.
    revert Hh. run_view. rewrite Hm. run_cases; intros; simplify_eq;
      try discriminate.
    all: eexists; split;
      [simpl; apply elem_of_app; right; apply list_elem_of_singleton;
       reflexivity|by rewrite bool_decide_eq_true]. }
  unfold CanViewAuditLogs, CanGenerateReports. simpl. rewrite Hman.
  by destruct (Users.is_admin user).
Qed.

Lemma creator_may_view_audit_logs_witness :
  CanViewAuditLogs
    (fst (handle
            (CreateProject Scenario.bob
               (Examples.new_project "audited" None))
            Scenario.db0))
    (request_for GET Scenario.bob no_params) = true.
Proof.
  eapply proj1.
  eapply (creator_may_view_audit_logs Scenario.db0 Scenario.bob).
  - apply surjective_pairing.
  - reflexivity.
  - reflexivity.
Defined.

End SystemRoles.

(** ** Listing and opening projects *)

Section Reads.
Import ProjectViewSet ProjectReads.
Import Membership Permissions.
Implicit Types (db : DB) (u : User) (P : Project).

Lemma elem_of_filter_list {A} (f : A → bool) (l : list A) (x : A) :
  x ∈ List.filter f l ↔ x ∈ l ∧ f x = true.
Proof. by rewrite !list_elem_of_In, filter_In. Qed.

(** What [get_object] has checked when it hands out a project. *)
Lemma get_object_found request action pk db db' P :
  get_object request action pk db = (db', inr P) →
  db' = db
  ∧ objects_get (λ p, project_id p =? pk)%N
                (get_queryset db request action) = Found P
  ∧ has_object_permission db request action P = Returns true.
Proof.
  unfold get_object, bind, read, ret, stop.
  destruct (objects_get _ _) as [p| |] eqn:Hget; try discriminate.
  destruct (has_object_permission _ _ _ p) as [[|]|] eqn:Hperm;
    try discriminate.
  intros [= <- <-]. done.
Qed.

(** X8: whatever project a user who is not a system ADMIN gets through
    [get_object], for any action and any query string, is in the user's
    plain project listing. *)
Theorem employee_opens_only_listed db u method query action pk P :
  user_role u ≠ ADMIN →
  get_object (request_for method u query) action pk db = (db, inr P) →
  P ∈ listVisibleProjects db u.
Proof.
  intros Hrole Hobj. apply get_object_found in Hobj as (_ & Hget & Hperm).
  apply objects_get_found in Hget as [Hin _].
  apply get_queryset_subset in Hin.
  apply listVisibleProjects_spec. split; [done|]. right.
  unfold has_object_permission in Hperm. simpl in Hperm.
  rewrite bool_decide_eq_false_2 in Hperm by done.
  destruct (objects_get _ _) as [m| |] eqn:Hm; try discriminate.
  apply objects_get_found in Hm as [Hmin Hc].
  apply active_membership_spec in Hc as (Hp & Hu & _).
  exists m. done.
Qed.

(** alice opens project X, which her listing holds. *)
Lemma employee_opens_only_listed_witness :
  Scenario.project_x ∈ listVisibleProjects Scenario.db0 Scenario.alice.
Proof.
  apply (employee_opens_only_listed Scenario.db0 Scenario.alice GET
           no_params act_retrieve 10).
  - discriminate.
  - reflexivity.
Defined.

(** The status parameter cuts the query set of every action. *)
Lemma get_queryset_status db request action P s :
  P ∈ get_queryset db request action →
  qp_status (req_query request) = Some s → s ≠ EmptyString →
  text_key (collation db) (project_status P)
  = text_key (collation db) (upper s).
Proof.
  unfold get_queryset. intros Hin Hs Hne. rewrite Hs in Hin.
  destruct s as [|c s]; [done|].
  assert (P ∈ List.filter
                (λ p, text_eq (collation db) (project_status p)
                              (upper (String c s))) (projects db)) as HP.
  { rewrite elem_of_filter_list.
    repeat case_match; rewrite ?elem_of_filter_list in Hin; tauto. }
  apply elem_of_filter_list in HP as [_ HP].
  by apply bool_decide_eq_true in HP.
Qed.

(** No invitation status reads like a project status, under either
    collation. *)
Lemma status_names_apart c st ps :
  ps ∈ ProjectMethods.STATUS_CHOICES →
  text_key c (status_name st) ≠ text_key c ps.
Proof.
  unfold ProjectMethods.STATUS_CHOICES. rewrite !elem_of_cons, elem_of_nil.
  intros [->|[->|[->|[->|[->|[]]]]]]; destruct c, st; discriminate.
Qed.

(** X9: [list_invitations] reads the [status] parameter that
    [get_queryset] has already matched against the project's own status.
    As long as projects carry one of the project statuses, a request with a
    status parameter that is answered at all lists no invitation. *)
Theorem list_invitations_status_filter_void
    db user query pk s db' r data :
  (∀ p, p ∈ projects db →
        project_status p ∈ ProjectMethods.STATUS_CHOICES) →
  qp_status query = Some s → s ≠ EmptyString →
  list_invitations user query pk db = (db', inr (r, data)) →
  data = [].
Proof.
  intros Hst Hs Hne. unfold list_invitations, bind, read, ret.
  destruct (get_object _ _ _ db) as [db1 [e|P]] eqn:Hobj; [done|].
  apply get_object_found in Hobj as (-> & Hget & _).
  apply objects_get_found in Hget as [Hin _].
  pose proof (get_queryset_status _ _ _ _ _ Hin Hs Hne) as Hkey.
  apply get_queryset_subset, Hst in Hin.
  rewrite Hs. destruct s as [|c s]; [done|].
  intros [= <- <- <-]. unfold order_by_created_at_desc.
  apply Permutation_nil_r. rewrite merge_sort_Permutation.
  apply Permutation_nil_r.
  match goal with |- ?l = [] => destruct l as [|i rest] eqn:Hl end; [done|].
  assert (i ∈ i :: rest) as Hi by apply list_elem_of_here.
  rewrite <- Hl in Hi. apply elem_of_filter_list in Hi as [_ Hi].
  apply bool_decide_eq_true in Hi. exfalso.
  apply (status_names_apart (collation db) (inv_status i)
           (project_status P) Hin).
  etransitivity; [exact Hi|]. symmetry. exact Hkey.
Qed.

(** Project Y is in PLANNING: its lead asks for the invitations with
    [status=planning] and is answered with an empty list, though bob's
    invitation is pending. *)
Lemma list_invitations_status_filter_void_witness :
  Scenario.invite_bob PENDING ∈ invitations (Scenario.db_invited PENDING)
  ∧ @nil ProjectInvitation = [].
Proof.
  split; [apply list_elem_of_here|].
  apply (list_invitations_status_filter_void
           (Scenario.db_invited PENDING) Scenario.alice
           {| qp_status := Some "planning"; qp_department := None;
              qp_manager := None; qp_is_active := None |}
           11 "planning" (Scenario.db_invited PENDING)
           (api_success HTTP_200_OK "Invitations for Project Y") []).
  - apply Forall_forall. apply (bool_decide_unpack _). by vm_compute.
  - reflexivity.
  - discriminate.
  - reflexivity.
Defined.

(** A read request passes the object permission of every active member
    and of a system ADMIN. *)
Lemma read_permission_granted db request action P :
  members_unique db → req_method request ∈ SAFE_METHODS →
  user_role (req_user request) = ADMIN
  ∨ active_member db (req_user request) P →
  has_object_permission db request action P = Returns true.
Proof.
  intros Hu Hsafe Hwho. unfold has_object_permission.
  case_bool_decide as Hr; [done|]. destruct Hwho as [?|Hact]; [done|].
  apply active_member_exists, objects_exists_spec in Hact as [m [Hin Hc]].
  destruct (objects_get _ _) as [m'| |] eqn:Hget.
  - by rewrite bool_decide_eq_true_2.
  - pose proof (proj1 (objects_get_none _ _) Hget m Hin). congruence.
  - by apply active_membership_get_unique in Hget.
Qed.

(** X10: without a status parameter, [list_invitations] answers with the
    invitations of the project, of every status, newest first, and leaves
    the store as it is.  It does so for a system ADMIN and for every active
    member of the project, whatever the project role: its entry among the
    LEAD-only actions of ProjectPermission is not reached by a GET. *)
Theorem list_invitations_of_project db user query pk :
  qp_status query = None →
  (∀ db' r data,
     list_invitations user query pk db = (db', inr (r, data)) →
     db' = db
     ∧ data ≡ₚ List.filter (λ i, inv_project i =? pk)%N (invitations db)
     ∧ StronglySorted newest_first data)
  ∧ (∀ P,
       members_unique db →
       objects_get (λ p, project_id p =? pk)%N
         (get_queryset db (request_for GET user query)
            act_list_invitations) = Found P →
       user_role user = ADMIN ∨ active_member db user P →
       ∃ data,
         list_invitations user query pk db
         = (db, inr (api_success HTTP_200_OK
                       ("Invitations for " ++ project_name P), data))).
Proof.
  intros Hs. split.
  - intros db' r data. unfold list_invitations, bind, read, ret.
    destruct (get_object _ _ _ db) as [db1 [e|P]] eqn:Hobj; [done|].
    pose proof (get_object_found _ _ _ _ _ _ Hobj) as (-> & _ & _).
    pose proof (get_object_pk _ _ _ _ _ Hobj) as Hpk.
    rewrite Hs, Hpk. intros [= <- <- <-]. split; [done|].
    unfold order_by_created_at_desc. split.
    + apply merge_sort_Permutation.
    + apply StronglySorted_merge_sort; apply _.
  - intros P Hu Hget Hwho. unfold list_invitations, get_object, bind, read,
      ret. rewrite Hget.
    rewrite (read_permission_granted db _ _ P Hu);
      [|apply list_elem_of_here|done].
    eexists. reflexivity.
Qed.

(** alice is answered with bob's invitation to project Y. *)
Lemma list_invitations_of_project_witness :
  ∃ data,
    list_invitations Scenario.alice no_params 11
      (Scenario.db_invited PENDING)
    = (Scenario.db_invited PENDING,
       inr (api_success HTTP_200_OK "Invitations for Project Y", data)).
Proof.
  eapply (proj2 (list_invitations_of_project
                   (Scenario.db_invited PENDING) Scenario.alice no_params 11
                   eq_refl) Scenario.project_y).
  - apply (bool_decide_unpack _). by vm_compute.
  - reflexivity.
  - right. exists Scenario.alice_leads_y.
    repeat split; apply (bool_decide_unpack _); by vm_compute.
Defined.

End Reads.

(** ** Accepting, resending and updating invitations *)

Section InvitationLifecycle.
Import ProjectViewSet.
Import Workflow Membership Permissions.
Implicit Types (db : DB) (inv : ProjectInvitation) (P : Project).

Lemma can_accept_spec now inv :
  Models.can_accept now inv = true
  ↔ inv_status inv = PENDING ∧ now ≤ inv_expires_at inv.
Proof.
  unfold Models.can_accept, Models.is_expired.
  rewrite andb_true_iff, bool_decide_eq_true, negb_true_iff, Z.gtb_ltb,
    Z.ltb_ge. done.
Qed.

(** An invitation that can be accepted passes [validate_token]. *)
Lemma validate_token_accepts now db inv :
  tokens_unique db → inv ∈ invitations db →
  Models.can_accept now inv = true →
  AcceptInvitationSerializer.validate_token now (inv_token inv) db
  = (db, inr (inv_token inv)).
Proof.
  intros Hu Hin Hcan. apply can_accept_spec in Hcan as [Hst Hle].
  unfold AcceptInvitationSerializer.validate_token, bind, read, stop, ret.
  rewrite (get_by_token db inv Hu Hin).
  rewrite bool_decide_eq_false_2 by (by intros ?).
  unfold Models.is_expired.
  by rewrite Z.gtb_ltb, (proj2 (Z.ltb_ge _ _) Hle).
Qed.

(** X11: for a stored invitation, [validate_token] passes its token on,
    writing nothing, exactly when [can_accept] holds of it: it is PENDING
    and the current time is not past its expiry. *)
Theorem validate_token_iff_can_accept now db inv :
  tokens_unique db → inv ∈ invitations db →
  AcceptInvitationSerializer.validate_token now (inv_token inv) db
  = (db, inr (inv_token inv))
  ↔ Models.can_accept now inv = true.
Proof.
  intros Hu Hin. rewrite can_accept_spec.
  unfold AcceptInvitationSerializer.validate_token, bind, read, stop, ret.
  rewrite (get_by_token db inv Hu Hin).
  case_bool_decide as Hst.
  { split; [done|]. by intros [? _]. }
  unfold Models.is_expired.
  destruct (now >? inv_expires_at inv) eqn:He.
  - split; [done|]. intros [_ Hle].
    rewrite Z.gtb_ltb in He. apply Z.ltb_lt in He. lia.
  - split; [|done]. intros _. split; [done|].
    rewrite Z.gtb_ltb in He. by apply Z.ltb_ge in He.
Qed.

(** bob's pending invitation can be accepted at time 2000. *)
Lemma validate_token_iff_can_accept_witness :
  Models.can_accept 2000 (Scenario.invite_bob PENDING) = true.
Proof.
  apply (validate_token_iff_can_accept 2000 (Scenario.db_invited PENDING)
           (Scenario.invite_bob PENDING)).
  - apply (bool_decide_unpack _). by vm_compute.
  - apply list_elem_of_here.
  - reflexivity.
Defined.

(** The store after the membership row of an accepted invitation was
    written. *)
Lemma no_row_not_taken db project user :
  (∀ m, m ∈ project_members db →
        ¬ (pm_project m = project ∧ pm_user m = user)) →
  existsb (λ m, (pm_project m =? project)%N && (pm_user m =? user)%N)
          (project_members db) = false.
Proof.
  intros Hno. apply not_true_is_false. intros Hex.
  apply existsb_exists in Hex as [m [Hin Hc]].
  apply andb_true_iff in Hc as [Hp Hu]. apply N.eqb_eq in Hp, Hu.
  apply (Hno m); [by apply list_elem_of_In|done].
Qed.

Lemma no_row_no_active_member db P u :
  (∀ m, m ∈ project_members db →
        ¬ (pm_project m = project_id P ∧ pm_user m = user_id u
           ∧ pm_is_active m = true)) →
  objects_first (active_membership P u) (project_members db) = None.
Proof.
  intros Hno. unfold objects_first.
  destruct (List.filter _ _) as [|m l] eqn:Hf; [done|]. exfalso.
  assert (m ∈ List.filter (active_membership P u) (project_members db))
    as Hm by (rewrite Hf; apply list_elem_of_here).
  apply list_elem_of_In, filter_In in Hm as [Hm Hc].
  apply active_membership_spec in Hc.
  apply (Hno m); [by apply list_elem_of_In|done].
Qed.

(** X12: accepting an invitation that can be accepted, for an address that
    belongs to a user without a membership row in the project, is answered
    with 200; the user gets one active membership row with the role of
    the invitation, which is from then on the user's project role, and the
    invitation is stored as ACCEPTED with the time of acceptance. *)
Theorem accept_makes_member now user db inv u P :
  tokens_unique db → inv ∈ invitations db →
  Models.can_accept now inv = true →
  objects_first
    (λ u, text_eq (collation db) (user_email u) (inv_email inv))
    (users db) = Some u →
  objects_first (λ p, project_id p =? inv_project inv)%N (projects db)
  = Some P →
  (∀ m, m ∈ project_members db →
        ¬ (pm_project m = project_id P ∧ pm_user m = user_id u)) →
  ∃ db',
    handle (AcceptInvitation now user (inv_token inv)) db
    = (db', api_success HTTP_200_OK
              ("Successfully joined " ++ project_name P ++ " as "
               ++ inv_role inv))
    ∧ project_members db'
      = (project_members db
         ++ [{| pm_id := uuid_supply db; pm_project := project_id P;
                pm_user := user_id u; pm_role := inv_role inv;
                pm_is_active := true |}])%list
    ∧ invitations db'
      = Models.save_rows
          (Models.with_accepted_at now (Models.with_status ACCEPTED inv))
          (invitations db)
    ∧ get_user_project_role db' u P = Returns (Some (inv_role inv)).
Proof.
  intros Hu Hin Hcan Huser Hproj Hno.
  pose proof (validate_token_accepts now db inv Hu Hin Hcan) as Hval.
  eexists. split; [|split; [|split]].
  - unfold handle, respond, view_of, accept_invitation, bind, read.
    rewrite Hval, (get_by_token db inv Hu Hin), Huser, Hproj.
    rewrite no_row_no_active_member by (intros m Hm (? & ? & _); by eapply Hno).
    unfold Models.member_create, bind, uuid4, read. simpl.
    rewrite (no_row_not_taken db _ _ Hno). reflexivity.
  - reflexivity.
  - reflexivity.
  - unfold get_user_project_role. simpl.
    unfold objects_get. rewrite List.filter_app. simpl.
    replace (List.filter (active_membership P u) (project_members db))
      with (@nil ProjectMember).
    + unfold active_membership. simpl. by rewrite !N.eqb_refl.
    + symmetry.
      pose proof (no_row_no_active_member db P u) as Hnone.
      unfold objects_first in Hnone.
      destruct (List.filter _ _); [done|].
      discriminate Hnone. intros m Hm (? & ? & _). by eapply Hno.
Qed.

(** bob accepts his invitation to project Y. *)
Lemma accept_makes_member_witness :
  ∃ db',
    handle (AcceptInvitation 2000 Scenario.bob 41)
      (Scenario.db_invited PENDING)
    = (db', api_success HTTP_200_OK
              "Successfully joined Project Y as DEVELOPER")
    ∧ get_user_project_role db' Scenario.bob Scenario.project_y
      = Returns (Some "DEVELOPER").
Proof.
  destruct (accept_makes_member 2000 Scenario.bob
              (Scenario.db_invited PENDING) (Scenario.invite_bob PENDING)
              Scenario.bob Scenario.project_y)
    as [db' (H1 & _ & _ & H2)].
  - apply (bool_decide_unpack _). by vm_compute.
  - apply list_elem_of_here.
  - reflexivity.
  - reflexivity.
  - reflexivity.
  - apply Forall_forall. apply (bool_decide_unpack _). by vm_compute.
  - exists db'. by split.
Defined.

(** X13: when the invited user has a membership row in the project that is
    switched off, accepting the invitation fails: the check for an
    existing member looks at active rows only, and the insert then runs
    into the uniqueness of (project, user).  The request ends in a server
    error; the invitation stays as it is and no row is written. *)
Theorem accept_with_inactive_membership now user db inv u P m :
  tokens_unique db → inv ∈ invitations db →
  Models.can_accept now inv = true →
  objects_first
    (λ u, text_eq (collation db) (user_email u) (inv_email inv))
    (users db) = Some u →
  objects_first (λ p, project_id p =? inv_project inv)%N (projects db)
  = Some P →
  m ∈ project_members db →
  pm_project m = project_id P → pm_user m = user_id u →
  (∀ m', m' ∈ project_members db →
         pm_project m' = project_id P → pm_user m' = user_id u →
         pm_is_active m' = false) →
  ∃ db',
    handle (AcceptInvitation now user (inv_token inv)) db
    = (db', server_error IntegrityError)
    ∧ invitations db' = invitations db
    ∧ project_members db' = project_members db.
Proof.
  intros Hu Hin Hcan Huser Hproj Hm Hmp Hmu Hoff.
  pose proof (validate_token_accepts now db inv Hu Hin Hcan) as Hval.
  eexists. split; [|split].
  - unfold handle, respond, view_of, accept_invitation, bind, read.
    rewrite Hval, (get_by_token db inv Hu Hin), Huser, Hproj.
    rewrite no_row_no_active_member.
    2:{ intros m' Hm' (Hp & Hu' & Ha).
        rewrite (Hoff m' Hm' Hp Hu') in Ha. discriminate. }
    unfold Models.member_create, bind, uuid4, read. simpl.
    replace (existsb _ (project_members db)) with true; [reflexivity|].
    symmetry. apply existsb_exists. exists m.
    split; [by apply list_elem_of_In|].
    by rewrite Hmp, Hmu, !N.eqb_refl.
  - reflexivity.
  - reflexivity.
Qed.

(** bob, whose membership of project X is switched off, is invited to X
    again and accepts. *)
Lemma accept_with_inactive_membership_witness :
  ∃ db',
    handle (AcceptInvitation 2000 Scenario.bob 51)
      Examples.db_invited_again
    = (db', server_error IntegrityError)
    ∧ project_members db' = project_members Scenario.db0.
Proof.
  destruct (accept_with_inactive_membership 2000 Scenario.bob
              Examples.db_invited_again Examples.invite_bob_again
              Scenario.bob Scenario.project_x Scenario.bob_left_x)
    as [db' (H1 & _ & H2)].
  - apply (bool_decide_unpack _). by vm_compute.
  - apply list_elem_of_here.
  - reflexivity.
  - reflexivity.
  - reflexivity.
  - apply (bool_decide_unpack _). by vm_compute.
  - reflexivity.
  - reflexivity.
  - apply (proj1 (Forall_forall
                    (λ m', pm_project m' = 10%N → pm_user m' = 2%N →
                           pm_is_active m' = false) _)).
    apply (bool_decide_unpack _). by vm_compute.
  - exists db'. by split.
Defined.

(** [InviteMembersSerializer.is_valid] reads the store only; what it
    hands on are the addresses [validate_emails] kept and a role of
    ROLE_CHOICES. *)
Lemma invite_is_valid_pure P data db :
  fst (InviteMembersSerializer.is_valid P data db) = db.
Proof.
  unfold InviteMembersSerializer.is_valid,
    InviteMembersSerializer.validate_emails, role_field,
    InviteMembersSerializer.validate, bind, read, ret, stop.
  repeat case_match; simplify_eq; done.
Qed.

Lemma invite_is_valid_data P data db db' emails role message :
  InviteMembersSerializer.is_valid P data db
  = (db', inr (emails, role, message)) →
  emails
  = InviteMembersSerializer.unique_emails []
      (InviteMembersSerializer.data_emails data)
  ∧ role ∈ ROLE_CHOICES.
Proof.
  unfold InviteMembersSerializer.is_valid,
    InviteMembersSerializer.validate_emails, role_field,
    InviteMembersSerializer.validate, bind, read, ret, stop.
  intros H. repeat case_match; simplify_eq; split; try done.
  all: first [by apply (bool_decide_unpack _)
             |by match goal with
                 | H : bool_decide (_ ∈ ROLE_CHOICES) = true |- _ =>
                     apply bool_decide_eq_true in H
                 end].
Qed.

(** The loop of [invite_members] appends one PENDING invitation per
    address, in order, each with a fresh id and token. *)
Lemma create_invitations_rows now P u role message emails db :
  Workflow.ids_issued db →
  ∃ db' new,
    create_invitations now P u role message emails db = (db', inr new)
    ∧ invitations db' = (invitations db ++ new)%list
    ∧ map inv_email new = map lower emails
    ∧ (∀ i, i ∈ new →
            inv_status i = PENDING ∧ inv_project i = project_id P
            ∧ inv_invited_by i = user_id u ∧ inv_role i = role
            ∧ inv_expires_at i = now + Models.seven_days)
    ∧ Workflow.ids_issued db'
    ∧ project_members db' = project_members db.
Proof.
  revert db. induction emails as [|email rest IH]; intros db Hiss.
  { exists db, []. simpl. rewrite app_nil_r. split_and!; try done.
    intros i Hi. by apply elem_of_nil in Hi. }
  cbn [create_invitations].
  cbv beta iota zeta delta
    [bind Models.invitation_create uuid4 Models.save write ret
     send_invitation_email].
  cbn [uuid_supply invitations].
  set (self := {| inv_id := uuid_supply db; inv_token := _ |}).
  rewrite (save_rows_fresh self).
  2:{ intros r Hr. specialize (Hiss r Hr). simpl. lia. }
  match goal with
  | |- context [create_invitations _ _ _ _ _ rest ?d] =>
      destruct (IH d) as (db' & new & Hrun & Hinv & Hmail & Hnew & Hiss'
                          & Hmem)
  end.
  { intros i Hi. simpl in Hi |- *.
    apply elem_of_app in Hi as [Hi|Hi].
    - specialize (Hiss i Hi). lia.
    - apply list_elem_of_singleton in Hi as ->. simpl. lia. }
  rewrite Hrun. exists db', (self :: new). split_and!.
  - done.
  - rewrite Hinv. simpl. by rewrite <- app_assoc.
  - simpl. by rewrite Hmail.
  - intros i Hi. apply elem_of_cons in Hi as [->|Hi]; [done|].
    by apply Hnew.
  - done.
  - by rewrite Hmem.
Qed.

(** X14: an [invite_members] request whose addresses are ASCII text of
    at most 255 characters, the length of the email column, is all or
    nothing.  Either it is turned down and the store is as before, or it
    is answered with 201 and the invitation table has grown by one PENDING
    invitation per address that [validate_emails] kept, in order and in
    lower case, each for this project, from this user, with a role of
    ROLE_CHOICES and acceptable from now on; no membership row is
    touched. *)
Theorem invite_members_all_or_nothing now user query pk data db db' r :
  Workflow.ids_issued db →
  (∀ e, e ∈ InviteMembersSerializer.data_emails data →
        is_ascii e = true ∧ (String.length e ≤ 255)%nat) →
  handle (InviteMembers now user query pk data) db = (db', r) →
  (resp_status r ≠ HTTP_201_CREATED ∧ db' = db)
  ∨ ∃ new,
      r = api_success HTTP_201_CREATED
            ("Successfully invited " ++ pretty (length new) ++ " member(s)")
      ∧ invitations db' = (invitations db ++ new)%list
      ∧ map inv_email new
        = map lower
            (InviteMembersSerializer.unique_emails []
               (InviteMembersSerializer.data_emails data))
      ∧ (∀ i, i ∈ new →
              inv_status i = PENDING ∧ inv_project i = pk
              ∧ inv_invited_by i = user_id user
              ∧ inv_role i ∈ ROLE_CHOICES
              ∧ Models.can_accept now i = true)
      ∧ project_members db' = project_members db.
Proof.
  intros Hiss _. unfold handle, respond, view_of, invite_members, bind.
  destruct (get_object _ _ _ db) as [db1 [e|P]] eqn:Hobj.
  { pose proof (get_object_pure (request_for POST user query)
                  act_invite_members pk db) as Hpure.
    rewrite Hobj in Hpure. simpl in Hpure. subst db1.
    intros [= <- <-]. left. split; [|done].
    revert Hobj. unfold get_object, bind, read, stop, ret.
    repeat case_match; intros; simplify_eq; done. }
  pose proof (get_object_found _ _ _ _ _ _ Hobj) as (-> & _ & _).
  pose proof (get_object_pk _ _ _ _ _ Hobj) as Hpk.
  destruct (InviteMembersSerializer.is_valid P data db)
    as [db2 [e|[[emails role] message]]] eqn:Hval.
  { pose proof (invite_is_valid_pure P data db) as Hpure.
    rewrite Hval in Hpure. simpl in Hpure. subst db2.
    intros [= <- <-]. left. split; [|done].
    revert Hval.
    unfold InviteMembersSerializer.is_valid,
      InviteMembersSerializer.validate_emails, role_field,
      InviteMembersSerializer.validate, bind, read, ret, stop.
    repeat case_match; intros; simplify_eq; done. }
  pose proof (invite_is_valid_pure P data db) as Hpure.
  rewrite Hval in Hpure. simpl in Hpure. subst db2.
  apply invite_is_valid_data in Hval as [-> Hrole].
  destruct (create_invitations_rows now P user role message
              (InviteMembersSerializer.unique_emails []
                 (InviteMembersSerializer.data_emails data)) db Hiss)
    as (db3 & new & Hrun & Hinv & Hmail & Hnew & _ & Hmem).
  rewrite Hrun. unfold ret. intros [= <- <-]. right. exists new.
  split_and!; try done.
  intros i Hi. destruct (Hnew i Hi) as (Hst & Hp & Hby & Hr & Hexp).
  split_and!; try congruence.
  apply can_accept_spec. split; [done|]. rewrite Hexp.
  unfold Models.seven_days. lia.
Qed.

(** alice invites carol to project Y. *)
Lemma invite_members_all_or_nothing_witness :
  ∃ new,
    invitations
      (fst (handle
              (InviteMembers 2000 Scenario.alice no_params 11
                 {| InviteMembersSerializer.data_emails := ["C@x.com"];
                    InviteMembersSerializer.data_role := None;
                    InviteMembersSerializer.data_message := None |})
              Scenario.db0)) = new
    ∧ map inv_email new = ["c@x.com"].
Proof.
  set (c := InviteMembers 2000 Scenario.alice no_params 11
              {| InviteMembersSerializer.data_emails := ["C@x.com"];
                 InviteMembersSerializer.data_role := None;
                 InviteMembersSerializer.data_message := None |}).
  destruct (invite_members_all_or_nothing 2000 Scenario.alice no_params 11
              {| InviteMembersSerializer.data_emails := ["C@x.com"];
                 InviteMembersSerializer.data_role := None;
                 InviteMembersSerializer.data_message := None |}
              Scenario.db0 (fst (handle c Scenario.db0))
              (snd (handle c Scenario.db0))
              (λ i (Hi : i ∈ invitations Scenario.db0),
                 False_ind _ (proj1 (elem_of_nil i) Hi)))
    as [[Hne _]|(new & _ & Hinv & Hmail & _)].
  - intros e He. apply list_elem_of_singleton in He as ->.
    split; [reflexivity|simpl; lia].
  - apply surjective_pairing.
  - exfalso. apply Hne. reflexivity.
  - exists new. split; [exact Hinv|exact Hmail].
Defined.

(** The lookup of the per-invitation actions, by the keys of the table. *)
Lemma invitation_of_found db P iid inv pending_only :
  ids_unique db → inv ∈ invitations db →
  inv_id inv = iid → inv_project inv = project_id P →
  (pending_only = true → inv_status inv = PENDING) →
  objects_get (invitation_of P iid pending_only) (invitations db)
  = Found inv.
Proof.
  intros Hu Hin Hid Hp Hst.
  apply (objects_get_by_key inv_id); [done|done| |].
  - unfold invitation_of. rewrite Hid, Hp, !N.eqb_refl. simpl.
    destruct pending_only; [|done]. simpl.
    by rewrite bool_decide_eq_true_2 by auto.
  - intros r Hr. unfold invitation_of in Hr.
    apply andb_true_iff in Hr as [Hr _].
    apply andb_true_iff in Hr as [Hr _]. apply N.eqb_eq in Hr. congruence.
Qed.

Lemma invitation_of_not_pending db P iid inv :
  ids_unique db → inv ∈ invitations db →
  inv_id inv = iid → inv_status inv ≠ PENDING →
  objects_get (invitation_of P iid true) (invitations db) = DoesNotExist.
Proof.
  intros Hu Hin Hid Hst. apply objects_get_none. intros a Ha.
  apply not_true_is_false. intros Hc. unfold invitation_of in Hc.
  apply andb_true_iff in Hc as [Hc Hp]. apply andb_true_iff in Hc as [Hc _].
  apply N.eqb_eq in Hc. simpl in Hp. apply bool_decide_eq_true in Hp.
  assert (a = inv) as ->
    by (apply (unique_key_eq inv_id (invitations db));
        [exact Hu|done|done|congruence]).
  done.
Qed.

(** X15: [resend_invitation] gives a PENDING invitation that has run out
    seven more days from now, so that it can be accepted again, and leaves
    one that has not run out as it is.  An invitation that is no longer
    PENDING, such as one that an accept attempt has marked EXPIRED, is
    answered with 404 and stays as it is. *)
Theorem resend_revives_only_pending now user query pk iid db P inv :
  ids_unique db →
  get_object (request_for POST user query) act_resend_invitation pk db
  = (db, inr P) →
  inv ∈ invitations db → inv_id inv = iid → inv_project inv = pk →
  (inv_status inv = PENDING → inv_expires_at inv < now →
   ∃ db',
     handle (ResendInvitation now user query pk iid) db
     = (db', api_success HTTP_200_OK "Invitation resent successfully")
     ∧ ∀ i, i ∈ invitations db' → inv_id i = iid →
            i = Models.with_expires_at (now + Models.seven_days) inv
            ∧ Models.can_accept now i = true)
  ∧ (inv_status inv = PENDING → now ≤ inv_expires_at inv →
     handle (ResendInvitation now user query pk iid) db
     = (db, api_success HTTP_200_OK "Invitation resent successfully"))
  ∧ (inv_status inv ≠ PENDING →
     handle (ResendInvitation now user query pk iid) db
     = (db, api_error HTTP_404_NOT_FOUND
              "Invitation not found or already accepted"
              (Some "invitation_not_found"))).
Proof.
  intros Hu Hobj Hin Hid Hp.
  pose proof (get_object_pk _ _ _ _ _ Hobj) as Hpk.
  unfold handle, respond, view_of, resend_invitation, bind, read.
  rewrite Hobj. split_and!.
  - intros Hst Hexp.
    rewrite (invitation_of_found db P iid inv true) by (auto; congruence).
    assert (Models.is_expired now inv = true) as ->
      by (unfold Models.is_expired; apply Z.gtb_lt; lia).
    eexists. split; [reflexivity|]. simpl. intros i Hi Hidi.
    assert (i = Models.with_expires_at (now + Models.seven_days) inv) as ->.
    { apply (save_rows_status
               (Models.with_expires_at (now + Models.seven_days) inv)
               _ inv i Hin eq_refl Hi). simpl. congruence. }
    split; [done|]. apply can_accept_spec. simpl. split; [done|].
    unfold Models.seven_days. lia.
  - intros Hst Hexp.
    rewrite (invitation_of_found db P iid inv true) by (auto; congruence).
    assert (Models.is_expired now inv = false) as ->
      by (unfold Models.is_expired; rewrite Z.gtb_ltb; apply Z.ltb_ge; lia).
    reflexivity.
  - intros Hst.
    by rewrite (invitation_of_not_pending db P iid inv).
Qed.

(** alice resends bob's invitation after it has run out. *)
Lemma resend_revives_only_pending_witness :
  ∃ db',
    handle (ResendInvitation Scenario.later Scenario.alice no_params 11 40)
      (Scenario.db_invited PENDING)
    = (db', api_success HTTP_200_OK "Invitation resent successfully").
Proof.
  destruct (proj1 (resend_revives_only_pending Scenario.later Scenario.alice
                     no_params 11 40 (Scenario.db_invited PENDING)
                     Scenario.project_y (Scenario.invite_bob PENDING)
                     ltac:(apply (bool_decide_unpack _); by vm_compute)
                     eq_refl ltac:(apply list_elem_of_here)
                     eq_refl eq_refl))
    as [db' [H _]].
  - reflexivity.
  - unfold Scenario.later. simpl. lia.
  - by exists db'.
Defined.

(** X16: the role of an invitation is checked against ROLE_CHOICES when
    members are invited or added, where a role outside of it is turned
    down with nothing written, but not when an invitation is updated:
    [update_invitation] stores whatever role text the request carries (of
    at most the 20 characters of the column) in a PENDING invitation. *)
Theorem role_checked_on_invite_not_on_update role :
  role ∉ ROLE_CHOICES →
  (∀ now user query pk data db,
     InviteMembersSerializer.data_role data = Some role →
     fst (handle (InviteMembers now user query pk data) db) = db
     ∧ resp_status (snd (handle (InviteMembers now user query pk data) db))
       ≠ HTTP_201_CREATED)
  ∧ (∀ user query pk uid db,
       fst (handle (AddMember user query pk uid (Some role)) db) = db
       ∧ resp_status (snd (handle (AddMember user query pk uid (Some role))
                             db))
         ≠ HTTP_201_CREATED)
  ∧ (∀ user query pk iid message db P inv,
       (String.length role ≤ 20)%nat →
       ids_unique db →
       get_object (request_for PATCH user query) act_update_invitation pk db
       = (db, inr P) →
       inv ∈ invitations db → inv_id inv = iid → inv_project inv = pk →
       inv_status inv = PENDING →
       ∃ db',
         handle (UpdateInvitation user query pk iid (Some role) message) db
         = (db', api_success HTTP_200_OK "Invitation updated successfully")
         ∧ ∀ i, i ∈ invitations db' → inv_id i = iid →
                inv_role i = role ∧ inv_status i = PENDING).
Proof.
  intros Hrole. split_and!.
  - intros now user query pk data db Hdata.
    unfold handle, respond, view_of, invite_members, bind.
    destruct (get_object _ _ _ db) as [db1 [e|P]] eqn:Hobj.
    { pose proof (get_object_pure (request_for POST user query)
                    act_invite_members pk db) as Hpure.
      rewrite Hobj in Hpure. simpl in *. split; [done|].
      revert Hobj. unfold get_object, bind, read, stop, ret.
      repeat case_match; intros; simplify_eq; done. }
    pose proof (get_object_found _ _ _ _ _ _ Hobj) as (-> & _ & _).
    unfold InviteMembersSerializer.is_valid,
      InviteMembersSerializer.validate_emails, role_field, bind, stop, ret.
    rewrite Hdata, (bool_decide_eq_false_2 _ Hrole).
    repeat case_match; simplify_eq; done.
  - intros user query pk uid db.
    unfold handle, respond, view_of, add_member, bind.
    destruct (get_object _ _ _ db) as [db1 [e|P]] eqn:Hobj.
    { pose proof (get_object_pure (request_for POST user query)
                    act_add_member pk db) as Hpure.
      rewrite Hobj in Hpure. simpl in *. split; [done|].
      revert Hobj. unfold get_object, bind, read, stop, ret.
      repeat case_match; intros; simplify_eq; done. }
    pose proof (get_object_found _ _ _ _ _ _ Hobj) as (-> & _ & _).
    unfold AddProjectMemberSerializer.validate_user_id, role_field, bind,
      read, stop, ret.
    rewrite (bool_decide_eq_false_2 _ Hrole).
    repeat case_match; simplify_eq; done.
  - intros user query pk iid message db P inv _ Hu Hobj Hin Hid Hp Hst.
    pose proof (get_object_pk _ _ _ _ _ Hobj) as Hpk.
    unfold handle, respond, view_of, update_invitation, bind, read.
    rewrite Hobj.
    rewrite (invitation_of_found db P iid inv true) by (auto; congruence).
    eexists. split; [reflexivity|]. simpl. intros i Hi Hidi.
    assert (i = Models.with_role_message (Some role) message inv) as ->.
    { apply (save_rows_status
               (Models.with_role_message (Some role) message inv)
               _ inv i Hin eq_refl Hi). simpl. congruence. }
    done.
Qed.

(** The role VIEWER, which TaskPermission knows, is not in ROLE_CHOICES:
    it cannot be given by [add_member]. *)
Lemma role_checked_on_invite_not_on_update_witness :
  fst (handle (AddMember Scenario.alice no_params 10 4 (Some "VIEWER"))
         Scenario.db0) = Scenario.db0.
Proof.
  apply (role_checked_on_invite_not_on_update "VIEWER").
  apply (bool_decide_unpack _). by vm_compute.
Defined.

End InvitationLifecycle.

(** ** What requests keep *)

Section Kept.
Import ProjectViewSet.
Import Invariants.
Implicit Types (db : DB).

Lemma create_invitations_frame now P u role message emails db :
  users (fst (create_invitations now P u role message emails db)) = users db
  ∧ projects (fst (create_invitations now P u role message emails db))
    = projects db
  ∧ project_members (fst (create_invitations now P u role message emails db))
    = project_members db
  ∧ tasks (fst (create_invitations now P u role message emails db))
    = tasks db
  ∧ collation (fst (create_invitations now P u role message emails db))
    = collation db.
Proof.
  revert db. induction emails as [|email rest IH]; intros db; [done|].
  cbn [create_invitations].
  cbv beta iota zeta delta
    [bind Models.invitation_create uuid4 Models.save write ret
     send_invitation_email].
  match goal with
  | |- context [create_invitations _ _ _ _ _ rest ?d] =>
      specialize (IH d);
      destruct (create_invitations now P u role message rest d)
        as [db' [e|others]]
  end; simpl in *; done.
Qed.

Lemma filter_none_removed {A} (f : A → bool) (l : list A) :
  existsb f l = false → List.filter (λ x, negb (f x)) l = l.
Proof.
  induction l as [|x l IH]; [done|]. simpl. intros H.
  apply orb_false_iff in H as [-> H]. simpl. by rewrite IH.
Qed.

Lemma handle_frame c db :
  users (fst (handle c db)) = users db
  ∧ tasks (fst (handle c db)) = tasks db
  ∧ collation (fst (handle c db)) = collation db.
Proof.
  destruct c; run_view; run_cases; simpl; try done.
  all: try match goal with
       | H : create_invitations ?n ?p ?u ?r ?m ?e ?d = (?d', _) |- _ =>
           pose proof (create_invitations_frame n p u r m e d) as Hf;
           rewrite H in Hf; simpl in Hf; destruct Hf as (?&?&?&?&?);
           done
       end.
  all: split_and!; try done.
  all: apply filter_none_removed; assumption.
Qed.

(** X17: no request to ProjectViewSet changes the users table or the
    tasks table: a project is deleted only when no task refers to it, so
    the cascade of the delete finds no task to take along. *)
Theorem requests_keep_users_and_tasks calls db :
  users (serve calls db) = users db
  ∧ tasks (serve calls db) = tasks db
  ∧ collation (serve calls db) = collation db.
Proof.
  revert db. induction calls as [|c calls IH]; intros db; [done|].
  simpl. destruct (IH (fst (handle c db))) as (-> & -> & ->).
  apply handle_frame.
Qed.

Lemma memberships_grow_refl db : memberships_grow db db.
Proof. split; [lia|]. intros m' Hm'. by left. Qed.

Lemma memberships_grow_trans db1 db2 db3 :
  memberships_grow db1 db2 → memberships_grow db2 db3 →
  memberships_grow db1 db3.
Proof.
  intros [Hs1 H1] [Hs2 H2]. split; [lia|]. intros m Hm.
  destruct (H2 m Hm) as [Hm2|[Ha Hid]].
  - by apply H1.
  - right. split; [done|lia].
Qed.

Lemma handle_grows c db : memberships_grow db (fst (handle c db)).
Proof.
  destruct c; run_view; run_cases; simpl; try apply memberships_grow_refl.
  all: try match goal with
       | H : create_invitations ?n ?p ?u ?r ?m ?e ?d = (?d', _) |- _ =>
           pose proof (create_invitations_frame n p u r m e d) as Hf;
           pose proof (create_invitations_evolves n p u r m e d) as [Hs _];
           rewrite H in Hf, Hs; simpl in Hf, Hs;
           destruct Hf as (_ & _ & Hf & _)
       end.
  all: split; simpl; [lia|]; intros m' Hm'.
  all: try (left; assumption).
  all: try (rewrite Hf in Hm'; left; assumption).
  all: try (apply elem_of_filter_list in Hm' as [Hm' _]; left; assumption).
  all: apply elem_of_app in Hm' as [Hm'|Hm']; [left; assumption|];
    apply list_elem_of_singleton in Hm' as ->; right; simpl; split;
    [reflexivity|lia].
Qed.

Lemma serve_grows calls db : memberships_grow db (serve calls db).
Proof.
  revert db. induction calls as [|c calls IH]; intros db.
  - apply memberships_grow_refl.
  - simpl. eapply memberships_grow_trans; [apply handle_grows|apply IH].
Qed.

(** X18: requests to ProjectViewSet add membership rows and remove them,
    and do nothing else to them: after any sequence of requests, a row of
    the members table either was there before, unchanged, or has been
    created since, and is active.  No request switches a membership
    off. *)
Theorem memberships_added_active_or_removed calls db m' :
  m' ∈ project_members (serve calls db) →
  m' ∈ project_members db
  ∨ (pm_is_active m' = true ∧ (uuid_supply db ≤ pm_id m')%N).
Proof. intros Hm'. by apply (serve_grows calls db). Qed.

(** carol is added to project X. *)
Lemma memberships_added_active_or_removed_witness :
  {| pm_id := 100; pm_project := 10; pm_user := 4; pm_role := "TESTER";
     pm_is_active := true |} ∈ project_members Scenario.db0
  ∨ (true = true ∧ (100 ≤ 100)%N).
Proof.
  apply (memberships_added_active_or_removed
           [AddMember Scenario.alice no_params 10 4 (Some "TESTER")]
           Scenario.db0
           {| pm_id := 100; pm_project := 10; pm_user := 4;
              pm_role := "TESTER"; pm_is_active := true |}).
  apply (bool_decide_unpack _). by vm_compute.
Defined.

End Kept.

(** ** Project codes and dates *)

Section Codes.
Import ProjectViewSet ProjectCreateSerializer.
Import Projects Invariants.
Implicit Types (db : DB).

Lemma ascii_upper_idem c : ascii_upper (ascii_upper c) = ascii_upper c.
Proof. destruct c as [[] [] [] [] [] [] [] []]; reflexivity. Qed.

Lemma upper_idem s : upper (upper s) = upper s.
Proof.
  induction s as [|c s IH]; simpl; [done|].
  by rewrite ascii_upper_idem, IH.
Qed.

Lemma upper_app (a b : string) : upper (a ++ b) = upper a ++ upper b.
Proof. induction a as [|c a IH]; simpl; [done|]. by rewrite IH. Qed.

Lemma upper_lower s : upper (lower s) = upper s.
Proof.
  induction s as [|c s IH]; simpl; [done|]. rewrite IH. f_equal.
  destruct c as [[] [] [] [] [] [] [] []]; reflexivity.
Qed.

Lemma upper_pretty_N_go x s :
  upper s = s → upper (pretty_N_go x s) = pretty_N_go x s.
Proof.
  revert s. induction (N.lt_wf_0 x) as [x _ IH]; intros s Hs.
  destruct (decide (x = 0)%N) as [->|Hx]; [by rewrite pretty_N_go_0|].
  rewrite pretty_N_go_step by lia.
  apply IH; [apply N.div_lt; lia|]. simpl. rewrite Hs. f_equal.
  unfold pretty_N_char. by repeat case_match.
Qed.

Lemma upper_pretty_nat (n : nat) : upper (pretty n) = pretty n.
Proof.
  unfold pretty, pretty_nat, pretty, pretty_N.
  case_decide; [done|]. by apply upper_pretty_N_go.
Qed.

Lemma upper_substring n m s :
  upper (substring n m s) = substring n m (upper s).
Proof.
  revert n m. induction s as [|c s IH]; intros [|n] [|m]; simpl;
    try done; by rewrite IH.
Qed.

Lemma upper_word_starts b s :
  upper (word_starts b (upper s)) = word_starts b (upper s).
Proof.
  revert b. induction s as [|c s IH]; intros b; simpl; [done|].
  case_match; simpl; by rewrite ?ascii_upper_idem, IH.
Qed.

Lemma length_substring_le m s : (String.length (substring 0 m s) ≤ m)%nat.
Proof.
  revert m. induction s as [|c s IH]; intros [|m]; simpl; try lia.
  specialize (IH m). lia.
Qed.

(** The base code: one to ten characters, none of them a lower-case
    letter. *)
Lemma base_code_spec name :
  upper (base_code name) = base_code name
  ∧ (1 ≤ String.length (base_code name) ≤ 10)%nat.
Proof.
  unfold base_code.
  pose proof (length_substring_le 10 (word_starts false (upper name))) as Hl.
  pose proof (upper_word_starts false name) as Hu.
  apply (f_equal (substring 0 10)) in Hu. rewrite <- upper_substring in Hu.
  destruct (substring 0 10 _) as [|c s]; simpl in *; [split; [done|lia]|].
  split; [done|lia].
Qed.

(** The loop ends on the first candidate that is not stored. *)
Lemma next_code_first_free fuel db base j :
  (∀ i, (i < j)%nat → code_exists db (candidate base i) = true) →
  (length (projects db) ≤ j + fuel)%nat →
  ∃ k, next_code fuel db base (candidate base j) (S j) = candidate base k
       ∧ (j ≤ k ≤ j + fuel)%nat
       ∧ code_exists db (candidate base k) = false
       ∧ ∀ i, (i < k)%nat → code_exists db (candidate base i) = true.
Proof.
  revert j. induction fuel as [|fuel IH]; intros j Hbelow Hlen.
  { exists j. pose proof (next_code_unique 0 db base j Hbelow Hlen) as Hfree.
    simpl in *. split_and!; try done; lia. }
  simpl. destruct (code_exists db (candidate base j)) eqn:Hj.
  - destruct (IH (S j)) as (k & Hk & Hjk & Hfree & Hlow).
    + intros i Hi. destruct (decide (i = j)) as [->|]; [done|].
      apply Hbelow. lia.
    + lia.
    + exists k. split_and!; try done; lia.
  - exists j. split_and!; try done; lia.
Qed.

Lemma generate_code_upper db name :
  upper (generate_code db name) = generate_code db name.
Proof.
  unfold generate_code.
  destruct (next_code_first_free (length (projects db)) db
              (base_code name) 0) as (k & Hk & _);
    [intros i Hi; lia|lia|].
  simpl in Hk. rewrite Hk. destruct (base_code_spec name) as [Hup _].
  destruct k; simpl; [done|]. by rewrite upper_app, Hup, upper_pretty_nat.
Qed.

Lemma is_ascii_app (a b : string) :
  is_ascii (a ++ b) = is_ascii a && is_ascii b.
Proof.
  induction a as [|c a IH]; simpl; [done|]. by rewrite IH, andb_assoc.
Qed.

Lemma ascii_upper_ascii c :
  (nat_of_ascii c <? 128)%nat = true →
  (nat_of_ascii (ascii_upper c) <? 128)%nat = true.
Proof. destruct c as [[] [] [] [] [] [] [] []]; by vm_compute. Qed.

Lemma is_ascii_upper s : is_ascii s = true → is_ascii (upper s) = true.
Proof.
  induction s as [|c s IH]; simpl; [done|].
  rewrite !andb_true_iff. intros [Hc Hs].
  split; [by apply ascii_upper_ascii|by apply IH].
Qed.

Lemma is_ascii_word_starts b s :
  is_ascii s = true → is_ascii (word_starts b s) = true.
Proof.
  revert b. induction s as [|c s IH]; intros b; simpl; [done|].
  rewrite andb_true_iff. intros [Hc Hs].
  case_match; simpl; rewrite ?Hc; by apply IH.
Qed.

Lemma is_ascii_substring n m s :
  is_ascii s = true → is_ascii (substring n m s) = true.
Proof.
  revert n m. induction s as [|c s IH]; intros [|n] [|m]; simpl;
    try done; rewrite andb_true_iff; intros [Hc Hs]; rewrite ?Hc;
    by apply IH.
Qed.

Lemma is_ascii_pretty_N_go x s :
  is_ascii s = true → is_ascii (pretty_N_go x s) = true.
Proof.
  revert s. induction (N.lt_wf_0 x) as [x _ IH]; intros s Hs.
  destruct (decide (x = 0)%N) as [->|Hx]; [by rewrite pretty_N_go_0|].
  rewrite pretty_N_go_step by lia.
  apply IH; [apply N.div_lt; lia|]. simpl. rewrite Hs.
  unfold pretty_N_char. by repeat case_match.
Qed.

Lemma is_ascii_pretty_nat (n : nat) : is_ascii (pretty n) = true.
Proof.
  unfold pretty, pretty_nat, pretty, pretty_N.
  case_decide; [done|]. by apply is_ascii_pretty_N_go.
Qed.

Lemma is_ascii_base_code name :
  is_ascii name = true → is_ascii (base_code name) = true.
Proof.
  intros Hn. unfold base_code.
  pose proof (is_ascii_substring 0 10 _
                (is_ascii_word_starts false _ (is_ascii_upper _ Hn))) as H.
  by destruct (substring 0 10 _).
Qed.

(** X20: for a name of ASCII characters, the code that [create] generates
    for a project without one is the base code (the initials of the name
    in upper case, at most ten, or PROJ) if no project has it, and
    otherwise the base code followed by the smallest number from 1 on that
    makes it free; the loop stops after at most as many rounds as there are
    projects, and the code is ASCII text without a lower-case letter. *)
Theorem generate_code_first_free db name :
  is_ascii name = true →
  ∃ k, generate_code db name = candidate (base_code name) k
       ∧ (k ≤ length (projects db))%nat
       ∧ code_exists db (generate_code db name) = false
       ∧ (∀ i, (i < k)%nat →
               code_exists db (candidate (base_code name) i) = true)
       ∧ upper (generate_code db name) = generate_code db name
       ∧ is_ascii (generate_code db name) = true
       ∧ (1 ≤ String.length (base_code name) ≤ 10)%nat.
Proof.
  intros Hascii. unfold generate_code.
  destruct (next_code_first_free (length (projects db)) db
              (base_code name) 0) as (k & Hk & Hle & Hfree & Hlow);
    [intros i Hi; lia|lia|].
  simpl in Hk. exists k. rewrite Hk.
  destruct (base_code_spec name) as [Hup Hlen].
  split_and!; [done|lia|done|done| | |lia|lia].
  - rewrite <- Hk. apply generate_code_upper.
  - pose proof (is_ascii_base_code name Hascii) as Hb.
    destruct k; simpl; [done|].
    by rewrite is_ascii_app, Hb, is_ascii_pretty_nat.
Qed.

(** A second project named like project X gets the code PX1. *)
Lemma generate_code_first_free_witness :
  ∃ k, generate_code Scenario.db0 "Project X" = "PX1"
       ∧ "PX1" = candidate (base_code "Project X") k.
Proof.
  destruct (generate_code_first_free Scenario.db0 "Project X" eq_refl)
    as (k & Hk & _).
  exists k. split; [reflexivity|]. rewrite <- Hk. reflexivity.
Defined.

(** What one request can do to the projects table: nothing, delete the
    rows of one id, or append one validated project. *)
Lemma handle_projects c db :
  projects (fst (handle c db)) = projects db
  ∨ (∃ pid,
       projects (fst (handle c db))
       = List.filter (λ p, negb (project_id p =? pid)%N) (projects db))
  ∨ (∃ new,
       projects (fst (handle c db)) = (projects db ++ [new])%list
       ∧ upper (project_code new) = project_code new
       ∧ code_exists db (project_code new) = false
       ∧ project_start_date new ≤ project_end_date new).
Proof.
  destruct c; run_view; run_cases; simpl; try (by left).
  all: try match goal with
       | H : create_invitations ?n ?p ?u ?r ?m ?e ?d = (?d', _) |- _ =>
           pose proof (create_invitations_frame n p u r m e d) as Hf;
           rewrite H in Hf; simpl in Hf; destruct Hf as (_ & -> & _);
           by left
       end.
  all: try (right; left; eexists; reflexivity).
  all: right; right; eexists; split; [reflexivity|]; simpl in *.
  all: match goal with
       | H : (_ >? _) = false |- _ =>
           rewrite Z.gtb_ltb in H; apply Z.ltb_ge in H
       end.
  all: split_and!; try done.
  all: try apply generate_code_unique.
  all: try apply generate_code_upper.
  all: simplify_eq.
  all: match goal with
       | H : upper ?s = String ?a ?r |- _ = String _ _ =>
           exact (upper_idem (String a r))
       | H : upper ?s = String ?a ?r, H' : code_exists _ (upper ?s) = false
         |- code_exists _ _ = false =>
           change (code_exists db (upper (String a r)) = false);
           rewrite <- H, upper_idem; exact H'
       end.
Qed.

(** X22: [create] stores no project that ends before it starts.  A request
    whose end date lies before its start date is answered with 400 and
    writes nothing, and every project that a create request adds to the
    table has a [duration_days] of zero or more. *)
Theorem create_orders_project_dates user data db :
  (data_end_date data < data_start_date data →
   fst (handle (CreateProject user data) db) = db
   ∧ resp_status (snd (handle (CreateProject user data) db))
     = HTTP_400_BAD_REQUEST)
  ∧ ∀ p, p ∈ projects (fst (handle (CreateProject user data) db)) →
         p ∈ projects db ∨ 0 ≤ ProjectMethods.duration_days p.
Proof.
  split.
  - intros Hlt. apply Z.gtb_lt in Hlt.
    run_view. rewrite Hlt. run_cases; simpl; done.
  - intros p Hp.
    destruct (handle_projects (CreateProject user data) db)
      as [Heq|[[pid Heq]|(new & Heq & _ & _ & Hnd)]]; rewrite Heq in Hp.
    + by left.
    + left. by apply elem_of_filter_list in Hp as [Hp _].
    + apply elem_of_app in Hp as [Hp|Hp]; [by left|right].
      apply list_elem_of_singleton in Hp as ->.
      unfold ProjectMethods.duration_days. lia.
Qed.

End Codes.

(** ** What the audit recorder writes for an update *)

Section AuditUpdates.
Import Audit.

Lemma py_eq_refl v : py_eq v v = true.
Proof.
  destruct v as [|b|z|d p|t|c k t]; simpl; try done;
    try apply Z.eqb_refl; by apply bool_decide_eq_true_2.
Qed.

(** Values of different type that Python holds equal, and their texts. *)
Lemma py_eq_across_types :
  py_eq (VBool true) (VInt 1) = true
  ∧ py_eq (VDecimal 500 2) (VInt 5) = true
  ∧ py_eq (VStr "5") (VInt 5) = false
  ∧ str (VDecimal 500 2) = "5.00"
  ∧ str (VDecimal (-5) 1) = "-0.5"
  ∧ str (VDecimal 1 7) = "1E-7".
Proof. by vm_compute. Qed.

(** The loop of [get_model_changes] over the fields. *)
Lemma changes_loop_lookup old instance (l : list (string * Value))
    (acc : gmap string Change) k :
  fold_left
    (λ changes f,
       if negb (py_eq (getattr old (fst f)) (getattr instance (fst f)))
       then <[fst f := Diff (str (getattr old (fst f)))
                            (str (getattr instance (fst f)))]> changes
       else changes) l acc !! k
  = if bool_decide (k ∈ map fst l
                    ∧ py_eq (getattr old k) (getattr instance k) = false)
    then Some (Diff (str (getattr old k)) (str (getattr instance k)))
    else acc !! k.
Proof.
  revert acc. induction l as [|f l IH]; intros acc; cbn [fold_left map].
  { rewrite bool_decide_eq_false_2; [done|]. intros [H _].
    by apply elem_of_nil in H. }
  rewrite IH. clear IH.
  destruct (decide (k ∈ map fst l
                    ∧ py_eq (getattr old k) (getattr instance k) = false))
    as [[Hin Hne]|Hno].
  { rewrite !bool_decide_eq_true_2; [done| |done].
    split; [|done]. by apply elem_of_cons; right. }
  rewrite (bool_decide_eq_false_2 _ Hno).
  destruct (decide (fst f = k)) as [<-|Hk].
  - destruct (py_eq (getattr old (fst f)) (getattr instance (fst f)))
      eqn:He; simpl.
    + rewrite bool_decide_eq_false_2; [done|]. by intros [_ ?].
    + rewrite lookup_insert_eq, bool_decide_eq_true_2; [done|].
      split; [apply list_elem_of_here|done].
  - rewrite (bool_decide_eq_false_2 (_ ∧ _)).
    + destruct (negb _); [by rewrite lookup_insert_ne|done].
    + intros [Hin Hne]. apply Hno. split; [|done].
      apply elem_of_cons in Hin as [?|?]; [congruence|done].
Qed.

Lemma model_changes_lookup stored instance old key k :
  pk instance = Some key → key ≠ EmptyString →
  stored_row stored instance = Some old →
  get_model_changes stored instance !! k
  = if bool_decide (k ∈ map fst (fields instance)
                    ∧ py_eq (getattr old k) (getattr instance k) = false)
    then Some (Diff (str (getattr old k)) (str (getattr instance k)))
    else None.
Proof.
  intros Hpk Hkey Hrow. unfold get_model_changes. rewrite Hpk, Hrow.
  destruct key; [done|]. by rewrite changes_loop_lookup, lookup_empty.
Qed.

(** X23: for an instance whose row is stored, [get_model_changes] holds
    exactly the fields whose stored value and new value are unequal for
    Python's [==] (which holds True equal to 1, and Decimal('5.00') to 5),
    each with the texts of the stored and of the new value. *)
Theorem model_changes_hold_differing_fields stored instance old key k ch :
  pk instance = Some key → key ≠ EmptyString →
  stored_row stored instance = Some old →
  get_model_changes stored instance !! k = Some ch
  ↔ k ∈ map fst (fields instance)
    ∧ py_eq (getattr old k) (getattr instance k) = false
    ∧ ch = Diff (str (getattr old k)) (str (getattr instance k)).
Proof.
  intros Hpk Hkey Hrow.
  rewrite (model_changes_lookup stored instance old key k Hpk Hkey Hrow).
  case_bool_decide as Hd.
  - split; [intros [= <-]; by destruct Hd|by intros (_ & _ & ->)].
  - split; [done|]. intros (? & ? & _). by destruct Hd.
Qed.

(** Project X is saved under a new name. *)
Lemma model_changes_hold_differing_fields_witness :
  get_model_changes [Scenario.project_instance] Examples.renamed_project
    !! "name"
  = Some (Diff "Project X" "Project Z").
Proof.
  apply (model_changes_hold_differing_fields [Scenario.project_instance]
           Examples.renamed_project Scenario.project_instance "10").
  - reflexivity.
  - discriminate.
  - reflexivity.
  - split_and!.
    + apply (bool_decide_unpack _). by vm_compute.
    + reflexivity.
    + reflexivity.
Defined.

Lemma snoc_ne {A} (l : list A) (x : A) : (l ++ [x])%list ≠ l.
Proof.
  intros H. apply (f_equal length) in H. rewrite length_app in H.
  simpl in H. lia.
Qed.

(** The changes of a stored instance never are the creation marker. *)
Lemma changes_not_marker stored instance old key :
  pk instance = Some key → key ≠ EmptyString →
  stored_row stored instance = Some old →
  get_model_changes stored instance ≠ created_marker.
Proof.
  intros Hpk Hkey Hrow Heq.
  pose proof (model_changes_lookup stored instance old key
                "action" Hpk Hkey Hrow) as Hl.
  rewrite Heq in Hl. unfold created_marker in Hl.
  rewrite lookup_singleton_eq in Hl. by case_bool_decide.
Qed.

(** X24: [log_model_save] writes a record for an update exactly when the
    model is audited, the row of the instance is stored and some field of
    the stored row is unequal, for Python's [==], to that of the instance.
    When the stored row is the instance itself, as it is once the save
    that sends [post_save] has been written, nothing is recorded. *)
Theorem update_recorded_iff_field_differs stored sender instance logs :
  (log_model_save stored sender instance false logs ≠ logs
   ↔ sender ∈ AUDITED_MODELS
     ∧ ∃ key old f,
         pk instance = Some key ∧ key ≠ EmptyString
         ∧ stored_row stored instance = Some old
         ∧ f ∈ fields instance
         ∧ py_eq (getattr old (fst f)) (getattr instance (fst f)) = false)
  ∧ (stored_row stored instance = Some instance →
     log_model_save stored sender instance false logs = logs).
Proof.
  assert (log_model_save stored sender instance false logs ≠ logs
          ↔ sender ∈ AUDITED_MODELS
            ∧ ∃ key old f,
                pk instance = Some key ∧ key ≠ EmptyString
                ∧ stored_row stored instance = Some old
                ∧ f ∈ fields instance
                ∧ py_eq (getattr old (fst f)) (getattr instance (fst f))
                  = false) as Hiff.
  { unfold log_model_save. split.
    - case_bool_decide as Hs; [done|].
      intros Hlog. split; [done|].
      destruct (bool_decide (get_model_changes stored instance ≠ ∅))
        eqn:He; [|done].
      destruct (bool_decide (get_model_changes stored instance
                             ≠ created_marker)) eqn:Hc; [|done].
      apply bool_decide_eq_true in He, Hc.
      destruct (pk instance) as [[|c key]|] eqn:Hpk;
        try (exfalso; apply Hc; unfold get_model_changes;
             by rewrite Hpk).
      destruct (stored_row stored instance) as [old|] eqn:Hrow;
        [|exfalso; apply Hc; unfold get_model_changes;
          by rewrite Hpk, Hrow].
      apply map_choose in He as (k & v & Hk).
      rewrite (model_changes_lookup stored instance old
                 (String c key) k Hpk ltac:(done) Hrow) in Hk.
      case_bool_decide as Hd; [|done]. destruct Hd as [Hin Hne].
      apply list_elem_of_In, in_map_iff in Hin as (f & <- & Hf).
      exists (String c key), old, f.
      split_and!; try done. by apply list_elem_of_In.
    - intros (Hs & key & old & f & Hpk & Hkey & Hrow & Hf & Hne).
      rewrite bool_decide_eq_false_2 by (by intros ?).
      rewrite (bool_decide_eq_true_2
                 (get_model_changes stored instance ≠ created_marker))
        by (by eapply changes_not_marker).
      rewrite bool_decide_eq_true_2; [apply snoc_ne|].
      intros Hempty.
      pose proof (model_changes_lookup stored instance old
                    key (fst f) Hpk Hkey Hrow) as Hl.
      rewrite Hempty, lookup_empty, bool_decide_eq_true_2 in Hl; [done|].
      split; [|done]. apply list_elem_of_In, in_map. by apply list_elem_of_In. }
  split; [exact Hiff|]. intros Hsame. unfold log_model_save.
  case_bool_decide; [done|].
  destruct (pk instance) as [[|c key]|] eqn:Hpk;
    try (unfold get_model_changes; rewrite Hpk;
         by rewrite (bool_decide_eq_false_2 (_ ≠ created_marker)),
              andb_false_r by (by intros ?)).
  assert (get_model_changes stored instance = ∅) as ->.
  { apply map_eq. intros k.
    rewrite (model_changes_lookup stored instance instance
               (String c key) k Hpk ltac:(done) Hsame), lookup_empty.
    rewrite bool_decide_eq_false_2; [done|].
    intros [_ Hne]. by rewrite py_eq_refl in Hne. }
  by rewrite bool_decide_eq_false_2 by (by intros ?).
Qed.

End AuditUpdates.

(** ** The addresses of an invitation request *)

Section Addresses.
Import InviteMembersSerializer.

Lemma unique_emails_fresh seen emails e :
  e ∈ unique_emails seen emails → lower e ∉ seen.
Proof.
  revert seen. induction emails as [|x rest IH]; intros seen; simpl.
  { intros H. by apply elem_of_nil in H. }
  case_bool_decide as Hx; [apply IH|].
  intros H. apply elem_of_cons in H as [->|H]; [done|].
  apply IH in H. intros Hs. apply H. by apply elem_of_cons; right.
Qed.

Lemma unique_emails_NoDup seen emails :
  NoDup (map lower (unique_emails seen emails)).
Proof.
  revert seen. induction emails as [|x rest IH]; intros seen; simpl.
  { apply NoDup_nil_2. }
  case_bool_decide as Hx; [apply IH|]. simpl.
  apply NoDup_cons_2; [|apply IH]. intros Hin.
  apply list_elem_of_In, in_map_iff in Hin as (e & He & Hin).
  apply list_elem_of_In, unique_emails_fresh in Hin. apply Hin.
  rewrite He. apply list_elem_of_here.
Qed.

Lemma unique_emails_sublist seen emails :
  unique_emails seen emails `sublist_of` emails.
Proof.
  revert seen. induction emails as [|x rest IH]; intros seen; simpl.
  { done. }
  case_bool_decide; [apply sublist_cons|apply sublist_skip]; apply IH.
Qed.

(** X25: [validate_emails] keeps, in the order of the request, the first
    spelling of every address: what it keeps is a sub-list of the request
    with no two addresses equal up to letter case, and every address of
    the request is there up to letter case.  An empty result needs an
    empty request, which the field has turned down before: no request is
    answered with "At least one email is required." *)
Theorem validate_emails_keeps_first_spellings emails :
  NoDup (map lower (unique_emails [] emails))
  ∧ unique_emails [] emails `sublist_of` emails
  ∧ (∀ e, e ∈ emails →
          ∃ e', e' ∈ unique_emails [] emails ∧ lower e' = lower e)
  ∧ (unique_emails [] emails = [] ↔ emails = [])
  ∧ ∀ P data db,
      snd (is_valid P data db)
      ≠ inl (validation_error "At least one email is required.").
Proof.
  split_and!.
  - apply unique_emails_NoDup.
  - apply unique_emails_sublist.
  - intros e He.
    destruct (unique_emails_covers [] emails e He) as [H|H]; [|done].
    by apply elem_of_nil in H.
  - destruct emails as [|e rest]; [done|]. simpl. split; discriminate.
  - intros P data db.
    unfold is_valid, validate_emails, role_field, validate, bind, read,
      ret, stop.
    destruct (data_emails data) as [|e rest]; [discriminate|].
    cbn [unique_emails]. rewrite bool_decide_eq_false_2
      by (intros H; by apply elem_of_nil in H).
    repeat case_match; simplify_eq; simpl; try discriminate.
    all: intros [= H]; revert H; unfold dquote; simpl; discriminate.
Qed.

End Addresses.

(** ** Adding and removing members *)

Section Members.
Import ProjectViewSet.
Import Membership Permissions Invariants.
Implicit Types (db : DB) (P : Project).

(** What a successful [add_member] has checked and written. *)
Lemma add_member_created user query pk uid role db db1 r :
  handle (AddMember user query pk uid role) db = (db1, r) →
  resp_status r = HTTP_201_CREATED →
  ∃ P role',
    get_object (request_for POST user query) act_add_member pk db
    = (db, inr P)
    ∧ objects_exists (λ u, user_id u =? uid)%N (users db) = true
    ∧ role = Some role' ∧ role' ∈ ROLE_CHOICES
    ∧ existsb (λ m, (pm_project m =? project_id P)%N
                    && (pm_user m =? uid)%N) (project_members db) = false
    ∧ db1 = with_member db
              {| pm_id := uuid_supply db; pm_project := project_id P;
                 pm_user := uid; pm_role := role'; pm_is_active := true |}.
Proof.
  unfold handle, respond, view_of, add_member, bind.
  destruct (get_object _ _ _ db) as [db' [e|P]] eqn:Hobj.
  { simpl. intros Heq Hr. simplify_eq. revert Hobj.
    unfold get_object, bind, read, stop, ret.
    repeat case_match; intros; simplify_eq; done. }
  pose proof (get_object_found _ _ _ _ _ _ Hobj) as (-> & _ & _).
  unfold AddProjectMemberSerializer.validate_user_id, role_field,
    Models.member_create, bind, read, stop, ret, uuid4, write,
    objects_exists.
  destruct (existsb _ (users db)) eqn:Hknown; [|by intros [= <- <-]].
  destruct role as [role'|]; [|by intros [= <- <-]].
  case_bool_decide as Hrole; [|by intros [= <- <-]].
  simpl.
  destruct (existsb _ (project_members db)) eqn:Htaken;
    [by intros [= <- <-]|].
  intros Heq _. rewrite Htaken in Heq. simpl in Heq.
  exists P, role'. by simplify_eq.
Qed.

(** A row for another user changes nothing for this one. *)
Lemma get_object_with_member request action pk db P m :
  action ≠ act_list →
  pm_user m ≠ user_id (req_user request) ∨ pm_project m ≠ project_id P →
  get_object request action pk db = (db, inr P) →
  get_object request action pk (with_member db m)
  = (with_member db m, inr P).
Proof.
  intros Hact Hother Hobj.
  apply get_object_found in Hobj as (_ & Hget & Hperm).
  unfold get_object, bind, read, stop, ret.
  assert (get_queryset (with_member db m) request action
          = get_queryset db request action) as ->.
  { unfold get_queryset. simpl.
    by rewrite (bool_decide_eq_false_2 (action = act_list)). }
  rewrite Hget.
  assert (has_object_permission (with_member db m) request action P
          = has_object_permission db request action P) as ->;
    [|by rewrite Hperm].
  unfold has_object_permission. simpl. unfold objects_get.
  rewrite List.filter_app. simpl.
  replace (active_membership P (req_user request) m) with false;
    [by rewrite app_nil_r|].
  symmetry. apply not_true_is_false. intros Hc.
  apply active_membership_spec in Hc as (? & ? & _). by destruct Hother.
Qed.

(** Who passes the permission of [add_member] is no member-to-be: a user
    without the ADMIN role has a row already. *)
Lemma adder_is_not_added user query pk uid db P :
  get_object (request_for POST user query) act_add_member pk db
  = (db, inr P) →
  existsb (λ m, (pm_project m =? project_id P)%N && (pm_user m =? uid)%N)
          (project_members db) = false →
  user_role user = ADMIN ∨ uid ≠ user_id user.
Proof.
  intros Hobj Hfree. apply get_object_found in Hobj as (_ & _ & Hperm).
  unfold has_object_permission in Hperm. simpl in Hperm.
  case_bool_decide as Hadmin; [by left|]. right. intros ->.
  destruct (objects_get _ _) as [m| |] eqn:Hget; try discriminate.
  apply objects_get_found in Hget as [Hin Hc].
  apply active_membership_spec in Hc as (Hp & Hu & _).
  apply not_true_iff_false in Hfree. apply Hfree, existsb_exists.
  exists m. split; [by apply list_elem_of_In|].
  by rewrite Hp, Hu, !N.eqb_refl.
Qed.

Lemma admin_get_object_with_member request action pk db P m :
  action ≠ act_list → user_role (req_user request) = ADMIN →
  get_object request action pk db = (db, inr P) →
  get_object request action pk (with_member db m)
  = (with_member db m, inr P).
Proof.
  intros Hact Hadmin Hobj.
  apply get_object_found in Hobj as (_ & Hget & Hperm).
  unfold get_object, bind, read, stop, ret.
  assert (get_queryset (with_member db m) request action
          = get_queryset db request action) as ->.
  { unfold get_queryset. simpl.
    by rewrite (bool_decide_eq_false_2 (action = act_list)). }
  rewrite Hget. unfold has_object_permission.
  by rewrite bool_decide_eq_true_2.
Qed.

(** X26: [add_member] is not repeatable: after a request that added a
    member, the same request is answered with 400 "User is already a
    member of this project" and writes nothing. *)
Theorem add_member_twice user query pk uid role db db1 r :
  handle (AddMember user query pk uid role) db = (db1, r) →
  resp_status r = HTTP_201_CREATED →
  handle (AddMember user query pk uid role) db1
  = (db1, api_error HTTP_400_BAD_REQUEST
            "User is already a member of this project"
            (Some "user_already_member")).
Proof.
  intros Hh Hr.
  destruct (add_member_created _ _ _ _ _ _ _ _ Hh Hr)
    as (P & role' & Hobj & Hknown & -> & Hrole & Hfree & ->).
  assert (get_object (request_for POST user query) act_add_member pk
            (with_member db
               {| pm_id := uuid_supply db; pm_project := project_id P;
                  pm_user := uid; pm_role := role';
                  pm_is_active := true |})
          = (with_member db
               {| pm_id := uuid_supply db; pm_project := project_id P;
                  pm_user := uid; pm_role := role';
                  pm_is_active := true |}, inr P)) as Hobj1.
  { destruct (adder_is_not_added _ _ _ _ _ _ Hobj Hfree) as [Hadmin|Hne].
    - by apply admin_get_object_with_member.
    - apply get_object_with_member; [done| |done]. by left. }
  unfold handle, respond, view_of, add_member, bind. rewrite Hobj1.
  unfold AddProjectMemberSerializer.validate_user_id, role_field, bind,
    read, stop, ret. simpl. rewrite Hknown.
  rewrite (bool_decide_eq_true_2 _ Hrole). simpl.
  unfold objects_exists. rewrite existsb_app. simpl.
  by rewrite !N.eqb_refl, orb_true_r.
Qed.

(** alice adds carol to project X, twice. *)
Lemma add_member_twice_witness :
  snd (handle (AddMember Scenario.alice no_params 10 4 (Some "TESTER"))
         (fst (handle
                 (AddMember Scenario.alice no_params 10 4 (Some "TESTER"))
                 Scenario.db0)))
  = api_error HTTP_400_BAD_REQUEST
      "User is already a member of this project"
      (Some "user_already_member").
Proof.
  rewrite (add_member_twice Scenario.alice no_params 10 4 (Some "TESTER")
             Scenario.db0 _ _ (surjective_pairing _) eq_refl).
  reflexivity.
Defined.

(** The two member actions ask for the same permission. *)
Lemma remove_permission_as_add user query pk db P :
  get_object (request_for POST user query) act_add_member pk db
  = (db, inr P) →
  get_object (request_for DELETE user query) act_remove_member pk db
  = (db, inr P).
Proof.
  intros Hobj. apply get_object_found in Hobj as (_ & Hget & Hperm).
  unfold get_object, bind, read, stop, ret.
  change (get_queryset db (request_for DELETE user query) act_remove_member)
    with (get_queryset db (request_for POST user query) act_add_member).
  rewrite Hget.
  assert (has_object_permission db (request_for DELETE user query)
            act_remove_member P = Returns true) as ->; [|done].
  rewrite <- Hperm. unfold has_object_permission. simpl.
  case_bool_decide; [done|]. by destruct (objects_get _ _).
Qed.

Lemma filter_all_kept {A} (f : A → bool) (l : list A) :
  (∀ x, x ∈ l → f x = true) → List.filter f l = l.
Proof.
  induction l as [|x l IH]; [done|]. intros H. simpl.
  rewrite (H x) by apply list_elem_of_here. f_equal. apply IH.
  intros y Hy. apply H. by apply elem_of_cons; right.
Qed.

Lemma filter_none_kept {A} (f : A → bool) (l : list A) :
  existsb f l = false → List.filter f l = [].
Proof.
  induction l as [|x l IH]; [done|]. simpl. intros H.
  apply orb_false_iff in H as [-> H]. by apply IH.
Qed.

(** X27: a member who was just added can be removed again by the same
    user, and the two requests together leave the members table as it
    was. *)
Theorem add_then_remove_member user query pk uid role db db1 r :
  member_ids_issued db →
  handle (AddMember user query pk uid role) db = (db1, r) →
  resp_status r = HTTP_201_CREATED →
  ∃ db2,
    handle (RemoveMember user query pk uid) db1
    = (db2, api_success HTTP_204_NO_CONTENT
              "Member removed from project successfully")
    ∧ project_members db2 = project_members db.
Proof.
  intros Hiss Hh Hr.
  destruct (add_member_created _ _ _ _ _ _ _ _ Hh Hr)
    as (P & role' & Hobj & Hknown & -> & Hrole & Hfree & ->).
  set (new := {| pm_id := uuid_supply db; pm_project := project_id P;
                 pm_user := uid; pm_role := role';
                 pm_is_active := true |}).
  assert (get_object (request_for DELETE user query) act_remove_member pk
            (with_member db new) = (with_member db new, inr P)) as Hobj1.
  { pose proof (remove_permission_as_add _ _ _ _ _ Hobj) as Hrm.
    destruct (adder_is_not_added _ _ _ _ _ _ Hobj Hfree) as [Hadmin|Hne].
    - by apply admin_get_object_with_member.
    - apply get_object_with_member; [done| |done]. by left. }
  unfold handle, respond, view_of, remove_member, bind, read. rewrite Hobj1.
  unfold objects_get. simpl. rewrite List.filter_app.
  rewrite (filter_none_kept _ _ Hfree). simpl.
  rewrite !N.eqb_refl. simpl.
  eexists. split; [reflexivity|]. simpl.
  rewrite List.filter_app. simpl. rewrite N.eqb_refl. simpl.
  rewrite app_nil_r. apply filter_all_kept.
  intros m Hm. specialize (Hiss m Hm). apply negb_true_iff, N.eqb_neq. lia.
Qed.

(** alice adds carol to project X and removes her again. *)
Lemma add_then_remove_member_witness :
  ∃ db2,
    handle (RemoveMember Scenario.alice no_params 10 4)
      (fst (handle
              (AddMember Scenario.alice no_params 10 4 (Some "TESTER"))
              Scenario.db0))
    = (db2, api_success HTTP_204_NO_CONTENT
              "Member removed from project successfully")
    ∧ project_members db2 = project_members Scenario.db0.
Proof.
  apply (add_then_remove_member Scenario.alice no_params 10 4
           (Some "TESTER") Scenario.db0
           (fst (handle
                   (AddMember Scenario.alice no_params 10 4 (Some "TESTER"))
                   Scenario.db0))
           (snd (handle
                   (AddMember Scenario.alice no_params 10 4 (Some "TESTER"))
                   Scenario.db0))).
  - intros m Hm. revert m Hm. apply Forall_forall.
    apply (bool_decide_unpack _). by vm_compute.
  - apply surjective_pairing.
  - reflexivity.
Defined.

(** X28: nothing keeps a lead from removing the own membership.  A user
    without the ADMIN role who passes the permission of [remove_member]
    and names the own id is answered with 204, and has no access to the
    project afterwards. *)
Theorem member_can_remove_self user query pk db P :
  members_unique db → user_role user ≠ ADMIN →
  get_object (request_for DELETE user query) act_remove_member pk db
  = (db, inr P) →
  get_user_project_role db user P = Returns (Some "LEAD")
  ∧ ∃ db',
      handle (RemoveMember user query pk (user_id user)) db
      = (db', api_success HTTP_204_NO_CONTENT
                "Member removed from project successfully")
      ∧ can_user_access_project db' user P = false
      ∧ get_user_project_role db' user P = Returns None.
Proof.
  intros Hu Hrole Hobj.
  pose proof (get_object_found _ _ _ _ _ _ Hobj) as (_ & _ & Hperm).
  unfold has_object_permission in Hperm. simpl in Hperm.
  rewrite bool_decide_eq_false_2 in Hperm by done.
  unfold get_user_project_role.
  destruct (objects_get (active_membership P user) (project_members db))
    as [m| |] eqn:Hget; try discriminate.
  rewrite orb_false_r in Hperm. injection Hperm as Hlead.
  apply bool_decide_eq_true in Hlead.
  split; [by rewrite Hlead|].
  apply objects_get_found in Hget as [Hin Hc].
  apply active_membership_spec in Hc as (Hp & Hus & Hact).
  assert (objects_get
            (λ r, (pm_project r =? project_id P)%N
                  && (pm_user r =? user_id user)%N) (project_members db)
          = Found m) as Hfound.
  { apply (objects_get_by_key (λ r, (pm_project r, pm_user r)));
      [exact Hu|done| |].
    - by rewrite Hp, Hus, !N.eqb_refl.
    - intros r Hr. apply andb_true_iff in Hr as [H1 H2].
      apply N.eqb_eq in H1, H2. by rewrite H1, H2, Hp, Hus. }
  unfold handle, respond, view_of, remove_member, bind, read.
  rewrite Hobj, Hfound. eexists. split; [reflexivity|]. simpl.
  assert (∀ r, r ∈ List.filter (λ r, negb (pm_id r =? pm_id m)%N)
                     (project_members db) →
               active_membership P user r = false) as Hgone.
  { intros r Hr. apply elem_of_filter_list in Hr as [Hr Hid].
    apply not_true_is_false. intros Hc.
    apply active_membership_spec in Hc as (Hp' & Hu' & _).
    assert (r = m) as ->.
    { apply (unique_key_eq (λ r, (pm_project r, pm_user r))
               (project_members db)); [exact Hu|done|done|].
      by rewrite Hp, Hus, Hp', Hu'. }
    by rewrite N.eqb_refl in Hid. }
  unfold can_user_access_project. rewrite bool_decide_eq_false_2 by done.
  simpl. split.
  - unfold objects_exists. apply not_true_is_false. intros Hex.
    apply existsb_exists in Hex as [r [Hr Hc]].
    apply list_elem_of_In in Hr. by rewrite (Hgone r Hr) in Hc.
  - by rewrite (proj2 (objects_get_none _ _) Hgone).
Qed.

(** alice, the only lead of project Y, removes herself. *)
Lemma member_can_remove_self_witness :
  ∃ db',
    handle (RemoveMember Scenario.alice no_params 11 1) Scenario.db0
    = (db', api_success HTTP_204_NO_CONTENT
              "Member removed from project successfully")
    ∧ can_user_access_project db' Scenario.alice Scenario.project_y = false.
Proof.
  destruct (member_can_remove_self Scenario.alice no_params 11 Scenario.db0
              Scenario.project_y) as [_ (db' & H1 & H2 & _)].
  - apply (bool_decide_unpack _). by vm_compute.
  - discriminate.
  - reflexivity.
  - exists db'. by split.
Defined.

End Members.

(** ** The code of a project under update *)

Section UpdateCode.
Import ProjectUpdateSerializer.
Import Invariants.
Implicit Types (db : DB) (P : Project).

Lemma text_key_upper_codes c a b :
  upper a = a → upper b = b → text_key c a = text_key c b → a = b.
Proof.
  intros Ha Hb. destruct c; simpl; [done|]. intros Hl.
  by rewrite <- Ha, <- Hb, <- upper_lower, Hl, upper_lower.
Qed.

(** X29: while the stored codes are in upper case and pairwise different,
    [ProjectUpdateSerializer.validate_code] lets a project keep its own
    code, spelled in any letter case, and hands it on in upper case; the
    code of another stored project, in any letter case, is turned down,
    and nothing is written. *)
Theorem update_keeps_own_code db P value :
  codes_upper db → codes_unique db → P ∈ projects db →
  (lower value = lower (project_code P) →
   validate_code P value db = (db, inr (project_code P)))
  ∧ (∀ Q, Q ∈ projects db → project_id Q ≠ project_id P →
          lower value = lower (project_code Q) →
          validate_code P value db
          = (db, inl (validation_error "Project code must be unique."))).
Proof.
  intros Hup Hu HP. unfold validate_code, bind, read, stop, ret. split.
  - intros Hl.
    assert (upper value = project_code P) as ->
      by (by rewrite <- upper_lower, Hl, upper_lower, (Hup P HP)).
    replace (objects_exists _ _) with false; [done|].
    symmetry. apply not_true_is_false. intros Hex.
    apply objects_exists_spec in Hex as (q & Hq & Heq).
    apply elem_of_filter_list in Hq as [Hq Hid].
    apply bool_decide_eq_true in Heq.
    apply text_key_upper_codes in Heq; [|by apply Hup..].
    assert (q = P) as ->
      by (by apply (unique_key_eq project_code (projects db))).
    by rewrite N.eqb_refl in Hid.
  - intros Q HQ Hid Hl.
    assert (upper value = project_code Q) as ->
      by (by rewrite <- upper_lower, Hl, upper_lower, (Hup Q HQ)).
    replace (objects_exists _ _) with true; [done|].
    symmetry. apply objects_exists_spec. exists Q. split.
    + apply elem_of_filter_list. split; [done|].
      by apply negb_true_iff, N.eqb_neq.
    + by apply bool_decide_eq_true.
Qed.

(** Project X keeps the code PX, sent as px. *)
Lemma update_keeps_own_code_witness :
  validate_code Scenario.project_x "px" Scenario.db0
  = (Scenario.db0, inr "PX").
Proof.
  apply (update_keeps_own_code Scenario.db0 Scenario.project_x "px").
  - intros p Hp. revert p Hp. apply Forall_forall.
    apply (bool_decide_unpack _). by vm_compute.
  - unfold codes_unique. apply (bool_decide_unpack _). by vm_compute.
  - apply list_elem_of_here.
  - reflexivity.
Defined.

End UpdateCode.
